(** * Interview video analysis: speech, facial and confidence metrics

    A shallow embedding of [cloud-function-video-analysis/main.py]
    (class [VideoAnalysisService]) together with the transcript-based filler
    counter of [cloud-function-analysis/main.py], and the properties of the
    analysis pipeline that the specification states about them.

    Conventions of the embedding.
    - Python [float] values are modelled by exact rationals ([Q], compared
      with [==]); rounding of binary floating point is not modelled there.
      Where a statement turns on that rounding, the function is embedded
      a second time in IEEE 754 binary64 arithmetic (module [Binary64]).
    - [np.std] is the population standard deviation: the square root of the
      mean squared deviation.  The mean squared deviation is computed in
      [Q]; the square root itself is a parameter [np_sqrt] of the
      definitions that need it.
    - A Python [dict] built by the code is an association list in insertion
      order (the order in which [sum(d.values())] folds).
    - A [try ... except Exception as e: return {'error': str(e)}] block is a
      computation in the [result] monad; [Err e] stands for the dictionary
      [{'error': str(e)}], which has no other key.
    - Strings are ASCII strings; [str.lower] lowers the letters A-Z. *)

From Stdlib Require Import QArith Qabs Qround Qminmax Lqa Lia ZArith List String Ascii Bool.
From Stdlib Require Floats.SpecFloat.
Import ListNotations.
Open Scope Q_scope.

(** ** Exceptions and the [result] monad *)

Inductive exn : Type :=
| IndexError
| ZeroDivisionError
| ValueError
| ServiceError (msg : string).

Inductive result (A : Type) : Type :=
| Ok (a : A)
| Err (e : exn).

Arguments Ok {A} a.
Arguments Err {A} e.

Definition bind {A B : Type} (m : result A) (k : A -> result B) : result B :=
  match m with
  | Ok a => k a
  | Err e => Err e
  end.

Notation "x <- m ;; k" := (bind m (fun x => k))
  (at level 61, m at next level, right associativity).

Definition is_ok {A : Type} (m : result A) : bool :=
  match m with Ok _ => true | Err _ => false end.

(** ** Python numeric builtins on rationals *)

Definition Qltb (a b : Q) : bool := negb (Qle_bool b a).

(** [max(a, b)] keeps its first argument unless the second is greater. *)
Definition py_max (a b : Q) : Q := if Qltb a b then b else a.

(** [min(a, b)] keeps its first argument unless the second is smaller. *)
Definition py_min (a b : Q) : Q := if Qltb b a then b else a.

(** [int(x)] on a float truncates toward zero. *)
Definition py_int (x : Q) : Z := Z.quot (Qnum x) (Zpos (Qden x)).

(** [sum(values)] starts from 0 and adds from the left. *)
Definition py_sum (values : list Q) : Q := fold_left Qplus values 0.

Definition py_len {A : Type} (l : list A) : Q := inject_Z (Z.of_nat (List.length l)).

(** [max(values)] and [min(values)] on a list scan from the left; the
    callers only apply them to non-empty lists. *)
Definition py_max_list (values : list Q) : Q :=
  match values with
  | [] => 0
  | v :: rest => fold_left py_max rest v
  end.

Definition py_min_list (values : list Q) : Q :=
  match values with
  | [] => 0
  | v :: rest => fold_left py_min rest v
  end.

Definition mean (values : list Q) : Q := py_sum values / py_len values.

(** Mean squared deviation from the mean (the population variance). *)
Definition pvariance (values : list Q) : Q :=
  let m := mean values in
  mean (map (fun x => (x - m) * (x - m)) values).

(** ** Dictionaries in insertion order *)

Definition dict (V : Type) : Type := list (string * V).

Fixpoint dict_get {V : Type} (k : string) (d : dict V) : option V :=
  match d with
  | [] => None
  | (k', v) :: rest => if String.eqb k k' then Some v else dict_get k rest
  end.

(** [k in d] *)
Definition dict_mem {V : Type} (k : string) (d : dict V) : bool :=
  match dict_get k d with Some _ => true | None => false end.

(** [d[k] = v]: update in place, or append a new key. *)
Fixpoint dict_set {V : Type} (k : string) (v : V) (d : dict V) : dict V :=
  match d with
  | [] => [(k, v)]
  | (k', v') :: rest =>
      if String.eqb k k' then (k, v) :: rest else (k', v') :: dict_set k v rest
  end.

Definition dict_values {V : Type} (d : dict V) : list V := map snd d.
Definition dict_keys {V : Type} (d : dict V) : list string := map fst d.

(** ** String operations *)

Definition lower_ascii (c : ascii) : ascii :=
  let n := nat_of_ascii c in
  if ((65 <=? n) && (n <=? 90))%nat then ascii_of_nat (n + 32) else c.

Fixpoint lower (s : string) : string :=
  match s with
  | EmptyString => EmptyString
  | String c rest => String (lower_ascii c) (lower rest)
  end.

Definition in_chars (c : ascii) (chars : string) : bool :=
  existsb (Ascii.eqb c) (list_ascii_of_string chars).

Fixpoint lstrip_list (chars : string) (s : list ascii) : list ascii :=
  match s with
  | [] => []
  | c :: rest => if in_chars c chars then lstrip_list chars rest else s
  end.

(** [s.strip(chars)] removes leading and trailing characters of [chars]. *)
Definition strip (chars : string) (s : string) : string :=
  string_of_list_ascii
    (rev (lstrip_list chars (rev (lstrip_list chars (list_ascii_of_string s))))).

(** [sep.join(parts)] *)
Definition join (sep : string) (parts : list string) : string :=
  String.concat sep parts.

Definition str_in (w : string) (l : list string) : bool :=
  existsb (String.eqb w) l.

(** ** Configuration *)

Definition FILLER_WORDS : list string :=
  ["um"; "uh"; "ah"; "like"; "you know"; "so"; "well"; "actually";
   "basically"; "literally"]%string.

(** ** Frame sampling: [extract_video_frames] *)

Section FrameSampler.

(** A decoded frame; its contents play no role in the sampling. *)
Variable Image : Type.

(** An opened [cv2.VideoCapture]: the frame rate reported by
    [CAP_PROP_FPS] and the frames that successive [cap.read()] calls
    return before [ret] becomes false. *)
Record VideoCapture : Type := {
  cap_fps : Q;
  cap_frames : list Image
}.

Record FrameData : Type := {
  fd_timestamp : Q;
  fd_image : Image;
  fd_frame_number : Z
}.

(** The [while True] loop.  [frame_count % frame_interval] raises
    [ZeroDivisionError] when the stride is 0, and so does
    [frame_count / fps] when the frame rate is 0. *)
Fixpoint read_frames (fps : Q) (frame_interval : Z) (source : list Image)
    (frame_count : Z) (frames : list FrameData) : result (list FrameData) :=
  match source with
  | [] => Ok frames
  | frame :: rest =>
      if (frame_interval =? 0)%Z then Err ZeroDivisionError
      else if (frame_count mod frame_interval =? 0)%Z then
        if Qeq_bool fps 0 then Err ZeroDivisionError
        else
          read_frames fps frame_interval rest (frame_count + 1)
            (frames ++ [{| fd_timestamp := inject_Z frame_count / fps;
                           fd_image := frame;
                           fd_frame_number := frame_count |}])
      else read_frames fps frame_interval rest (frame_count + 1) frames
  end.

Definition extract_video_frames (cap : VideoCapture) (interval_seconds : Q)
    : result (list FrameData) :=
  let fps := cap_fps cap in
  let frame_interval := py_int (fps * interval_seconds) in
  read_frames fps frame_interval (cap_frames cap) 0 [].

End FrameSampler.

Arguments cap_fps {Image} _.
Arguments cap_frames {Image} _.
Arguments fd_timestamp {Image} _.
Arguments fd_image {Image} _.
Arguments fd_frame_number {Image} _.
Arguments read_frames {Image} fps frame_interval source frame_count frames.
Arguments extract_video_frames {Image} cap interval_seconds.

(** ** Speech metrics *)

(** What the transcription service returns: per result a list of
    alternatives, each with its transcript and its timed words. *)
Record WordInfo : Type := {
  wi_word : string;
  wi_start_time : Q;
  wi_end_time : Q
}.

Record Alternative : Type := {
  alt_transcript : string;
  alt_words : list WordInfo
}.

Record SpeechResult : Type := {
  alternatives : list Alternative
}.

Record WordTimestamp : Type := {
  word : string;
  start_time : Q;
  end_time : Q;
  duration : Q
}.

Record FillerDetail : Type := {
  fd_word : string;
  fd_time : Q;
  fd_duration : Q
}.

(** The accumulators of the loop over [response.results]. *)
Record SpeechAcc : Type := {
  transcript_parts : list string;
  word_timestamps : list WordTimestamp;
  total_words : Z;
  filler_word_count : Z
}.

Definition speech_acc0 : SpeechAcc :=
  {| transcript_parts := []; word_timestamps := [];
     total_words := 0; filler_word_count := 0 |}.

Definition normalize_word (w : string) : string := strip ".,!?" (lower w).

(** The module-level [FILLER_WORDS] is read by the loop and by
    [get_filler_word_details]; it is passed explicitly as [filler_words],
    and the pipeline supplies the constant. *)
Section FillerSet.

Variable filler_words : list string.

Definition process_word (acc : SpeechAcc) (word_info : WordInfo) : SpeechAcc :=
let w := normalize_word (wi_word word_info) in
let st := wi_start_time word_info in
let et := wi_end_time word_info in
{| transcript_parts := transcript_parts acc;
   word_timestamps :=
     word_timestamps acc ++
     [{| word := w; start_time := st; end_time := et; duration := et - st |}];
   total_words := total_words acc + 1;
   filler_word_count :=
     if str_in w filler_words then filler_word_count acc + 1
     else filler_word_count acc |}.

(** One iteration over a result; [result.alternatives[0]] raises
  [IndexError] on an empty list of alternatives. *)
Definition process_result (acc : SpeechAcc) (r : SpeechResult) : result SpeechAcc :=
match alternatives r with
| [] => Err IndexError
| alternative :: _ =>
    Ok (fold_left process_word (alt_words alternative)
          {| transcript_parts := transcript_parts acc ++ [alt_transcript alternative];
             word_timestamps := word_timestamps acc;
             total_words := total_words acc;
             filler_word_count := filler_word_count acc |})
end.

Fixpoint process_results (acc : SpeechAcc) (results : list SpeechResult)
  : result SpeechAcc :=
match results with
| [] => Ok acc
| r :: rest => acc' <- process_result acc r ;; process_results acc' rest
end.

(** [word_timestamps[-1]['end_time'] - word_timestamps[0]['start_time']
  if word_timestamps else 0] *)
Definition total_duration_of (wts : list WordTimestamp) : Q :=
match wts with
| [] => 0
| first :: _ => end_time (last wts first) - start_time first
end.

Definition words_per_minute_of (total_words : Z) (total_duration : Q) : Q :=
if Qltb 0 total_duration then (inject_Z total_words / total_duration) * 60 else 0.

Definition filler_percentage_of (filler_word_count total_words : Z) : Q :=
if (0 <? total_words)%Z
then (inject_Z filler_word_count / inject_Z total_words) * 100
else 0.

Definition get_filler_word_details (wts : list WordTimestamp) : list FillerDetail :=
map (fun wd => {| fd_word := word wd; fd_time := start_time wd;
                  fd_duration := duration wd |})
    (filter (fun wd => str_in (word wd) filler_words) wts).

End FillerSet.

Definition calculate_clarity_score (filler_percentage words_per_minute : Q) : Q :=
  let ideal_wpm := 155 in
  let wpm_score := py_max 0 (1 - Qabs (words_per_minute - ideal_wpm) / 100) in
  let filler_score := py_max 0 (1 - filler_percentage / 20) in
  let clarity_score := wpm_score * 0.6 + filler_score * 0.4 in
  py_min 1 (py_max 0 clarity_score).

(** [a / b] where the code does not guard the divisor. *)
Definition py_div (a b : Q) : result Q :=
  if Qeq_bool b 0 then Err ZeroDivisionError else Ok (a / b).

(** The pacing report: either [{'error': msg}] or the four numeric fields. *)
Inductive PacingAnalysis : Type :=
| PacingError (msg : string)
| PacingStats (average_wpm wpm_standard_deviation pacing_consistency : Q)
              (wpm_timeline : list Q).

Definition insufficient_pacing_data : string :=
  "Insufficient data for pacing analysis"%string.

Record SpeechAnalysis : Type := {
  sa_transcript : string;
  sa_total_words : Z;
  sa_total_duration_seconds : Q;
  sa_words_per_minute : Q;
  sa_filler_count : Z;
  sa_filler_percentage : Q;
  sa_filler_details : list FillerDetail;
  sa_pacing_analysis : PacingAnalysis;
  sa_clarity_score : Q;
  sa_word_timestamps : list WordTimestamp
}.

(** The body of the sliding-window loop: [window[-1]] and [window[0]]
    raise [IndexError] on an empty window. *)
Definition window_wpm (window_size : nat) (window : list WordTimestamp) : result Q :=
  match window with
  | [] => Err IndexError
  | first :: _ =>
      let duration := end_time (last window first) - start_time first in
      Ok (if Qltb 0 duration
          then (inject_Z (Z.of_nat window_size) / duration) * 60
          else 0)
  end.

(** [word_timestamps[i:i + window_size]] *)
Definition slice_window (wts : list WordTimestamp) (i window_size : nat)
    : list WordTimestamp :=
  firstn window_size (skipn i wts).

Fixpoint window_loop (wts : list WordTimestamp) (window_size : nat)
    (indices : list nat) (window_wpms : list Q) : result (list Q) :=
  match indices with
  | [] => Ok window_wpms
  | i :: rest =>
      wpm <- window_wpm window_size (slice_window wts i window_size) ;;
      window_loop wts window_size rest (window_wpms ++ [wpm])
  end.

Section Statistics.

(** The square root used by [np.std]. *)
Variable np_sqrt : Q -> Q.
Variable filler_words : list string.

Definition np_std (values : list Q) : Q := np_sqrt (pvariance values).

Definition analyze_pacing_variations (wts : list WordTimestamp)
    : result PacingAnalysis :=
  if (List.length wts <? 10)%nat then Ok (PacingError insufficient_pacing_data)
  else
    let window_size := 10%nat in
    window_wpms <-
      window_loop wts window_size
        (seq 0 (List.length wts - window_size + 1)) [] ;;
    avg_wpm <- py_div (py_sum window_wpms) (py_len window_wpms) ;;
    let wpm_std := np_std window_wpms in
    Ok (PacingStats avg_wpm wpm_std
          (if Qltb 0 avg_wpm then py_max 0 (1 - wpm_std / avg_wpm) else 0)
          window_wpms).

(** [recognize] is the outcome of [long_running_recognize] followed by
    [operation.result(timeout=300)]: the response's results, or the
    exception it raised. *)
Definition analyze_speech (recognize : result (list SpeechResult))
    : result SpeechAnalysis :=
  response <- recognize ;;
  acc <- process_results filler_words speech_acc0 response ;;
  let full_transcript := join " " (transcript_parts acc) in
  let total_duration := total_duration_of (word_timestamps acc) in
  let words_per_minute := words_per_minute_of (total_words acc) total_duration in
  let filler_percentage :=
    filler_percentage_of (filler_word_count acc) (total_words acc) in
  pacing_analysis <- analyze_pacing_variations (word_timestamps acc) ;;
  Ok {| sa_transcript := full_transcript;
        sa_total_words := total_words acc;
        sa_total_duration_seconds := total_duration;
        sa_words_per_minute := words_per_minute;
        sa_filler_count := filler_word_count acc;
        sa_filler_percentage := filler_percentage;
        sa_filler_details :=
          get_filler_word_details filler_words (word_timestamps acc);
        sa_pacing_analysis := pacing_analysis;
        sa_clarity_score :=
          calculate_clarity_score filler_percentage words_per_minute;
        sa_word_timestamps := word_timestamps acc |}.

End Statistics.

(** ** Facial expressions *)

(** The fixed set of per-frame likelihood attributes. *)
Inductive emotion : Type :=
| joy | sorrow | anger | surprise | under_exposed | blurred | headwear.

Definition emotion_name (e : emotion) : string :=
  match e with
  | joy => "joy"
  | sorrow => "sorrow"
  | anger => "anger"
  | surprise => "surprise"
  | under_exposed => "under_exposed"
  | blurred => "blurred"
  | headwear => "headwear"
  end%string.

Definition all_emotions : list emotion :=
  [joy; sorrow; anger; surprise; under_exposed; blurred; headwear].

(** One entry of [response.face_annotations]. *)
Record FaceAnnotation : Type := {
  joy_likelihood : Z;
  sorrow_likelihood : Z;
  anger_likelihood : Z;
  surprise_likelihood : Z;
  under_exposed_likelihood : Z;
  blurred_likelihood : Z;
  headwear_likelihood : Z;
  detection_confidence : Q;
  roll_angle : Q;
  pan_angle : Q;
  tilt_angle : Q
}.

Definition likelihood_to_score (likelihood : Z) : Q :=
  match likelihood with
  | 0%Z => 0
  | 1%Z => 0.1
  | 2%Z => 0.3
  | 3%Z => 0.5
  | 4%Z => 0.7
  | 5%Z => 0.9
  | _ => 0
  end.

(** The [emotions] dictionary of a frame always has the seven keys of the
    literal that builds it: a record, read by key with [emotion_value]. *)
Record Emotions : Type := {
  e_joy : Q;
  e_sorrow : Q;
  e_anger : Q;
  e_surprise : Q;
  e_under_exposed : Q;
  e_blurred : Q;
  e_headwear : Q
}.

Definition emotion_value (emotions : Emotions) (e : emotion) : Q :=
  match e with
  | joy => e_joy emotions
  | sorrow => e_sorrow emotions
  | anger => e_anger emotions
  | surprise => e_surprise emotions
  | under_exposed => e_under_exposed emotions
  | blurred => e_blurred emotions
  | headwear => e_headwear emotions
  end.

Definition emotions_of (face : FaceAnnotation) : Emotions :=
  {| e_joy := likelihood_to_score (joy_likelihood face);
     e_sorrow := likelihood_to_score (sorrow_likelihood face);
     e_anger := likelihood_to_score (anger_likelihood face);
     e_surprise := likelihood_to_score (surprise_likelihood face);
     e_under_exposed := likelihood_to_score (under_exposed_likelihood face);
     e_blurred := likelihood_to_score (blurred_likelihood face);
     e_headwear := likelihood_to_score (headwear_likelihood face) |}.

Record EmotionFrame : Type := {
  ef_timestamp : Q;
  ef_emotions : Emotions;
  ef_detection_confidence : Q
}.

Record EmotionStats : Type := {
  es_average : Q;
  es_max : Q;
  es_min : Q;
  es_std : Q
}.

Record FacialAnalysis : Type := {
  fa_emotion_timeline : list EmotionFrame;
  fa_emotion_statistics : dict EmotionStats;
  fa_total_frames_analyzed : Z;
  fa_average_detection_confidence : Q
}.

(** ** Confidence metrics *)

Record HeadPoseFrame : Type := {
  hp_timestamp : Q;
  hp_roll_angle : Q;
  hp_pan_angle : Q;
  hp_tilt_angle : Q;
  hp_eye_contact_score : Q
}.

Record ConfidenceAnalysis : Type := {
  ca_head_pose_timeline : list HeadPoseFrame;
  ca_average_eye_contact_score : Q;
  ca_eye_contact_consistency : Q;
  ca_head_stability_score : Q;
  ca_confidence_score : Q
}.

Definition estimate_eye_contact (pan_angle tilt_angle roll_angle : Q) : Q :=
  let ideal_pan := 0 in
  let ideal_tilt := 0 in
  let ideal_roll := 0 in
  let pan_deviation := Qabs (pan_angle - ideal_pan) in
  let tilt_deviation := Qabs (tilt_angle - ideal_tilt) in
  let roll_deviation := Qabs (roll_angle - ideal_roll) in
  let weighted_deviation :=
    pan_deviation * 0.6 + tilt_deviation * 0.3 + roll_deviation * 0.1 in
  let max_acceptable_deviation := 30 in
  py_max 0 (1 - weighted_deviation / max_acceptable_deviation).

Definition calculate_confidence_score (eye_contact consistency stability : Q) : Q :=
  eye_contact * 0.5 + consistency * 0.3 + stability * 0.2.

Section VisionStatistics.

Variable np_sqrt : Q -> Q.

Definition emotion_keys : list emotion := [joy; sorrow; anger; surprise].

Definition calculate_emotion_statistics (emotion_timeline : list EmotionFrame)
    : dict EmotionStats :=
  match emotion_timeline with
  | [] => []
  | _ :: _ =>
      fold_left
        (fun stats e =>
           let values :=
             map (fun frame => emotion_value (ef_emotions frame) e)
                 emotion_timeline in
           dict_set (emotion_name e)
             {| es_average := py_sum values / py_len values;
                es_max := py_max_list values;
                es_min := py_min_list values;
                es_std := np_std np_sqrt values |}
             stats)
        emotion_keys []
  end.

Definition calculate_consistency (values : list Q) : Q :=
  if (List.length values <? 2)%nat then 0
  else
    let mean_val := py_sum values / py_len values in
    if Qeq_bool mean_val 0 then 0
    else
      let std_val := np_std np_sqrt values in
      let cv := std_val / mean_val in
      py_max 0 (1 - cv).

Definition calculate_head_stability (head_pose_timeline : list HeadPoseFrame) : Q :=
  match head_pose_timeline with
  | [] => 0
  | _ :: _ =>
      let pan_std := np_std np_sqrt (map hp_pan_angle head_pose_timeline) in
      let tilt_std := np_std np_sqrt (map hp_tilt_angle head_pose_timeline) in
      let roll_std := np_std np_sqrt (map hp_roll_angle head_pose_timeline) in
      let avg_std := (pan_std + tilt_std + roll_std) / 3 in
      py_max 0 (1 - avg_std / 30)
  end.

(** The two vision branches share their inputs: [download] is the outcome
    of fetching and opening the video ([_parse_gs_uri], the bucket
    download, [cv2.VideoCapture]), [face_detection] the outcome of the
    face detection call on one frame. *)
Variable Image : Type.
Variable face_detection : Image -> result (list FaceAnnotation).

Fixpoint emotion_loop (frames_data : list (FrameData Image))
    (emotion_timeline : list EmotionFrame) : result (list EmotionFrame) :=
  match frames_data with
  | [] => Ok emotion_timeline
  | frame_data :: rest =>
      faces <- face_detection (fd_image frame_data) ;;
      match faces with
      | [] => emotion_loop rest emotion_timeline
      | face :: _ =>
          emotion_loop rest
            (emotion_timeline ++
             [{| ef_timestamp := fd_timestamp frame_data;
                 ef_emotions := emotions_of face;
                 ef_detection_confidence := detection_confidence face |}])
      end
  end.

Definition analyze_facial_expressions (download : result (VideoCapture Image))
    : result FacialAnalysis :=
  cap <- download ;;
  frames_data <- extract_video_frames cap 1 ;;
  emotion_timeline <- emotion_loop frames_data [] ;;
  let emotion_stats := calculate_emotion_statistics emotion_timeline in
  Ok {| fa_emotion_timeline := emotion_timeline;
        fa_emotion_statistics := emotion_stats;
        fa_total_frames_analyzed := Z.of_nat (List.length emotion_timeline);
        fa_average_detection_confidence :=
          match emotion_timeline with
          | [] => 0
          | _ :: _ =>
              py_sum (map ef_detection_confidence emotion_timeline)
              / py_len emotion_timeline
          end |}.

Fixpoint head_pose_loop (frames_data : list (FrameData Image))
    (head_pose_timeline : list HeadPoseFrame) (eye_contact_estimates : list Q)
    : result (list HeadPoseFrame * list Q) :=
  match frames_data with
  | [] => Ok (head_pose_timeline, eye_contact_estimates)
  | frame_data :: rest =>
      faces <- face_detection (fd_image frame_data) ;;
      match faces with
      | [] => head_pose_loop rest head_pose_timeline eye_contact_estimates
      | face :: _ =>
          let eye_contact_score :=
            estimate_eye_contact (pan_angle face) (tilt_angle face)
                                 (roll_angle face) in
          head_pose_loop rest
            (head_pose_timeline ++
             [{| hp_timestamp := fd_timestamp frame_data;
                 hp_roll_angle := roll_angle face;
                 hp_pan_angle := pan_angle face;
                 hp_tilt_angle := tilt_angle face;
                 hp_eye_contact_score := eye_contact_score |}])
            (eye_contact_estimates ++ [eye_contact_score])
      end
  end.

Definition analyze_confidence_metrics (download : result (VideoCapture Image))
    : result ConfidenceAnalysis :=
  cap <- download ;;
  frames_data <- extract_video_frames cap 0.5 ;;
  tl <- head_pose_loop frames_data [] [] ;;
  let head_pose_timeline := fst tl in
  let eye_contact_estimates := snd tl in
  let avg_eye_contact :=
    match eye_contact_estimates with
    | [] => 0
    | _ :: _ => py_sum eye_contact_estimates / py_len eye_contact_estimates
    end in
  let eye_contact_consistency := calculate_consistency eye_contact_estimates in
  let head_stability := calculate_head_stability head_pose_timeline in
  Ok {| ca_head_pose_timeline := head_pose_timeline;
        ca_average_eye_contact_score := avg_eye_contact;
        ca_eye_contact_consistency := eye_contact_consistency;
        ca_head_stability_score := head_stability;
        ca_confidence_score :=
          calculate_confidence_score avg_eye_contact eye_contact_consistency
                                     head_stability |}.

End VisionStatistics.

Arguments emotion_loop {Image} face_detection frames_data emotion_timeline.
Arguments head_pose_loop {Image} face_detection frames_data head_pose_timeline
  eye_contact_estimates.
Arguments analyze_facial_expressions np_sqrt {Image} face_detection download.
Arguments analyze_confidence_metrics np_sqrt {Image} face_detection download.

(** ** Score aggregation *)

Record OverallScore : Type := {
  overall_score : Q;
  component_scores : dict Q;
  grade : string
}.

Definition score_to_grade (score : Q) : string :=
  (if Qle_bool 0.9 score then "A+"
   else if Qle_bool 0.85 score then "A"
   else if Qle_bool 0.8 score then "A-"
   else if Qle_bool 0.75 score then "B+"
   else if Qle_bool 0.7 score then "B"
   else if Qle_bool 0.65 score then "B-"
   else if Qle_bool 0.6 score then "C+"
   else if Qle_bool 0.55 score then "C"
   else if Qle_bool 0.5 score then "C-"
   else if Qle_bool 0.45 score then "D+"
   else if Qle_bool 0.4 score then "D"
   else "F")%string.

(** Each argument is a branch's dictionary: [Err e] is [{'error': ...}],
    in which none of the tested keys occurs. *)
Definition calculate_overall_score
    (speech_analysis : result SpeechAnalysis)
    (facial_analysis : result FacialAnalysis)
    (confidence_analysis : result ConfidenceAnalysis) : OverallScore :=
  let scores : dict Q := [] in
  let scores :=
    match speech_analysis with
    | Ok sa => dict_set "speech_clarity" (sa_clarity_score sa) scores
    | Err _ => scores
    end in
  let scores :=
    match facial_analysis with
    | Ok fa =>
        match dict_get "joy" (fa_emotion_statistics fa) with
        | Some joy_stats => dict_set "positivity" (es_average joy_stats) scores
        | None => scores
        end
    | Err _ => scores
    end in
  let scores :=
    match confidence_analysis with
    | Ok ca => dict_set "confidence" (ca_confidence_score ca) scores
    | Err _ => scores
    end in
  match scores with
  | [] => {| overall_score := 0; component_scores := []; grade := "F" |}
  | _ :: _ =>
      let overall := py_sum (dict_values scores) / py_len scores in
      {| overall_score := overall;
         component_scores := scores;
         grade := score_to_grade overall |}
  end.

(** ** The pipeline *)

Record ComprehensiveAnalysis : Type := {
  speech_analysis : result SpeechAnalysis;
  facial_analysis : result FacialAnalysis;
  confidence_analysis : result ConfidenceAnalysis;
  overall : OverallScore
}.

(** The three branches are run by a pool of three workers and joined; each
    is a function of its own inputs, so the joined value is the triple of
    their results.  The [video_uri] and [timestamp] entries of the report
    are left out. *)
Definition analyze_video_comprehensive (np_sqrt : Q -> Q) {Image : Type}
    (recognize : result (list SpeechResult))
    (download : result (VideoCapture Image))
    (face_detection : Image -> result (list FaceAnnotation))
    : ComprehensiveAnalysis :=
  let speech := analyze_speech np_sqrt FILLER_WORDS recognize in
  let facial := analyze_facial_expressions np_sqrt face_detection download in
  let confidence := analyze_confidence_metrics np_sqrt face_detection download in
  {| speech_analysis := speech;
     facial_analysis := facial;
     confidence_analysis := confidence;
     overall := calculate_overall_score speech facial confidence |}.

(** ** The transcript-based filler counter of [cloud-function-analysis]

    [count_filler_words] counts, for each filler, the matches of the
    pattern [\b filler \b] that [re.findall] finds in the transcript:
    scanning from the left, a match consumes its characters. *)

Definition is_word_char (c : ascii) : bool :=
  let n := nat_of_ascii c in
  (((48 <=? n) && (n <=? 57)) || ((65 <=? n) && (n <=? 90))
   || ((97 <=? n) && (n <=? 122)) || (n =? 95))%nat.

Definition is_word_opt (c : option ascii) : bool :=
  match c with Some a => is_word_char a | None => false end.

(** [\b] between two neighbouring positions. *)
Definition word_boundary (prev next : option ascii) : bool :=
  xorb (is_word_opt prev) (is_word_opt next).

(** The literal [pat] at the head of [s]: the text after it. *)
Fixpoint match_literal (pat s : list ascii) : option (list ascii) :=
  match pat, s with
  | [], _ => Some s
  | _ :: _, [] => None
  | p :: pat', c :: s' => if Ascii.eqb p c then match_literal pat' s' else None
  end.

Definition matches_at (pat : list ascii) (prev : option ascii) (s : list ascii)
    : bool :=
  match match_literal pat s with
  | Some rest =>
      word_boundary prev (hd_error s)
      && word_boundary (hd_error (rev pat)) (hd_error rest)
  | None => false
  end.

(** [len(re.findall(pattern, s))] for a non-empty literal between two [\b];
    [skip] counts the characters of the last match still to be consumed. *)
Fixpoint findall_count (pat : list ascii) (prev : option ascii)
    (s : list ascii) (skip : nat) : nat :=
  match s with
  | [] => 0
  | c :: rest =>
      match skip with
      | S k => findall_count pat (Some c) rest k
      | O =>
          if matches_at pat prev s
          then S (findall_count pat (Some c) rest (List.length pat - 1))
          else findall_count pat (Some c) rest 0
      end
  end.

Definition count_filler_words (transcript : string) (filler_words : list string)
    : nat :=
  fold_left
    (fun count filler =>
       (count + findall_count (list_ascii_of_string filler) None
                  (list_ascii_of_string transcript) 0)%nat)
    filler_words 0%nat.

(** ** The specification's wording, for comparison *)

(** [round(x)]: the nearest integer, a tie going to the even one. *)
Definition round_nearest (x : Q) : Z :=
  let f := Qfloor x in
  let r := x - inject_Z f in
  if Qltb r (1 # 2) then f
  else if Qltb (1 # 2) r then (f + 1)%Z
  else if Z.even f then f else (f + 1)%Z.

(** The component scores that are present, in the aggregator's order. *)
Definition speech_component (s : result SpeechAnalysis) : option Q :=
  match s with Ok sa => Some (sa_clarity_score sa) | Err _ => None end.

Definition facial_component (f : result FacialAnalysis) : option Q :=
  match f with
  | Ok fa => option_map es_average (dict_get "joy" (fa_emotion_statistics fa))
  | Err _ => None
  end.

Definition confidence_component (c : result ConfidenceAnalysis) : option Q :=
  match c with Ok ca => Some (ca_confidence_score ca) | Err _ => None end.

Definition present_scores (components : list (option Q)) : list Q :=
  flat_map (fun o => match o with Some v => [v] | None => [] end) components.

Definition arithmetic_mean (values : list Q) : Q :=
  match values with
  | [] => 0
  | _ :: _ => fold_right Qplus 0 values / inject_Z (Z.of_nat (List.length values))
  end.

(** The timed words of a response, in order: those of the first
    alternative of each result. *)
Definition recognized_words (response : list SpeechResult) : list WordInfo :=
  flat_map (fun r => match alternatives r with
                     | [] => []
                     | alternative :: _ => alt_words alternative
                     end) response.

Definition first_transcripts (response : list SpeechResult) : list string :=
  flat_map (fun r => match alternatives r with
                     | [] => []
                     | alternative :: _ => [alt_transcript alternative]
                     end) response.

Definition has_alternative (r : SpeechResult) : bool :=
  match alternatives r with [] => false | _ :: _ => true end.

Definition timestamp_of (word_info : WordInfo) : WordTimestamp :=
  {| word := normalize_word (wi_word word_info);
     start_time := wi_start_time word_info;
     end_time := wi_end_time word_info;
     duration := wi_end_time word_info - wi_start_time word_info |}.

(** A recognized word counts as a filler when, lowered and stripped of
    surrounding [.,!?], it is a member of the filler list. *)
Definition is_filler (filler_words : list string) (word_info : WordInfo) : bool :=
  str_in (normalize_word (wi_word word_info)) filler_words.

Definition count_fillers (filler_words : list string) (words : list WordInfo) : Z :=
  Z.of_nat (List.length (filter (is_filler filler_words) words)).

Definition null_word : WordTimestamp :=
  {| word := EmptyString; start_time := 0; end_time := 0; duration := 0 |}.

(** Words per minute of the ten words starting at position [i]: from the
    start of word [i] to the end of word [i + 9]. *)
Definition window_wpm_at (wts : list WordTimestamp) (i : nat) : Q :=
  let d := end_time (nth (i + 9) wts null_word) - start_time (nth i wts null_word) in
  if Qlt_le_dec 0 d then (10 / d) * 60 else 0.

(** The frame numbers of a source of [n] frames starting at [first]. *)
Definition frame_numbers (first : Z) (n : nat) : list Z :=
  map (fun k => (first + Z.of_nat k)%Z) (seq 0 n).

(** Every frame whose number is a multiple of the stride, in frame order,
    stamped with its number divided by the frame rate. *)
Definition sampled_frames {Image : Type} (fps : Q) (stride : Z)
    (source : list Image) (first : Z) : list (FrameData Image) :=
  map (fun p => {| fd_timestamp := inject_Z (snd p) / fps;
                   fd_image := fst p;
                   fd_frame_number := snd p |})
      (filter (fun p => (snd p mod stride =? 0)%Z)
              (combine source (frame_numbers first (List.length source)))).

(** ** Storage references: [_parse_gs_uri] *)

(** [s.split(sep, 1)]: the text before the first [sep], and the text after
    it when there is one. *)
Fixpoint split_once (sep : ascii) (s : string) : string * option string :=
  match s with
  | EmptyString => (EmptyString, None)
  | String c rest =>
      if Ascii.eqb c sep then (EmptyString, Some rest)
      else let (before, after) := split_once sep rest in (String c before, after)
  end.

(** [s[n:]] *)
Fixpoint drop_chars (n : nat) (s : string) : string :=
  match n, s with
  | O, _ => s
  | S n', EmptyString => EmptyString
  | S n', String _ rest => drop_chars n' rest
  end.

(** [(bucket, object_name)] of [gs://bucket/path/to/object]; [ValueError]
    for an empty reference or one without the scheme. *)
Definition _parse_gs_uri (gs_uri : string) : result (string * string) :=
  if (String.eqb gs_uri EmptyString || negb (String.prefix "gs://" gs_uri))%bool
  then Err ValueError
  else
    let without_scheme := drop_chars (String.length "gs://") gs_uri in
    match split_once "/" without_scheme with
    | (bucket, None) => Ok (bucket, EmptyString)
    | (bucket, Some object_name) => Ok (bucket, object_name)
    end.

(** ** The HTTP entry point: [analyze_video] *)

(** A parsed JSON body. *)
#[warnings="-register-all"] Inductive json : Type :=
| JNull
| JBool (b : bool)
| JNum (x : Q)
| JStr (s : string)
| JArr (items : list json)
| JObj (members : list (string * json)).

(** Python truth value of a parsed body or of a member. *)
Definition truthy (v : json) : bool :=
  match v with
  | JNull => false
  | JBool b => b
  | JNum x => negb (Qeq_bool x 0)
  | JStr s => negb (String.eqb s EmptyString)
  | JArr items => match items with [] => false | _ :: _ => true end
  | JObj members => match members with [] => false | _ :: _ => true end
  end.

(** What the handler reads of a request: the method and the outcome of
    [get_json(silent=True)], [None] for a missing or malformed body. *)
Record Request : Type := {
  req_method : string;
  req_json : option json
}.

(** What an [except Exception] of the handler catches. *)
Inductive handler_exn : Type :=
| AttributeError
| AnalysisError (e : exn).

Inductive response_body (Report : Type) : Type :=
| EmptyBody
| ErrorBody (msg : string)
| ExceptionBody (e : handler_exn)
| ReportBody (report : Report).

Arguments EmptyBody {Report}.
Arguments ErrorBody {Report} msg.
Arguments ExceptionBody {Report} e.
Arguments ReportBody {Report} report.

Section Handler.

(** The analysis of a video reference followed by [json.dumps]: the
    serialized report, or the exception raised on the way. *)
Variable Report : Type.
Variable run_analysis : json -> result Report.

(** [request_json.get('videoUri')]: only a JSON object has [get]; a
    missing key gives [None]. *)
Definition get_video_uri (request_json : json) : handler_exn + json :=
  match request_json with
  | JObj members =>
      match dict_get "videoUri" members with
      | Some v => inr v
      | None => inr JNull
      end
  | _ => inl AttributeError
  end.

Definition analyze_video (request : Request) : response_body Report * Z :=
  if String.eqb (req_method request) "OPTIONS" then (EmptyBody, 204%Z)
  else if negb (String.eqb (req_method request) "POST")
  then (ErrorBody "Only POST method allowed", 405%Z)
  else
    let request_json :=
      match req_json request with Some v => v | None => JNull end in
    if negb (truthy request_json)
    then (ErrorBody "No JSON body provided", 400%Z)
    else
      match get_video_uri request_json with
      | inl e => (ExceptionBody e, 500%Z)
      | inr video_uri =>
          if negb (truthy video_uri)
          then (ErrorBody "videoUri is required", 400%Z)
          else
            match run_analysis video_uri with
            | Ok report => (ReportBody report, 200%Z)
            | Err e => (ExceptionBody (AnalysisError e), 500%Z)
            end
      end.

End Handler.

Arguments analyze_video {Report} run_analysis request.

(** ** Orderings used to state the properties *)

(** The letter grades from worst to best. *)
Definition grade_rank (g : string) : nat :=
  (if String.eqb g "A+" then 11
   else if String.eqb g "A" then 10
   else if String.eqb g "A-" then 9
   else if String.eqb g "B+" then 8
   else if String.eqb g "B" then 7
   else if String.eqb g "B-" then 6
   else if String.eqb g "C+" then 5
   else if String.eqb g "C" then 4
   else if String.eqb g "C-" then 3
   else if String.eqb g "D+" then 2
   else if String.eqb g "D" then 1
   else 0)%nat.

(** The face, if any, that the vision branches read from a frame. *)
Definition first_face (faces : list FaceAnnotation) : option FaceAnnotation :=
  match faces with [] => None | face :: _ => Some face end.

(** The timeline entries that the two vision branches build from a frame
    and the face read from it. *)
Definition emotion_frame_of {Image : Type} (frame_data : FrameData Image)
    (face : FaceAnnotation) : EmotionFrame :=
  {| ef_timestamp := fd_timestamp frame_data;
     ef_emotions := emotions_of face;
     ef_detection_confidence := detection_confidence face |}.

Definition head_pose_frame_of {Image : Type} (frame_data : FrameData Image)
    (face : FaceAnnotation) : HeadPoseFrame :=
  {| hp_timestamp := fd_timestamp frame_data;
     hp_roll_angle := roll_angle face;
     hp_pan_angle := pan_angle face;
     hp_tilt_angle := tilt_angle face;
     hp_eye_contact_score :=
       estimate_eye_contact (pan_angle face) (tilt_angle face) (roll_angle face) |}.

(** The sampled frames paired with the first face detected in them, frames
    without a face or with a failed detection left out. *)
Definition frames_with_face {Image : Type}
    (face_detection : Image -> result (list FaceAnnotation))
    (frames_data : list (FrameData Image)) : list (FrameData Image * FaceAnnotation) :=
  flat_map (fun frame_data =>
              match face_detection (fd_image frame_data) with
              | Ok (face :: _) => [(frame_data, face)]
              | _ => []
              end) frames_data.

(** The first exception that face detection raises on the frames. *)
Fixpoint first_detection_error {Image : Type}
    (face_detection : Image -> result (list FaceAnnotation))
    (frames_data : list (FrameData Image)) : option exn :=
  match frames_data with
  | [] => None
  | frame_data :: rest =>
      match face_detection (fd_image frame_data) with
      | Err e => Some e
      | Ok _ => first_detection_error face_detection rest
      end
  end.

(** The key of a component score, when the component is present. *)
Definition key_if {A : Type} (key : string) (component : option A) : list string :=
  match component with Some _ => [key] | None => [] end.

(** A non-empty run of word characters. *)
Definition plain_word (w : string) : bool :=
  (negb (String.eqb w EmptyString)
   && forallb is_word_char (list_ascii_of_string w))%bool.

(** The character before the position reached after reading [u]. *)
Fixpoint last_read (prev : option ascii) (u : list ascii) : option ascii :=
  match u with
  | [] => prev
  | c :: u' => last_read (Some c) u'
  end.

(** Words separated by single spaces, as a list of characters. *)
Fixpoint spaced (words : list (list ascii)) : list ascii :=
  match words with
  | [] => []
  | [w] => w
  | w :: rest => w ++ " "%char :: spaced rest
  end.

(** The number of times [first] is directly followed by [second] in a
    sequence, an occurrence using up both of its elements. *)
Fixpoint count_adjacent {A : Type} (eqb : A -> A -> bool) (first second : A)
    (l : list A) : nat :=
  match l with
  | [] => 0
  | a :: rest =>
      match rest with
      | [] => 0
      | b :: rest' =>
          if (eqb a first && eqb b second)%bool
          then S (count_adjacent eqb first second rest')
          else count_adjacent eqb first second rest
      end
  end.

Definition list_ascii_eqb (u v : list ascii) : bool :=
  if list_eq_dec ascii_dec u v then true else false.

(** The one-word entries of [FILLER_WORDS]: all but "you know". *)
Definition one_word_fillers : list string := filter plain_word FILLER_WORDS.

(** ** The upload entry point: [generate_upload_url] of [cloud-function] *)

Record UploadGrant : Type := {
  ug_signedUrl : string;
  ug_filename : json;
  ug_contentType : string;
  ug_bucket : string;
  ug_method : string
}.

Section UploadHandler.

(** The module-level bucket name, and the two steps that reach outside:
    creating the storage client, bucket and blob for the file name, and
    obtaining the default credentials. *)
Variable BUCKET_NAME : string.
Variable connect_storage : json -> result unit.
Variable default_credentials : result unit.

(** [request_json.get(key)] on a parsed body. *)
Definition json_get (key : string) (request_json : json) : handler_exn + json :=
  match request_json with
  | JObj members =>
      match dict_get key members with
      | Some v => inr v
      | None => inr JNull
      end
  | _ => inl AttributeError
  end.

Definition generate_upload_url (request : Request)
    : response_body UploadGrant * Z :=
  if String.eqb (req_method request) "OPTIONS" then (EmptyBody, 204%Z)
  else if negb (String.eqb (req_method request) "POST")
  then (ErrorBody "Only POST method is allowed", 405%Z)
  else
    let request_json :=
      match req_json request with Some v => v | None => JNull end in
    if negb (truthy request_json)
    then (ErrorBody "Invalid JSON in request body", 400%Z)
    else
      match json_get "filename" request_json, json_get "contentType" request_json with
      | inl _, _ | _, inl _ => (ErrorBody "Internal server error", 500%Z)
      | inr filename, inr content_type =>
          if negb (truthy filename)
          then (ErrorBody "filename is required", 400%Z)
          else if negb (truthy content_type)
          then (ErrorBody "contentType is required", 400%Z)
          else
            match content_type with
            | JStr ct =>
                if negb (String.prefix "video/" ct)
                then (ErrorBody "Only video files are allowed", 400%Z)
                else
                  match connect_storage filename with
                  | Err _ =>
                      (ErrorBody "Failed to connect to storage service", 500%Z)
                  | Ok _ =>
                      match default_credentials with
                      | Err _ =>
                          (ErrorBody "Failed to generate upload URL", 500%Z)
                      | Ok _ =>
                          (ReportBody
                             {| ug_signedUrl :=
                                  "https://storage.googleapis.com/upload/storage/v1/b/"
                                  ++ BUCKET_NAME ++ "/o";
                                ug_filename := filename;
                                ug_contentType := ct;
                                ug_bucket := BUCKET_NAME;
                                ug_method := "POST" |}, 200%Z)
                      end
                  end
            | _ => (ErrorBody "Internal server error", 500%Z)
            end
      end.

End UploadHandler.

(** ** Binary floating point *)

(** Python's [float] is IEEE 754 binary64.  [SpecFloat] is the Standard
    Library's executable definition of IEEE 754 arithmetic with rounding
    to nearest, ties to even; binary64 is its instance at precision 53 and
    exponent bound 1024. *)
Module Binary64.

Definition float : Set := SpecFloat.spec_float.

Definition prec : Z := 53.
Definition emax : Z := 1024.

(** An integer literal, or [float(z)]. *)
Definition of_Z (z : Z) : float := SpecFloat.binary_normalize prec emax z 0 false.

Definition add : float -> float -> float := SpecFloat.SFadd prec emax.
Definition sub : float -> float -> float := SpecFloat.SFsub prec emax.
Definition mul : float -> float -> float := SpecFloat.SFmul prec emax.
Definition div : float -> float -> float := SpecFloat.SFdiv prec emax.
Definition abs : float -> float := SpecFloat.SFabs.
Definition ltb : float -> float -> bool := SpecFloat.SFltb.
Definition eqb : float -> float -> bool := SpecFloat.SFeqb.

(** The decimal literal [n e-k], for [n] and [10^k] below [2^53]: both are
    binary64 numbers, and their correctly rounded quotient is the binary64
    number nearest to the decimal, which is what the literal denotes. *)
Definition decimal (n : Z) (k : Z) : float := div (of_Z n) (of_Z (10 ^ k)).

(** [max(a, b)] returns [b] when [a < b] and [a] otherwise. *)
Definition py_max (a b : float) : float := if ltb a b then b else a.

(** [estimate_eye_contact], lines 339-358, operation by operation. *)
Definition estimate_eye_contact (pan_angle tilt_angle roll_angle : float) : float :=
  let ideal_pan := of_Z 0 in
  let ideal_tilt := of_Z 0 in
  let ideal_roll := of_Z 0 in
  let pan_deviation := abs (sub pan_angle ideal_pan) in
  let tilt_deviation := abs (sub tilt_angle ideal_tilt) in
  let roll_deviation := abs (sub roll_angle ideal_roll) in
  let weighted_deviation :=
    add (add (mul pan_deviation (decimal 6 1)) (mul tilt_deviation (decimal 3 1)))
        (mul roll_deviation (decimal 1 1)) in
  let max_acceptable_deviation := of_Z 30 in
  py_max (of_Z 0) (sub (of_Z 1) (div weighted_deviation max_acceptable_deviation)).

End Binary64.

(** ** Sample inputs *)

(** A square root on rationals for running the definitions: exact on the
    squares of rationals, rounded down on the numerator otherwise. *)
Definition isqrt_Q (q : Q) : Q :=
  Z.sqrt (Qnum q * Zpos (Qden q)) # Qden q.

Definition word_info (w : string) (s e : Q) : WordInfo :=
  {| wi_word := w; wi_start_time := s; wi_end_time := e |}.

(** A response with one result whose single alternative carries the given
    transcript and words. *)
Definition single_result (transcript : string) (words : list WordInfo)
    : list SpeechResult :=
  [{| alternatives := [{| alt_transcript := transcript; alt_words := words |}] |}].

(** [n] words of half a second each, spoken back to back from time 0. *)
Definition steady_words (n : nat) : list WordTimestamp :=
  map (fun i => {| word := "word";
                   start_time := inject_Z (Z.of_nat i) / 2;
                   end_time := inject_Z (Z.of_nat i + 1) / 2;
                   duration := 0.5 |})
      (seq 0 n).

(** One recognized word, spoken from 0 s to 0.5 s. *)
Definition one_word_response : list SpeechResult :=
  single_result "Hello." [word_info "Hello." 0 0.5].

(** Words of half a second each, spoken back to back from time 0. *)
Fixpoint timed_words (start : Q) (words : list string) : list WordInfo :=
  match words with
  | [] => []
  | w :: rest => word_info w start (start + 0.5) :: timed_words (start + 0.5) rest
  end.

(** The scenario transcript, recognized word by word. *)
Definition scenario_response : list SpeechResult :=
  single_result "um so I think uh I did well"
    (timed_words 0 ["um"; "so"; "I"; "think"; "uh"; "I"; "did"; "well"]%string).

Definition liked_response : list SpeechResult :=
  single_result "I liked it" (timed_words 0 ["I"; "liked"; "it"]%string).

(** A hyphenated compound is recognized as one word. *)
Definition hyphen_response : list SpeechResult :=
  single_result "A so-called fix."
    (timed_words 0 ["A"; "so-called"; "fix."]%string).

(** The two-word filler of the list, recognized as two words. *)
Definition you_know_response : list SpeechResult :=
  single_result "You know." (timed_words 0 ["You"; "know."]%string).

(** Forty frames at the NTSC rate of 29.97 frames per second; a frame is
    represented by its number. *)
Definition ntsc_clip : VideoCapture nat :=
  {| cap_fps := 29.97; cap_frames := seq 0 40 |}.

(** Two frames at one frame per second. *)
Definition slow_clip : VideoCapture nat :=
  {| cap_fps := 1; cap_frames := [0; 1]%nat |}.

(** A face that is likely joyful and very unlikely anything else, turned
    slightly away from the camera. *)
Definition joyful_face : FaceAnnotation :=
  {| joy_likelihood := 4; sorrow_likelihood := 1; anger_likelihood := 1;
     surprise_likelihood := 2; under_exposed_likelihood := 1;
     blurred_likelihood := 1; headwear_likelihood := 5;
     detection_confidence := 0.9;
     roll_angle := 1; pan_angle := 5; tilt_angle := -2 |}.

Definition neutral_face : FaceAnnotation :=
  {| joy_likelihood := 2; sorrow_likelihood := 1; anger_likelihood := 1;
     surprise_likelihood := 1; under_exposed_likelihood := 1;
     blurred_likelihood := 1; headwear_likelihood := 5;
     detection_confidence := 0.8;
     roll_angle := 0; pan_angle := 0; tilt_angle := 0 |}.

(** A timeline of two frames, one second apart. *)
Definition two_frame_timeline : list EmotionFrame :=
  [{| ef_timestamp := 0; ef_emotions := emotions_of joyful_face;
      ef_detection_confidence := 0.9 |};
   {| ef_timestamp := 1; ef_emotions := emotions_of neutral_face;
      ef_detection_confidence := 0.8 |}].

(** Face detection that sees the joyful face in even frames and no face in
    odd frames. *)
Definition detect_even (image : nat) : result (list FaceAnnotation) :=
  Ok (if Nat.even image then [joyful_face] else []).

(** Four frames at two frames per second. *)
Definition short_clip : VideoCapture nat :=
  {| cap_fps := 2; cap_frames := seq 0 4 |}.

(** Face detection that always sees the neutral face, looking straight at
    the camera. *)
Definition detect_neutral (image : nat) : result (list FaceAnnotation) :=
  Ok [neutral_face].

(** The frames at 0 s and 0.5 s of the short clip. *)
Definition joyful_face_frame : FrameData nat :=
  {| fd_timestamp := 0; fd_image := 0%nat; fd_frame_number := 0 |}.

Definition neutral_face_frame : FrameData nat :=
  {| fd_timestamp := 0.5; fd_image := 1%nat; fd_frame_number := 1 |}.

(** An analysis stand-in for running the handler: it reports the reference
    it was given, and fails on anything but a string. *)
Definition echo_analysis (video_uri : json) : result string :=
  match video_uri with
  | JStr s => Ok s
  | _ => Err ValueError
  end.

Definition post_request (body : json) : Request :=
  {| req_method := "POST"; req_json := Some body |}.

(** Lower-case words with the matching transcript, "you" once directly
    followed by "know". *)
Definition clean_response : list SpeechResult :=
  single_result "so you know i um know you"
    (timed_words 0 ["so"; "you"; "know"; "i"; "um"; "know"; "you"]%string).

(** A pan angle of 1e-15 degrees, as a binary64 number. *)
Definition slight_pan : Binary64.float := Binary64.decimal 1 15.

(** * Properties *)

(** ** Comparisons, [max] and [min] *)

Lemma Qltb_true (a b : Q) : Qltb a b = true <-> a < b.
Proof.
  unfold Qltb. rewrite negb_true_iff.
  destruct (Qle_bool b a) eqn:E.
  - apply Qle_bool_iff in E. split; [discriminate | intro H; lra].
  - split; [intros _ | reflexivity].
    apply Qnot_le_lt. intro H. apply Qle_bool_iff in H. congruence.
Qed.

Lemma Qltb_false (a b : Q) : Qltb a b = false <-> b <= a.
Proof.
  destruct (Qltb a b) eqn:E.
  - apply Qltb_true in E. split; [discriminate | intro; lra].
  - split; [intros _ | reflexivity].
    apply Qnot_lt_le. intro H. apply Qltb_true in H. congruence.
Qed.

Lemma py_max_cases (a b : Q) :
  (a < b /\ py_max a b = b) \/ (b <= a /\ py_max a b = a).
Proof.
  unfold py_max. destruct (Qltb a b) eqn:E.
  - left. split; [now apply Qltb_true | reflexivity].
  - right. split; [now apply Qltb_false | reflexivity].
Qed.

Lemma py_min_cases (a b : Q) :
  (b < a /\ py_min a b = b) \/ (a <= b /\ py_min a b = a).
Proof.
  unfold py_min. destruct (Qltb b a) eqn:E.
  - left. split; [now apply Qltb_true | reflexivity].
  - right. split; [now apply Qltb_false | reflexivity].
Qed.

Lemma py_max_Qmax (a b : Q) : py_max a b == Qmax a b.
Proof.
  destruct (py_max_cases a b) as [[H ->] | [H ->]];
    destruct (Q.max_spec a b) as [[H' ->] | [H' ->]]; lra.
Qed.

Lemma py_min_Qmin (a b : Q) : py_min a b == Qmin a b.
Proof.
  destruct (py_min_cases a b) as [[H ->] | [H ->]];
    destruct (Q.min_spec a b) as [[H' ->] | [H' ->]]; lra.
Qed.

#[global] Instance py_max_proper : Proper (Qeq ==> Qeq ==> Qeq) py_max.
Proof.
  intros a a' Ha b b' Hb. rewrite !py_max_Qmax. now rewrite Ha, Hb.
Qed.

#[global] Instance py_min_proper : Proper (Qeq ==> Qeq ==> Qeq) py_min.
Proof.
  intros a a' Ha b b' Hb. rewrite !py_min_Qmin. now rewrite Ha, Hb.
Qed.

(** Division by the constants of the scoring formulas, as a product. *)
Ltac div_consts :=
  unfold Qdiv in *;
  change (/ 100) with (1 # 100) in *; change (/ 20) with (1 # 20) in *;
  change (/ 30) with (1 # 30) in *; change (/ 3) with (1 # 3) in *.

(** Case analysis on every [py_max], [py_min] and [Qabs] of the goal. *)
Ltac split_clamps :=
  repeat match goal with
  | |- context [py_max ?a ?b] =>
      let H := fresh "Hmax" in
      destruct (py_max_cases a b) as [[H ->] | [H ->]]
  | |- context [py_min ?a ?b] =>
      let H := fresh "Hmin" in
      destruct (py_min_cases a b) as [[H ->] | [H ->]]
  end.

Lemma Qabs_cases (x : Q) : (0 <= x /\ Qabs x == x) \/ (x <= 0 /\ Qabs x == - x).
Proof.
  destruct (Qlt_le_dec x 0) as [H | H].
  - right. split; [lra | apply Qabs_neg; lra].
  - left. split; [exact H | now apply Qabs_pos].
Qed.

(** ** Clarity score *)

Section Clarity.

Variables filler_percentage words_per_minute : Q.

Let wpm_score := py_max 0 (1 - Qabs (words_per_minute - 155) / 100).
Let filler_score := py_max 0 (1 - filler_percentage / 20).

Lemma wpm_score_range : 0 <= wpm_score <= 1.
Proof.
  unfold wpm_score.
  pose proof (Qabs_nonneg (words_per_minute - 155)) as Habs.
  split_clamps; div_consts; lra.
Qed.

Lemma filler_score_nonneg : 0 <= filler_score.
Proof. unfold filler_score. split_clamps; lra. Qed.

Lemma filler_score_le_1 : 0 <= filler_percentage -> filler_score <= 1.
Proof. unfold filler_score. intro H. split_clamps; div_consts; lra. Qed.

Lemma clarity_score_clamped :
  calculate_clarity_score filler_percentage words_per_minute
  == py_min 1 (0.6 * wpm_score + 0.4 * filler_score).
Proof.
  unfold calculate_clarity_score. fold wpm_score. fold filler_score.
  pose proof wpm_score_range. pose proof filler_score_nonneg.
  split_clamps; lra.
Qed.

End Clarity.

Lemma clarity_at_ideal_wpm (fp : Q) :
  calculate_clarity_score fp 155 == py_min 1 (0.6 + 0.4 * py_max 0 (1 - fp / 20)).
Proof.
  rewrite clarity_score_clamped.
  assert (E : py_max 0 (1 - Qabs (155 - 155) / 100) == 1).
  { reflexivity. }
  rewrite E. apply py_min_proper; [reflexivity | lra].
Qed.

(** C5 (as stated, refuted).  With the speaking rate at 155 words per
    minute, raising the filler percentage from 20 to 40 leaves the clarity
    score at 0.6: it does not strictly decrease. *)
Lemma clarity_not_strictly_decreasing :
  20 < 40 /\
  calculate_clarity_score 20 155 == 0.6 /\
  calculate_clarity_score 40 155 == 0.6 /\
  ~ calculate_clarity_score 40 155 < calculate_clarity_score 20 155.
Proof.
  split; [reflexivity|]. split; [reflexivity|]. split; [reflexivity|].
  vm_compute. discriminate.
Qed.

(** C5 (amended).  The clarity score is
    0.6 * wpm_score + 0.4 * filler_score capped at 1, with
    wpm_score = max(0, 1 - |wpm - 155| / 100) and
    filler_score = max(0, 1 - filler_percentage / 20); the cap is inactive
    for a non-negative filler percentage.  The score lies in [0,1].  With
    the speaking rate fixed at 155 it never increases with the filler
    percentage, and from 20 percent of fillers on it stays at 0.6. *)
Theorem clarity_score_formula_range_monotone (fp fp' wpm : Q) :
  let wpm_score := Qmax 0 (1 - Qabs (wpm - 155) / 100) in
  let filler_score := Qmax 0 (1 - fp / 20) in
  calculate_clarity_score fp wpm
    == Qmin 1 (0.6 * wpm_score + 0.4 * filler_score) /\
  (0 <= fp ->
   calculate_clarity_score fp wpm == 0.6 * wpm_score + 0.4 * filler_score) /\
  0 <= calculate_clarity_score fp wpm <= 1 /\
  (fp <= fp' ->
   calculate_clarity_score fp' 155 <= calculate_clarity_score fp 155) /\
  (20 <= fp -> calculate_clarity_score fp 155 == 0.6).
Proof.
  intros wpm_score filler_score.
  assert (Hw : wpm_score == py_max 0 (1 - Qabs (wpm - 155) / 100))
    by (symmetry; apply py_max_Qmax).
  assert (Hf : filler_score == py_max 0 (1 - fp / 20))
    by (symmetry; apply py_max_Qmax).
  pose proof (wpm_score_range wpm) as Rw.
  pose proof (filler_score_nonneg fp) as Rf.
  pose proof (clarity_score_clamped fp wpm) as Hc.
  rewrite <- Hw, <- Hf in Hc. rewrite <- Hw in Rw. rewrite <- Hf in Rf.
  repeat split.
  - rewrite Hc. apply py_min_Qmin.
  - intro Hfp. pose proof (filler_score_le_1 fp Hfp) as Rf1.
    rewrite <- Hf in Rf1. rewrite Hc.
    destruct (py_min_cases 1 (0.6 * wpm_score + 0.4 * filler_score))
      as [[H ->] | [H ->]]; lra.
  - rewrite Hc.
    destruct (py_min_cases 1 (0.6 * wpm_score + 0.4 * filler_score))
      as [[H ->] | [H ->]]; lra.
  - rewrite Hc.
    destruct (py_min_cases 1 (0.6 * wpm_score + 0.4 * filler_score))
      as [[H ->] | [H ->]]; lra.
  - intro Hle. rewrite !clarity_at_ideal_wpm.
    split_clamps; div_consts; lra.
  - intro H20. rewrite clarity_at_ideal_wpm.
    split_clamps; div_consts; lra.
Qed.

(** The amended C5 at work: 10% of fillers scores no higher than 5%, 5%
    scores by the uncapped formula, and 25% of fillers scores 0.6. *)
Lemma clarity_score_witness :
  calculate_clarity_score 10 155 <= calculate_clarity_score 5 155 /\
  calculate_clarity_score 5 155 == 0.6 * Qmax 0 (1 - Qabs (155 - 155) / 100)
                                  + 0.4 * Qmax 0 (1 - 5 / 20) /\
  calculate_clarity_score 25 155 == 0.6.
Proof.
  pose proof (clarity_score_formula_range_monotone 5 10 155)
    as (_ & Hformula & _ & Hmono & _).
  pose proof (clarity_score_formula_range_monotone 25 25 155)
    as (_ & _ & _ & _ & Hflat).
  split; [| split].
  - apply Hmono. discriminate.
  - apply Hformula. discriminate.
  - apply Hflat. discriminate.
Defined.

(** ** Eye contact *)

Lemma Qabs_zero_iff (x : Q) : Qabs x == 0 <-> x == 0.
Proof.
  destruct (Qabs_cases x) as [[H E] | [H E]]; rewrite E; split; intro; lra.
Qed.

(** The decimal constants of [estimate_eye_contact] and the sample angle
    are the binary64 numbers that Python prints as [float.hex]:
    0x1.3333333333333p-1, 0x1.3333333333333p-2, 0x1.999999999999ap-4 and
    0x1.203af9ee75616p-50. *)
Lemma binary64_literals :
  Binary64.decimal 6 1 = SpecFloat.S754_finite false 0x13333333333333 (-53) /\
  Binary64.decimal 3 1 = SpecFloat.S754_finite false 0x13333333333333 (-54) /\
  Binary64.decimal 1 1 = SpecFloat.S754_finite false 0x1999999999999a (-56) /\
  slight_pan = SpecFloat.S754_finite false 0x1203af9ee75616 (-102).
Proof. repeat split; vm_compute; reflexivity. Qed.

(** C6 (as stated, refuted).  In binary64 arithmetic a head panned by
    1e-15 degrees, with tilt and roll 0, scores exactly 1.0 although the
    pan angle is not 0: the score 1.0 is not reserved to
    pan = tilt = roll = 0. *)
Lemma eye_contact_one_off_axis :
  Binary64.eqb slight_pan (Binary64.of_Z 0) = false /\
  Binary64.eqb
    (Binary64.estimate_eye_contact slight_pan (Binary64.of_Z 0) (Binary64.of_Z 0))
    (Binary64.of_Z 1) = true.
Proof. split; vm_compute; reflexivity. Qed.

(** In binary64 arithmetic too, a head facing the camera scores 1.0 and a
    head turned 50 degrees sideways scores 0.0. *)
Remark eye_contact_binary64_values :
  Binary64.eqb
    (Binary64.estimate_eye_contact (Binary64.of_Z 0) (Binary64.of_Z 0) (Binary64.of_Z 0))
    (Binary64.of_Z 1) = true /\
  Binary64.eqb
    (Binary64.estimate_eye_contact (Binary64.of_Z 50) (Binary64.of_Z 0) (Binary64.of_Z 0))
    (Binary64.of_Z 0) = true.
Proof. split; vm_compute; reflexivity. Qed.

(** C6 (amended).  The eye-contact score is
    max(0, 1 - weighted_deviation / 30) with
    weighted_deviation = 0.6 |pan| + 0.3 |tilt| + 0.1 |roll|; it is 1 when
    the three angles are 0, and it is 0 whenever the weighted deviation
    reaches 30. *)
Theorem eye_contact_score_spec (pan tilt roll : Q) :
  let weighted_deviation := 0.6 * Qabs pan + 0.3 * Qabs tilt + 0.1 * Qabs roll in
  estimate_eye_contact pan tilt roll == Qmax 0 (1 - weighted_deviation / 30) /\
  (pan == 0 /\ tilt == 0 /\ roll == 0 ->
   estimate_eye_contact pan tilt roll == 1) /\
  (30 <= weighted_deviation -> estimate_eye_contact pan tilt roll == 0).
Proof.
  intro weighted_deviation.
  assert (E : estimate_eye_contact pan tilt roll
              == py_max 0 (1 - weighted_deviation / 30)).
  { unfold estimate_eye_contact, weighted_deviation.
    apply py_max_proper; [reflexivity|].
    assert (Hp : pan - 0 == pan) by ring.
    assert (Ht : tilt - 0 == tilt) by ring.
    assert (Hr : roll - 0 == roll) by ring.
    rewrite Hp, Ht, Hr. div_consts. ring. }
  pose proof (Qabs_nonneg pan) as Np.
  pose proof (Qabs_nonneg tilt) as Nt.
  pose proof (Qabs_nonneg roll) as Nr.
  split; [| split].
  - rewrite E. apply py_max_Qmax.
  - intros (Hp & Ht & Hr).
    apply Qabs_zero_iff in Hp. apply Qabs_zero_iff in Ht.
    apply Qabs_zero_iff in Hr.
    rewrite E. unfold weighted_deviation.
    destruct (py_max_cases 0
                (1 - (0.6 * Qabs pan + 0.3 * Qabs tilt + 0.1 * Qabs roll) / 30))
      as [[H ->] | [H ->]]; div_consts; lra.
  - intro H30. rewrite E.
    destruct (py_max_cases 0 (1 - weighted_deviation / 30))
      as [[H ->] | [H ->]]; div_consts; lra.
Qed.

(** The amended C6 at work: a head turned 50 degrees sideways scores 0, a
    head facing the camera scores 1. *)
Lemma eye_contact_score_witness :
  estimate_eye_contact 50 0 0 == 0 /\ estimate_eye_contact 0 0 0 == 1.
Proof.
  split.
  - apply (eye_contact_score_spec 50 0 0). discriminate.
  - apply (eye_contact_score_spec 0 0 0). repeat split; reflexivity.
Defined.

(** ** Score aggregation *)

(** The dictionary the aggregator builds holds the present components, in
    branch order. *)
Lemma component_scores_present s f c :
  match present_scores
          [speech_component s; facial_component f; confidence_component c] with
  | [] =>
      calculate_overall_score s f c
      = {| overall_score := 0; component_scores := []; grade := "F" |}
  | present =>
      dict_values (component_scores (calculate_overall_score s f c)) = present
      /\ overall_score (calculate_overall_score s f c)
         = py_sum present / py_len present
      /\ grade (calculate_overall_score s f c)
         = score_to_grade (overall_score (calculate_overall_score s f c))
  end.
Proof.
  unfold calculate_overall_score, facial_component.
  destruct s as [sa | es], f as [fa | ef], c as [ca | ec]; cbn;
    try destruct (dict_get "joy" (fa_emotion_statistics fa)) as [st |]; cbn;
    repeat split; reflexivity.
Qed.

Lemma mean_of_list (present : list Q) :
  present <> [] -> py_sum present / py_len present == arithmetic_mean present.
Proof.
  intro Hne. destruct present as [| v rest]; [congruence|].
  unfold arithmetic_mean, py_sum, py_len.
  apply Qmult_comp; [| reflexivity].
  rewrite <- fold_left_rev_right.
  assert (G : forall (l : list Q) (a : Q),
             fold_right (fun y x => x + y) a l == a + fold_right Qplus 0 l).
  { induction l as [| x l IH]; intro a; cbn; [ring | rewrite IH; ring]. }
  rewrite G.
  assert (P : forall l : list Q,
             fold_right Qplus 0 (rev l) == fold_right Qplus 0 l).
  { induction l as [| x l IH]; cbn; [reflexivity|].
    rewrite fold_right_app. cbn.
    assert (A : forall (l' : list Q) (a : Q),
               fold_right Qplus a l' == fold_right Qplus 0 l' + a).
    { induction l' as [| y l' IH']; intro a; cbn; [ring | rewrite IH'; ring]. }
    rewrite A, IH. ring. }
  rewrite P. ring.
Qed.

(** C1.  The overall score is the arithmetic mean of the component scores
    that are present (speech clarity, average joy, confidence), and 0 when
    none is; a branch that ended in an error is left out of the mean
    instead of counting as 0; with no component present the aggregator
    returns overall score 0, grade F and no component scores. *)
Theorem overall_score_mean_of_present
    (s : result SpeechAnalysis) (f : result FacialAnalysis)
    (c : result ConfidenceAnalysis) :
  let present :=
    present_scores
      [speech_component s; facial_component f; confidence_component c] in
  let r := calculate_overall_score s f c in
  overall_score r == arithmetic_mean present /\
  dict_values (component_scores r) = present /\
  (forall e, overall_score (calculate_overall_score (Err e) f c)
             == arithmetic_mean
                  (present_scores [facial_component f; confidence_component c])) /\
  (forall e, overall_score (calculate_overall_score s (Err e) c)
             == arithmetic_mean
                  (present_scores [speech_component s; confidence_component c])) /\
  (forall e, overall_score (calculate_overall_score s f (Err e))
             == arithmetic_mean
                  (present_scores [speech_component s; facial_component f])) /\
  (present = [] ->
   r = {| overall_score := 0; component_scores := []; grade := "F" |}).
Proof.
  assert (M : forall s' f' c',
             overall_score (calculate_overall_score s' f' c')
             == arithmetic_mean
                  (present_scores [speech_component s'; facial_component f';
                                   confidence_component c'])).
  { intros s' f' c'. pose proof (component_scores_present s' f' c') as H.
    destruct (present_scores _) as [| v rest] eqn:E.
    - rewrite H. reflexivity.
    - destruct H as (_ & -> & _). apply mean_of_list. discriminate. }
  intros present r. subst present r.
  split; [apply M|]. split.
  - pose proof (component_scores_present s f c) as H.
    destruct (present_scores _) as [| v rest] eqn:E.
    + rewrite H. reflexivity.
    + apply H.
  - split; [| split; [| split]].
    + intro e. rewrite M. reflexivity.
    + intro e. rewrite M. cbn. rewrite app_nil_r. reflexivity.
    + intro e. rewrite M. cbn. rewrite !app_nil_r. reflexivity.
    + intro Hnone. pose proof (component_scores_present s f c) as H.
      rewrite Hnone in H. exact H.
Qed.

(** C1 at work: three failed branches give score 0, grade F and no
    component scores. *)
Lemma overall_score_all_failed_witness :
  calculate_overall_score (Err (ServiceError "timeout")) (Err ValueError)
                          (Err ZeroDivisionError)
  = {| overall_score := 0; component_scores := []; grade := "F" |}.
Proof.
  apply (overall_score_mean_of_present
           (Err (ServiceError "timeout")) (Err ValueError) (Err ZeroDivisionError)).
  reflexivity.
Defined.

(** ** The loop over the recognition results *)

Section SpeechLoop.

Variable filler_words : list string.

Lemma process_words_fold (words : list WordInfo) (acc : SpeechAcc) :
  fold_left (process_word filler_words) words acc
  = {| transcript_parts := transcript_parts acc;
       word_timestamps := word_timestamps acc ++ map timestamp_of words;
       total_words := total_words acc + Z.of_nat (List.length words);
       filler_word_count :=
         filler_word_count acc + count_fillers filler_words words |}.
Proof.
  revert acc. induction words as [| w words IH]; intro acc.
  - cbn. rewrite app_nil_r, !Z.add_0_r. now destruct acc.
  - cbn [fold_left]. rewrite IH. unfold process_word at 1. cbn -[Z.of_nat].
    f_equal.
    + now rewrite <- app_assoc.
    + lia.
    + unfold count_fillers. cbn [filter]. unfold is_filler at 2.
      destruct (str_in (normalize_word (wi_word w)) filler_words);
        cbn [List.length]; lia.
Qed.

Lemma process_results_ok (response : list SpeechResult) (acc : SpeechAcc) :
  forallb has_alternative response = true ->
  process_results filler_words acc response
  = Ok {| transcript_parts := transcript_parts acc ++ first_transcripts response;
          word_timestamps :=
            word_timestamps acc ++ map timestamp_of (recognized_words response);
          total_words :=
            total_words acc + Z.of_nat (List.length (recognized_words response));
          filler_word_count :=
            filler_word_count acc
            + count_fillers filler_words (recognized_words response) |}.
Proof.
  revert acc. induction response as [| r response IH]; intros acc Hall.
  - cbn. rewrite !app_nil_r, !Z.add_0_r. now destruct acc.
  - cbn in Hall. apply andb_prop in Hall as [Hr Hall].
    cbn [process_results]. unfold process_result. unfold has_alternative in Hr.
    destruct (alternatives r) as [| alternative others] eqn:E; [discriminate|].
    assert (Hw : recognized_words (r :: response)
                 = alt_words alternative ++ recognized_words response)
      by (unfold recognized_words; cbn [flat_map]; now rewrite E).
    assert (Ht : first_transcripts (r :: response)
                 = [alt_transcript alternative] ++ first_transcripts response)
      by (unfold first_transcripts; cbn [flat_map]; now rewrite E).
    rewrite Hw, Ht.
    cbn [bind]. rewrite process_words_fold, (IH _ Hall).
    cbn [transcript_parts word_timestamps total_words filler_word_count].
    unfold count_fillers.
    rewrite filter_app, !length_app, map_app, <- !app_assoc.
    f_equal. f_equal; lia.
Qed.

Lemma process_results_err (response : list SpeechResult) (acc : SpeechAcc) :
  forallb has_alternative response = false ->
  process_results filler_words acc response = Err IndexError.
Proof.
  revert acc. induction response as [| r response IH]; intros acc Hall.
  - discriminate.
  - cbn in Hall. cbn [process_results]. unfold process_result, has_alternative in *.
    destruct (alternatives r) as [| alternative others]; [reflexivity|].
    cbn [bind]. apply IH. exact Hall.
Qed.

End SpeechLoop.

(** ** Sliding windows *)

Lemma last_cons_nth {A : Type} (l : list A) (x d : A) :
  last (x :: l) d = nth (List.length l) (x :: l) d.
Proof.
  revert x. induction l as [| y l IH]; intro x; [reflexivity|].
  change (last (x :: y :: l) d) with (last (y :: l) d).
  rewrite IH. reflexivity.
Qed.

Lemma last_is_nth {A : Type} (l : list A) (d : A) :
  l <> [] -> last l d = nth (List.length l - 1) l d.
Proof.
  destruct l as [| x l]; [congruence|]. intros _.
  rewrite last_cons_nth. cbn [List.length]. f_equal. lia.
Qed.

Lemma Qltb_dec (a b : Q) (A : Type) (x y : A) :
  (if Qltb a b then x else y) = (if Qlt_le_dec a b then x else y).
Proof.
  destruct (Qlt_le_dec a b) as [H | H].
  - apply Qltb_true in H. now rewrite H.
  - apply Qltb_false in H. now rewrite H.
Qed.

Lemma window_wpm_slice (wts : list WordTimestamp) (i : nat) :
  (i + 10 <= List.length wts)%nat ->
  window_wpm 10 (slice_window wts i 10) = Ok (window_wpm_at wts i).
Proof.
  intro Hlen. unfold slice_window.
  assert (L : List.length (firstn 10 (skipn i wts)) = 10%nat).
  { rewrite firstn_length_le; [reflexivity|]. rewrite length_skipn. lia. }
  destruct (firstn 10 (skipn i wts)) as [| first rest] eqn:E; [discriminate|].
  unfold window_wpm, window_wpm_at.
  assert (Hfirst : first = nth i wts null_word).
  { change first with (nth 0 (first :: rest) null_word).
    rewrite <- E, nth_firstn, nth_skipn. cbn. f_equal. lia. }
  assert (Hlast : last (first :: rest) first = nth (i + 9) wts null_word).
  { rewrite last_is_nth by discriminate. rewrite L.
    rewrite (nth_indep _ first null_word) by (rewrite L; lia).
    rewrite <- E, nth_firstn, nth_skipn. reflexivity. }
  rewrite Hlast, <- Hfirst, Qltb_dec. reflexivity.
Qed.

Lemma window_loop_ok (wts : list WordTimestamp) (indices : list nat)
    (window_wpms : list Q) :
  Forall (fun i => (i + 10 <= List.length wts)%nat) indices ->
  window_loop wts 10 indices window_wpms
  = Ok (window_wpms ++ map (window_wpm_at wts) indices).
Proof.
  intro Hall. revert window_wpms.
  induction Hall as [| i indices Hi Hall IH]; intro window_wpms.
  - cbn. now rewrite app_nil_r.
  - cbn [window_loop]. rewrite (window_wpm_slice _ _ Hi). cbn [bind].
    rewrite IH. cbn [map]. now rewrite <- app_assoc.
Qed.

Lemma window_wpm_at_nonneg (wts : list WordTimestamp) (i : nat) :
  0 <= window_wpm_at wts i.
Proof.
  unfold window_wpm_at.
  destruct (Qlt_le_dec 0 _) as [H | H]; [| lra].
  apply Qmult_le_0_compat; [| discriminate].
  apply Qle_shift_div_l; [exact H | lra].
Qed.

Lemma py_sum_from (values : list Q) (a : Q) :
  fold_left Qplus values a == a + py_sum values.
Proof.
  unfold py_sum. revert a.
  induction values as [| v values IH]; intro a; cbn [fold_left]; [ring|].
  rewrite IH, (IH (0 + v)). ring.
Qed.

Lemma py_sum_cons (v : Q) (values : list Q) :
  py_sum (v :: values) == v + py_sum values.
Proof. unfold py_sum at 1. cbn [fold_left]. rewrite py_sum_from. ring. Qed.

Lemma py_sum_nonneg (values : list Q) :
  Forall (fun v => 0 <= v) values -> 0 <= py_sum values.
Proof.
  induction 1 as [| v values Hv Hall IH]; [discriminate|].
  rewrite py_sum_cons. lra.
Qed.

Lemma py_len_pos {A : Type} (l : list A) : l <> [] -> 0 < py_len l.
Proof.
  destruct l as [| x l]; [congruence|]. intros _.
  unfold py_len, Qlt. cbn -[Z.of_nat]. lia.
Qed.

Lemma mean_nonneg (values : list Q) :
  Forall (fun v => 0 <= v) values -> 0 <= py_sum values / py_len values.
Proof.
  intro Hall. destruct values as [| v values].
  - discriminate.
  - apply Qle_shift_div_l; [apply py_len_pos; discriminate|].
    pose proof (py_sum_nonneg _ Hall). lra.
Qed.

(** ** Pacing analysis *)

(** C3 (as stated, refuted).  Ten words are fewer than eleven, yet the
    pacing analysis reports numbers for them: one window of 120 words per
    minute, deviation 0 and consistency 1. *)
Lemma pacing_ten_words_numeric :
  (List.length (steady_words 10) < 11)%nat /\
  analyze_pacing_variations isqrt_Q (steady_words 10)
    <> Ok (PacingError insufficient_pacing_data) /\
  exists avg std consistency timeline,
    analyze_pacing_variations isqrt_Q (steady_words 10)
      = Ok (PacingStats avg std consistency timeline) /\
    avg == 120 /\ std == 0 /\ consistency == 1 /\
    List.length timeline = 1%nat.
Proof.
  split; [cbn; lia|]. split; [vm_compute; discriminate|].
  eexists _, _, _, _. split; [vm_compute; reflexivity|].
  repeat split; reflexivity.
Qed.

(** C3 (amended).  For fewer than 10 words the pacing analysis reports the
    insufficient-data condition instead of numeric fields; for 10 or more
    words it reports the words-per-minute values of the sliding windows of
    10 words (one per starting position), their average and standard
    deviation, and the consistency max(0, 1 - std_dev / mean), or 0 if the
    mean is 0. *)
Theorem pacing_analysis_spec (np_sqrt : Q -> Q) (wts : list WordTimestamp) :
  ((List.length wts < 10)%nat ->
   analyze_pacing_variations np_sqrt wts
   = Ok (PacingError insufficient_pacing_data)) /\
  ((10 <= List.length wts)%nat ->
   let timeline := map (window_wpm_at wts) (seq 0 (List.length wts - 9)) in
   let avg := arithmetic_mean timeline in
   let std := np_std np_sqrt timeline in
   exists average_wpm pacing_consistency,
     analyze_pacing_variations np_sqrt wts
     = Ok (PacingStats average_wpm std pacing_consistency timeline) /\
     average_wpm == avg /\
     0 <= avg /\
     pacing_consistency
     == (if Qeq_bool avg 0 then 0 else Qmax 0 (1 - std / avg))).
Proof.
  split; intro Hlen.
  - unfold analyze_pacing_variations. apply Nat.ltb_lt in Hlen. now rewrite Hlen.
  - intros timeline avg std. unfold analyze_pacing_variations.
    assert (Hge : (List.length wts <? 10)%nat = false) by (apply Nat.ltb_ge; lia).
    rewrite Hge.
    replace (List.length wts - 10 + 1)%nat with (List.length wts - 9)%nat by lia.
    rewrite window_loop_ok.
    2:{ apply Forall_forall. intros i Hi. apply in_seq in Hi. lia. }
    cbn [app bind]. fold timeline.
    assert (Hne : timeline <> []).
    { unfold timeline. destruct (List.length wts - 9)%nat eqn:E; [lia|].
      discriminate. }
    pose proof (py_len_pos timeline Hne) as Hpos.
    unfold py_div.
    destruct (Qeq_bool (py_len timeline) 0) eqn:Ez.
    { apply Qeq_bool_iff in Ez. lra. }
    cbn [bind]. fold std.
    assert (Havg : py_sum timeline / py_len timeline == avg)
      by (apply mean_of_list; exact Hne).
    assert (Hnn : 0 <= py_sum timeline / py_len timeline).
    { apply mean_nonneg. unfold timeline. apply Forall_forall.
      intros v Hv. apply in_map_iff in Hv as (i & <- & _).
      apply window_wpm_at_nonneg. }
    eexists _, _. split; [reflexivity|].
    split; [exact Havg|]. split; [lra|].
    destruct (Qeq_bool avg 0) eqn:Ea.
    + apply Qeq_bool_iff in Ea.
      assert (Hf : Qltb 0 (py_sum timeline / py_len timeline) = false)
        by (apply Qltb_false; lra).
      rewrite Hf. reflexivity.
    + assert (Hna : ~ avg == 0).
      { intro Hz. apply Qeq_bool_iff in Hz. congruence. }
      assert (Ht : Qltb 0 (py_sum timeline / py_len timeline) = true)
        by (apply Qltb_true; lra).
      rewrite Ht, py_max_Qmax. now rewrite Havg.
Qed.

(** The amended C3 at work: nine words are too few, twelve words give
    three windows. *)
Lemma pacing_analysis_witness :
  analyze_pacing_variations isqrt_Q (steady_words 9)
    = Ok (PacingError insufficient_pacing_data) /\
  exists average_wpm pacing_consistency,
    analyze_pacing_variations isqrt_Q (steady_words 12)
    = Ok (PacingStats average_wpm
            (np_std isqrt_Q
               (map (window_wpm_at (steady_words 12)) (seq 0 3)))
            pacing_consistency
            (map (window_wpm_at (steady_words 12)) (seq 0 3))).
Proof.
  split.
  - apply (pacing_analysis_spec isqrt_Q (steady_words 9)). cbn. lia.
  - destruct (pacing_analysis_spec isqrt_Q (steady_words 12)) as [_ H].
    destruct H as (a & c & E & _); [cbn; lia|].
    exists a, c. exact E.
Defined.

(** ** Speech analysis *)

Lemma analyze_pacing_variations_total (np_sqrt : Q -> Q)
    (wts : list WordTimestamp) :
  exists p, analyze_pacing_variations np_sqrt wts = Ok p.
Proof.
  unfold analyze_pacing_variations.
  destruct (List.length wts <? 10)%nat eqn:Hlen; [eexists; reflexivity|].
  apply Nat.ltb_ge in Hlen.
  rewrite window_loop_ok.
  2:{ apply Forall_forall. intros i Hi. apply in_seq in Hi. lia. }
  cbn [app bind]. unfold py_div.
  destruct (Qeq_bool _ 0) eqn:Ez; [| eexists; reflexivity].
  apply Qeq_bool_iff in Ez.
  assert (Hpos : 0 < py_len (map (window_wpm_at wts)
                               (seq 0 (List.length wts - 10 + 1)))).
  { apply py_len_pos. replace (List.length wts - 10 + 1)%nat
      with (S (List.length wts - 10)) by lia. discriminate. }
  lra.
Qed.

(** The report of a recognition whose results all carry an alternative. *)
Lemma analyze_speech_ok (np_sqrt : Q -> Q) (filler_words : list string)
    (response : list SpeechResult) :
  forallb has_alternative response = true ->
  let words := recognized_words response in
  let wts := map timestamp_of words in
  let n := Z.of_nat (List.length words) in
  let fillers := count_fillers filler_words words in
  exists p,
    analyze_pacing_variations np_sqrt wts = Ok p /\
    analyze_speech np_sqrt filler_words (Ok response)
    = Ok {| sa_transcript := join " " (first_transcripts response);
            sa_total_words := n;
            sa_total_duration_seconds := total_duration_of wts;
            sa_words_per_minute := words_per_minute_of n (total_duration_of wts);
            sa_filler_count := fillers;
            sa_filler_percentage := filler_percentage_of fillers n;
            sa_filler_details := get_filler_word_details filler_words wts;
            sa_pacing_analysis := p;
            sa_clarity_score :=
              calculate_clarity_score
                (filler_percentage_of fillers n)
                (words_per_minute_of n (total_duration_of wts));
            sa_word_timestamps := wts |}.
Proof.
  intros Hall words wts n fillers.
  destruct (analyze_pacing_variations_total np_sqrt wts) as [p Hp].
  exists p. split; [exact Hp|].
  unfold analyze_speech. cbn [bind].
  rewrite (process_results_ok filler_words response speech_acc0 Hall).
  cbn [bind speech_acc0 transcript_parts word_timestamps total_words
       filler_word_count app Z.add].
  fold words. fold wts. rewrite Hp. reflexivity.
Qed.

(** A recognition that failed, or a result without alternatives, makes the
    branch end in an error. *)
Lemma analyze_speech_err (np_sqrt : Q -> Q) (filler_words : list string) :
  (forall e, analyze_speech np_sqrt filler_words (Err e) = Err e) /\
  (forall response,
     forallb has_alternative response = false ->
     analyze_speech np_sqrt filler_words (Ok response) = Err IndexError).
Proof.
  split; [reflexivity|]. intros response Hall.
  unfold analyze_speech. cbn [bind].
  now rewrite (process_results_err filler_words response speech_acc0 Hall).
Qed.

(** C2 (as stated, refuted).  A single recognized word lasting half a
    second is a sequence of fewer than 2 elements, yet the analysis reports
    a total duration of 0.5 s and 120 words per minute. *)
Lemma one_word_duration_nonzero :
  (List.length (recognized_words one_word_response) < 2)%nat /\
  exists sa,
    analyze_speech isqrt_Q FILLER_WORDS (Ok one_word_response) = Ok sa /\
    List.length (sa_word_timestamps sa) = 1%nat /\
    sa_total_duration_seconds sa == 0.5 /\
    sa_words_per_minute sa == 120 /\
    ~ sa_total_duration_seconds sa == 0 /\
    ~ sa_words_per_minute sa == 0.
Proof.
  split; [cbn; lia|].
  eexists. split; [vm_compute; reflexivity|].
  cbn. repeat split; try reflexivity; discriminate.
Qed.

(** C2 (amended).  For the empty word-timing sequence the analysis reports
    total_duration = 0 and words_per_minute = 0.  For a sequence of one
    word it reports total_duration = end_time - start_time of that word,
    and words_per_minute = 60 / total_duration when that duration is
    positive, 0 otherwise. *)
Theorem short_sequence_duration (np_sqrt : Q -> Q) (filler_words : list string)
    (response : list SpeechResult) :
  forallb has_alternative response = true ->
  exists sa,
    analyze_speech np_sqrt filler_words (Ok response) = Ok sa /\
    sa_word_timestamps sa = map timestamp_of (recognized_words response) /\
    (recognized_words response = [] ->
     sa_total_duration_seconds sa == 0 /\ sa_words_per_minute sa == 0) /\
    (forall w,
       recognized_words response = [w] ->
       let d := wi_end_time w - wi_start_time w in
       sa_total_duration_seconds sa == d /\
       sa_words_per_minute sa == (if Qlt_le_dec 0 d then 60 / d else 0)).
Proof.
  intro Hall.
  destruct (analyze_speech_ok np_sqrt filler_words response Hall)
    as (p & _ & E).
  eexists. split; [exact E|].
  cbn [sa_word_timestamps sa_total_duration_seconds sa_words_per_minute].
  split; [reflexivity|]. split.
  - intros ->. split; reflexivity.
  - intros w Hw. rewrite Hw. cbn [map List.length total_duration_of last].
    cbn [timestamp_of end_time start_time].
    set (d := wi_end_time w - wi_start_time w).
    split; [reflexivity|].
    unfold words_per_minute_of. rewrite Qltb_dec.
    destruct (Qlt_le_dec 0 d) as [Hd | Hd]; [| reflexivity].
    change (inject_Z (Z.of_nat 1)) with 1. field. lra.
Qed.

(** The amended C2 at work on the one-word response: 0.5 s and 120 words
    per minute. *)
Lemma short_sequence_duration_witness :
  (exists sa,
     analyze_speech isqrt_Q FILLER_WORDS (Ok one_word_response) = Ok sa /\
     sa_total_duration_seconds sa == 0.5 /\
     sa_words_per_minute sa == 120) /\
  (exists sa,
     analyze_speech isqrt_Q FILLER_WORDS (Ok []) = Ok sa /\
     sa_total_duration_seconds sa == 0 /\
     sa_words_per_minute sa == 0).
Proof.
  split.
  - destruct (short_sequence_duration isqrt_Q FILLER_WORDS one_word_response)
      as (sa & E & _ & _ & H1); [reflexivity|].
    exists sa. split; [exact E|].
    destruct (H1 (word_info "Hello." 0 0.5) eq_refl) as [Hd Hw].
    split; [rewrite Hd; reflexivity | rewrite Hw; reflexivity].
  - destruct (short_sequence_duration isqrt_Q FILLER_WORDS [])
      as (sa & E & _ & H0 & _); [reflexivity|].
    exists sa. split; [exact E|]. apply H0. reflexivity.
Defined.

Lemma speech_clarity_component (sa : SpeechAnalysis)
    (f : result FacialAnalysis) (c : result ConfidenceAnalysis) :
  dict_get "speech_clarity" (component_scores (calculate_overall_score (Ok sa) f c))
  = Some (sa_clarity_score sa).
Proof.
  unfold calculate_overall_score.
  destruct f as [fa | ef], c as [ca | ec]; cbn;
    try destruct (dict_get "joy" (fa_emotion_statistics fa)) as [st |]; cbn;
    reflexivity.
Qed.

(** C10.  When the recognition returns no word at all, the speech branch
    still succeeds: total_words = 0, words_per_minute = 0, filler count and
    percentage 0, and clarity_score = 0.4 (wpm_score 0, filler_score 1);
    the pipeline's overall score then has 0.4 among its component scores,
    and it is 0.4 with grade D when the other two branches failed. *)
Theorem no_words_speech_branch (np_sqrt : Q -> Q) (Image : Type)
    (response : list SpeechResult)
    (download : result (VideoCapture Image))
    (face_detection : Image -> result (list FaceAnnotation)) :
  forallb has_alternative response = true ->
  recognized_words response = [] ->
  let report :=
    analyze_video_comprehensive np_sqrt (Ok response) download face_detection in
  exists sa,
    speech_analysis report = Ok sa /\
    sa_word_timestamps sa = [] /\
    sa_total_words sa = 0%Z /\
    sa_words_per_minute sa == 0 /\
    sa_filler_count sa = 0%Z /\
    sa_filler_percentage sa == 0 /\
    Qmax 0 (1 - Qabs (sa_words_per_minute sa - 155) / 100) == 0 /\
    Qmax 0 (1 - sa_filler_percentage sa / 20) == 1 /\
    sa_clarity_score sa == 0.4 /\
    (exists v, dict_get "speech_clarity" (component_scores (overall report)) = Some v
               /\ v == 0.4) /\
    (forall e1 e2,
       overall_score (calculate_overall_score (Ok sa) (Err e1) (Err e2)) == 0.4 /\
       grade (calculate_overall_score (Ok sa) (Err e1) (Err e2)) = "D"%string).
Proof.
  intros Hall Hnone report.
  destruct (analyze_speech_ok np_sqrt FILLER_WORDS response Hall) as (p & _ & E).
  rewrite Hnone in E. cbn [map List.length Z.of_nat] in E.
  eexists. split.
  { unfold report, analyze_video_comprehensive. cbn [speech_analysis]. exact E. }
  cbn [sa_word_timestamps sa_total_words sa_words_per_minute sa_filler_count
       sa_filler_percentage sa_clarity_score].
  repeat (split; [reflexivity|]).
  split.
  - eexists. split.
    + unfold report, analyze_video_comprehensive. cbn [overall].
      rewrite E. apply speech_clarity_component.
    + reflexivity.
  - intros e1 e2. split; reflexivity.
Qed.

(** C10 at work on a response without results, the two vision branches
    having failed to fetch the video. *)
Lemma no_words_speech_branch_witness :
  exists sa,
    speech_analysis
      (analyze_video_comprehensive (Image := nat) isqrt_Q (Ok [])
         (Err (ServiceError "not found")) (fun _ => Ok []))
    = Ok sa /\
    sa_total_words sa = 0%Z /\
    sa_clarity_score sa == 0.4.
Proof.
  destruct (no_words_speech_branch isqrt_Q nat []
              (Err (ServiceError "not found")) (fun _ => Ok []))
    as (sa & E & _ & Hw & _ & _ & _ & _ & _ & Hc & _);
    [reflexivity | reflexivity |].
  exists sa. repeat split; assumption.
Defined.

(** ** Filler counting *)

Lemma str_in_In (w : string) (l : list string) : str_in w l = true <-> In w l.
Proof.
  unfold str_in. rewrite existsb_exists. split.
  - intros (x & Hx & E). apply String.eqb_eq in E. now subst.
  - intro H. exists w. split; [exact H | apply String.eqb_refl].
Qed.

Lemma filler_percentage_of_spec (count total : Z) :
  (0 <= total)%Z ->
  filler_percentage_of count total
  == (if (total =? 0)%Z then 0 else inject_Z count / inject_Z total * 100).
Proof.
  intro Hnn. unfold filler_percentage_of.
  destruct (0 <? total)%Z eqn:Hpos, (total =? 0)%Z eqn:Hz;
    try reflexivity; lia.
Qed.

(** C4 (as stated, refuted).  In "A so-called fix." the filler "so" has a
    whole-word, boundary-anchored match in the transcript, but no recognized
    word is a filler: the analysis counts 0 where the transcript has 1
    match. *)
Lemma token_count_differs_from_transcript_matches :
  exists sa,
    analyze_speech isqrt_Q FILLER_WORDS (Ok hyphen_response) = Ok sa /\
    sa_transcript sa = "A so-called fix."%string /\
    count_filler_words (lower (sa_transcript sa)) FILLER_WORDS = 1%nat /\
    sa_filler_count sa = 0%Z /\
    sa_filler_count sa
    <> Z.of_nat (count_filler_words (lower (sa_transcript sa)) FILLER_WORDS).
Proof.
  eexists. split; [vm_compute; reflexivity|].
  cbn [sa_transcript sa_filler_count].
  repeat split; try reflexivity. vm_compute. discriminate.
Qed.

(** The two-word entry "you know" of the filler list never equals a
    recognized word: spoken, it is not counted, while the transcript-based
    counter finds it. *)
Remark you_know_not_counted :
  exists sa,
    analyze_speech isqrt_Q FILLER_WORDS (Ok you_know_response) = Ok sa /\
    sa_filler_count sa = 0%Z /\
    count_filler_words (lower (sa_transcript sa)) FILLER_WORDS = 1%nat.
Proof.
  eexists. split; [vm_compute; reflexivity|]. split; reflexivity.
Qed.

(** C4 (amended).  Filler counting over the filler-word list counts exactly
    the recognized words that, lowered and stripped of surrounding ".,!?",
    are equal to a filler word: whole recognized words, whatever their
    case, so that "liked" is not counted for "like" and the words of
    "I liked it" with filler list {"like"} give filler_count = 0; and
    filler_percentage = filler_count / word_count * 100, or 0 when
    word_count = 0. *)
Theorem filler_count_whole_recognized_words (np_sqrt : Q -> Q)
    (filler_words : list string) (response : list SpeechResult) :
  forallb has_alternative response = true ->
  exists sa,
    analyze_speech np_sqrt filler_words (Ok response) = Ok sa /\
    sa_total_words sa = Z.of_nat (List.length (recognized_words response)) /\
    sa_filler_count sa
    = Z.of_nat (List.length (filter (is_filler filler_words)
                               (recognized_words response))) /\
    (forall w, is_filler filler_words w = true
               <-> In (strip ".,!?" (lower (wi_word w))) filler_words) /\
    (forall w w', lower (wi_word w) = lower (wi_word w') ->
                  is_filler filler_words w = is_filler filler_words w') /\
    (forall s e, is_filler ["like"%string] (word_info "liked" s e) = false) /\
    (exists sa', analyze_speech np_sqrt ["like"%string] (Ok liked_response) = Ok sa'
                 /\ sa_total_words sa' = 3%Z /\ sa_filler_count sa' = 0%Z) /\
    sa_filler_percentage sa
    == (if (sa_total_words sa =? 0)%Z then 0
        else inject_Z (sa_filler_count sa) / inject_Z (sa_total_words sa) * 100).
Proof.
  intro Hall.
  destruct (analyze_speech_ok np_sqrt filler_words response Hall) as (p & _ & E).
  eexists. split; [exact E|].
  cbn [sa_total_words sa_filler_count sa_filler_percentage].
  split; [reflexivity|]. split; [reflexivity|]. split.
  { intro w. unfold is_filler, normalize_word. apply str_in_In. }
  split.
  { intros w w' Hl. unfold is_filler, normalize_word. now rewrite Hl. }
  split; [reflexivity|]. split.
  { destruct (analyze_speech_ok np_sqrt ["like"%string] liked_response eq_refl)
      as (p' & _ & E').
    eexists. split; [exact E'|]. split; reflexivity. }
  apply filler_percentage_of_spec. lia.
Qed.

(** The amended C4 at work: in the scenario response the program's list
    counts four of the eight recognized words, 50%. *)
Lemma filler_count_witness :
  exists sa,
    analyze_speech isqrt_Q FILLER_WORDS (Ok scenario_response) = Ok sa /\
    sa_total_words sa = 8%Z /\
    sa_filler_count sa = 4%Z /\
    sa_filler_percentage sa == 50.
Proof.
  destruct (filler_count_whole_recognized_words isqrt_Q FILLER_WORDS
              scenario_response eq_refl)
    as (sa & E & Ht & Hc & _ & _ & _ & _ & Hp).
  exists sa. split; [exact E|].
  split; [rewrite Ht; reflexivity|]. split; [rewrite Hc; reflexivity|].
  rewrite Hp, Ht, Hc. reflexivity.
Defined.

(** C9 (as stated, refuted).  The scenario transcript has 8 words, not 7.
    With the filler list {um, so, uh} the count is 3 and the percentage is
    37.5, which is not 42.9 to one decimal; with the program's own list,
    which also holds "well", the count is 4. *)
Lemma scenario_percentage_not_42_9 :
  (exists sa,
     analyze_speech isqrt_Q ["um"; "so"; "uh"]%string (Ok scenario_response)
     = Ok sa /\
     sa_total_words sa = 8%Z /\
     sa_filler_count sa = 3%Z /\
     sa_filler_percentage sa == 37.5 /\
     ~ (42.85 <= sa_filler_percentage sa < 42.95)) /\
  (exists sa,
     analyze_speech isqrt_Q FILLER_WORDS (Ok scenario_response) = Ok sa /\
     sa_filler_count sa = 4%Z /\ sa_filler_count sa <> 3%Z).
Proof.
  split.
  - eexists. split; [vm_compute; reflexivity|].
    cbn [sa_total_words sa_filler_count sa_filler_percentage].
    repeat split; try reflexivity.
    intros [H _]. revert H. vm_compute. intro H. apply H. reflexivity.
  - eexists. split; [vm_compute; reflexivity|].
    cbn [sa_filler_count]. split; [reflexivity | discriminate].
Qed.

(** C9 (amended).  For the transcript "um so I think uh I did well"
    (8 words), the speech analysis with filler list {um, so, uh} yields
    filler_count = 3 and filler_percentage = 37.5%; with the program's
    filler list, which also contains "well", it yields filler_count = 4 and
    filler_percentage = 50%. *)
Theorem scenario_filler_statistics (np_sqrt : Q -> Q) :
  (exists sa,
     analyze_speech np_sqrt ["um"; "so"; "uh"]%string (Ok scenario_response)
     = Ok sa /\
     sa_total_words sa = 8%Z /\
     sa_filler_count sa = 3%Z /\
     sa_filler_percentage sa == 37.5) /\
  (exists sa,
     analyze_speech np_sqrt FILLER_WORDS (Ok scenario_response) = Ok sa /\
     sa_total_words sa = 8%Z /\
     sa_filler_count sa = 4%Z /\
     map fd_word (sa_filler_details sa) = ["um"; "so"; "uh"; "well"]%string /\
     sa_filler_percentage sa == 50).
Proof.
  split.
  - destruct (analyze_speech_ok np_sqrt ["um"; "so"; "uh"]%string
                scenario_response eq_refl) as (p & _ & E).
    eexists. split; [exact E|]. repeat split; reflexivity.
  - destruct (analyze_speech_ok np_sqrt FILLER_WORDS scenario_response eq_refl)
      as (p & _ & E).
    eexists. split; [exact E|]. repeat split; reflexivity.
Qed.

(** ** Frame sampling *)

Lemma frame_numbers_S (first : Z) (n : nat) :
  frame_numbers first (S n) = first :: frame_numbers (first + 1) n.
Proof.
  unfold frame_numbers. cbn [seq map]. f_equal; [lia|].
  rewrite <- seq_shift, map_map. apply map_ext. intro k. lia.
Qed.

Lemma sampled_frames_cons {Image : Type} (fps : Q) (stride : Z)
    (frame : Image) (source : list Image) (first : Z) :
  sampled_frames fps stride (frame :: source) first
  = (if (first mod stride =? 0)%Z
     then [{| fd_timestamp := inject_Z first / fps; fd_image := frame;
              fd_frame_number := first |}]
     else [])
    ++ sampled_frames fps stride source (first + 1).
Proof.
  unfold sampled_frames. cbn [List.length]. rewrite frame_numbers_S.
  cbn [combine filter snd fst].
  destruct (first mod stride =? 0)%Z; reflexivity.
Qed.

Lemma read_frames_sampled {Image : Type} (fps : Q) (stride : Z)
    (source : list Image) (frame_count : Z) (frames : list (FrameData Image)) :
  stride <> 0%Z -> ~ fps == 0 ->
  read_frames fps stride source frame_count frames
  = Ok (frames ++ sampled_frames fps stride source frame_count).
Proof.
  intros Hstride Hfps.
  assert (Hs : (stride =? 0)%Z = false) by (apply Z.eqb_neq; exact Hstride).
  assert (Hf : Qeq_bool fps 0 = false).
  { destruct (Qeq_bool fps 0) eqn:E; [| reflexivity].
    apply Qeq_bool_iff in E. contradiction. }
  revert frame_count frames.
  induction source as [| frame source IH]; intros frame_count frames.
  - cbn. now rewrite app_nil_r.
  - cbn [read_frames]. rewrite Hs, sampled_frames_cons.
    destruct (frame_count mod stride =? 0)%Z.
    + rewrite Hf, IH, <- app_assoc. reflexivity.
    + rewrite IH. reflexivity.
Qed.

Lemma read_frames_zero_stride {Image : Type} (fps : Q) (frame : Image)
    (source : list Image) (frame_count : Z) (frames : list (FrameData Image)) :
  read_frames fps 0 (frame :: source) frame_count frames = Err ZeroDivisionError.
Proof. reflexivity. Qed.

Lemma py_int_zero (x : Q) : x == 0 -> py_int x = 0%Z.
Proof.
  unfold py_int, Qeq. destruct x as [n d]. cbn. intro H.
  assert (n = 0%Z) by lia. subst n. apply Z.quot_0_l. lia.
Qed.

Lemma py_int_nonneg (x : Q) : 0 <= x -> py_int x = Qfloor x.
Proof.
  unfold py_int, Qfloor, Qle. destruct x as [n d]. cbn. intro H.
  apply Z.quot_div_nonneg; lia.
Qed.

Lemma combine_frame_numbers {Image : Type} (source : list Image) (first : Z)
    (frame : Image) (i : Z) :
  In (frame, i) (combine source (frame_numbers first (List.length source))) ->
  (first <= i)%Z /\ nth_error source (Z.to_nat (i - first)) = Some frame.
Proof.
  revert first. induction source as [| x source IH]; intros first Hin.
  - contradiction.
  - cbn [List.length] in Hin. rewrite frame_numbers_S in Hin.
    cbn [combine] in Hin. destruct Hin as [E | Hin].
    + injection E as -> ->. rewrite Z.sub_diag. split; [lia | reflexivity].
    + apply IH in Hin as [Hle Hn]. split; [lia|].
      replace (Z.to_nat (i - first)) with (S (Z.to_nat (i - (first + 1)))) by lia.
      exact Hn.
Qed.

Lemma in_frame_numbers (first : Z) (n : nat) (i : Z) :
  In i (frame_numbers first n) <-> (first <= i < first + Z.of_nat n)%Z.
Proof.
  unfold frame_numbers. rewrite in_map_iff. split.
  - intros (k & <- & Hk). apply in_seq in Hk. lia.
  - intro Hi. exists (Z.to_nat (i - first)). split; [lia|].
    apply in_seq. lia.
Qed.

Lemma map_snd_combine {A B : Type} (l : list A) (l' : list B) :
  List.length l = List.length l' -> map snd (combine l l') = l'.
Proof.
  revert l'. induction l as [| x l IH]; intros [| y l'] Hlen;
    try discriminate; [reflexivity|].
  cbn. f_equal. apply IH. now injection Hlen.
Qed.

Lemma sampled_frame_numbers {Image : Type} (fps : Q) (stride : Z)
    (source : list Image) (first : Z) :
  map fd_frame_number (sampled_frames fps stride source first)
  = filter (fun i => (i mod stride =? 0)%Z)
           (frame_numbers first (List.length source)).
Proof.
  unfold sampled_frames. rewrite map_map. cbn [fd_frame_number].
  rewrite <- (map_snd_combine source (frame_numbers first (List.length source)))
    at 2.
  - now rewrite filter_map_swap.
  - unfold frame_numbers. now rewrite length_map, length_seq.
Qed.

(** C7 (as stated, refuted).  At 29.97 frames per second and an interval of
    0.5 s the rounded product is 15, but the sampler keeps every 14th frame:
    frames 0, 14 and 28 of a 40-frame clip, not frames 0, 15 and 30. *)
Lemma stride_truncated_not_rounded :
  ~ cap_fps ntsc_clip == 0 /\
  round_nearest (cap_fps ntsc_clip * 0.5) = 15%Z /\
  exists frames,
    extract_video_frames ntsc_clip 0.5 = Ok frames /\
    map fd_frame_number frames = [0; 14; 28]%Z /\
    map fd_frame_number frames
    <> filter (fun i => (i mod round_nearest (cap_fps ntsc_clip * 0.5) =? 0)%Z)
              (frame_numbers 0 (List.length (cap_frames ntsc_clip))).
Proof.
  split; [discriminate|]. split; [reflexivity|].
  eexists. split; [vm_compute; reflexivity|].
  split; [reflexivity|]. vm_compute. discriminate.
Qed.

(** A stride of 0, which a nonzero frame rate allows (1 frame per second
    sampled every 0.5 s), makes the sampler fail on the first frame. *)
Remark zero_stride_fails :
  ~ cap_fps slow_clip == 0 /\
  extract_video_frames slow_clip 0.5 = Err ZeroDivisionError.
Proof. split; [discriminate | reflexivity]. Qed.

(** C7 (amended).  The frame sampler computes a frame stride
    = int(frame_rate * interval), the product truncated toward zero (its
    floor when it is not negative).  When that stride is not 0, it yields
    one (timestamp, image) pair for each decoded frame whose number is a
    multiple of the stride, with timestamp = frame number / frame rate, in
    frame order, and it terminates when the source is exhausted. *)
Theorem frame_sampler_truncated_stride (Image : Type)
    (cap : VideoCapture Image) (interval_seconds : Q) :
  let fps := cap_fps cap in
  let stride := py_int (fps * interval_seconds) in
  (0 <= fps * interval_seconds -> stride = Qfloor (fps * interval_seconds)) /\
  (fps * interval_seconds <= 0 -> stride = (- Qfloor (- (fps * interval_seconds)))%Z) /\
  (stride <> 0%Z ->
   exists frames,
     extract_video_frames cap interval_seconds = Ok frames /\
     map fd_frame_number frames
     = filter (fun i => (i mod stride =? 0)%Z)
              (frame_numbers 0 (List.length (cap_frames cap))) /\
     (forall i,
        In i (map fd_frame_number frames)
        <-> (0 <= i < Z.of_nat (List.length (cap_frames cap)))%Z
            /\ (i mod stride = 0)%Z) /\
     Forall (fun fd =>
               fd_timestamp fd = inject_Z (fd_frame_number fd) / fps /\
               nth_error (cap_frames cap) (Z.to_nat (fd_frame_number fd))
               = Some (fd_image fd))
            frames).
Proof.
  intros fps stride. split; [| split].
  - apply py_int_nonneg.
  - intro Hneg. unfold stride.
    rewrite <- (py_int_nonneg (- (fps * interval_seconds))) by lra.
    unfold py_int. destruct (fps * interval_seconds) as [n d]. cbn.
    rewrite Z.quot_opp_l by lia. lia.
  - intro Hstride.
    assert (Hfps : ~ fps == 0).
    { intro Hz. apply Hstride. apply py_int_zero. rewrite Hz. ring. }
    exists (sampled_frames fps stride (cap_frames cap) 0).
    split; [| split; [| split]].
    + unfold extract_video_frames. fold fps. fold stride.
      now rewrite read_frames_sampled.
    + apply sampled_frame_numbers.
    + intro i. rewrite sampled_frame_numbers, filter_In, in_frame_numbers.
      rewrite Z.eqb_eq. split; intros [Hr Hm]; (split; [lia | exact Hm]).
    + unfold sampled_frames. apply Forall_map, Forall_forall.
      intros [frame i] Hin. apply filter_In in Hin as [Hin _].
      cbn [fd_timestamp fd_frame_number fd_image fst snd].
      split; [reflexivity|].
      apply combine_frame_numbers in Hin as [_ Hn].
      now rewrite Z.sub_0_r in Hn.
Qed.

(** The amended C7 at work on the 29.97 fps clip: stride 14 and frames
    0, 14, 28. *)
Lemma frame_sampler_witness :
  py_int (cap_fps ntsc_clip * 0.5) = 14%Z /\
  py_int (cap_fps slow_clip * -1.5) = (-1)%Z /\
  exists frames,
    extract_video_frames ntsc_clip 0.5 = Ok frames /\
    map fd_frame_number frames = [0; 14; 28]%Z.
Proof.
  destruct (frame_sampler_truncated_stride nat ntsc_clip 0.5) as (Hfloor & _ & H).
  destruct (frame_sampler_truncated_stride nat slow_clip (-1.5)) as (_ & Hneg & _).
  split; [rewrite Hfloor; [reflexivity | discriminate]|].
  split; [rewrite Hneg; [reflexivity | discriminate]|].
  destruct H as (frames & E & Hn & _); [discriminate|].
  exists frames. split; [exact E|]. rewrite Hn. reflexivity.
Defined.

(** ** Emotion statistics *)

Lemma fold_py_max_spec (values : list Q) (v : Q) :
  In (fold_left py_max values v) (v :: values) /\
  Forall (fun x => x <= fold_left py_max values v) (v :: values).
Proof.
  revert v. induction values as [| w values IH]; intro v.
  - cbn. split; [now left | constructor; [lra | constructor]].
  - cbn [fold_left]. destruct (IH (py_max v w)) as [Hin Hub].
    apply Forall_cons_iff in Hub as [Hm Hub].
    destruct (py_max_cases v w) as [[Hlt E] | [Hle E]]; rewrite E in *.
    + split.
      * destruct Hin as [Hin | Hin]; [right; left; exact Hin | right; right; exact Hin].
      * constructor; [lra | constructor; [exact Hm | exact Hub]].
    + split.
      * destruct Hin as [Hin | Hin]; [left; exact Hin | right; right; exact Hin].
      * constructor; [exact Hm | constructor; [lra | exact Hub]].
Qed.

Lemma fold_py_min_spec (values : list Q) (v : Q) :
  In (fold_left py_min values v) (v :: values) /\
  Forall (fun x => fold_left py_min values v <= x) (v :: values).
Proof.
  revert v. induction values as [| w values IH]; intro v.
  - cbn. split; [now left | constructor; [lra | constructor]].
  - cbn [fold_left]. destruct (IH (py_min v w)) as [Hin Hlb].
    apply Forall_cons_iff in Hlb as [Hm Hlb].
    destruct (py_min_cases v w) as [[Hlt E] | [Hle E]]; rewrite E in *.
    + split.
      * destruct Hin as [Hin | Hin]; [right; left; exact Hin | right; right; exact Hin].
      * constructor; [lra | constructor; [exact Hm | exact Hlb]].
    + split.
      * destruct Hin as [Hin | Hin]; [left; exact Hin | right; right; exact Hin].
      * constructor; [exact Hm | constructor; [lra | exact Hlb]].
Qed.

Lemma py_max_list_spec (values : list Q) :
  values <> [] ->
  In (py_max_list values) values /\ Forall (fun x => x <= py_max_list values) values.
Proof.
  destruct values as [| v values]; [congruence|]. intros _.
  apply fold_py_max_spec.
Qed.

Lemma py_min_list_spec (values : list Q) :
  values <> [] ->
  In (py_min_list values) values /\ Forall (fun x => py_min_list values <= x) values.
Proof.
  destruct values as [| v values]; [congruence|]. intros _.
  apply fold_py_min_spec.
Qed.

Lemma py_sum_map_ext {A : Type} (f g : A -> Q) (l : list A) :
  (forall x, f x == g x) -> py_sum (map f l) == py_sum (map g l).
Proof.
  intro Hfg. induction l as [| x l IH]; [reflexivity|].
  cbn [map]. rewrite !py_sum_cons, IH, Hfg. reflexivity.
Qed.

Lemma pvariance_spec (values : list Q) :
  values <> [] ->
  pvariance values
  == arithmetic_mean
       (map (fun v => (v - arithmetic_mean values) * (v - arithmetic_mean values))
            values).
Proof.
  intro Hne. unfold pvariance, mean.
  assert (Hm : py_sum values / py_len values == arithmetic_mean values)
    by (apply mean_of_list; exact Hne).
  rewrite <- mean_of_list by (destruct values; [congruence | discriminate]).
  unfold py_len. rewrite !length_map.
  apply Qmult_comp; [| reflexivity].
  apply py_sum_map_ext. intro x. rewrite Hm. reflexivity.
Qed.

(** The statistics dictionary of a non-empty timeline. *)
Lemma calculate_emotion_statistics_nonempty (np_sqrt : Q -> Q)
    (timeline : list EmotionFrame) :
  timeline <> [] ->
  let stats_of e :=
    let values := map (fun frame => emotion_value (ef_emotions frame) e) timeline in
    {| es_average := py_sum values / py_len values;
       es_max := py_max_list values;
       es_min := py_min_list values;
       es_std := np_sqrt (pvariance values) |} in
  calculate_emotion_statistics np_sqrt timeline
  = [("joy"%string, stats_of joy); ("sorrow"%string, stats_of sorrow);
     ("anger"%string, stats_of anger); ("surprise"%string, stats_of surprise)].
Proof.
  intros Hne stats_of. destruct timeline as [| frame timeline]; [congruence|].
  reflexivity.
Qed.

Lemma emotion_statistics_get (np_sqrt : Q -> Q)
    (timeline : list EmotionFrame) (e : emotion) :
  timeline <> [] -> In e [joy; sorrow; anger; surprise] ->
  dict_get (emotion_name e) (calculate_emotion_statistics np_sqrt timeline)
  = Some
      (let values := map (fun frame => emotion_value (ef_emotions frame) e) timeline in
       {| es_average := py_sum values / py_len values;
          es_max := py_max_list values;
          es_min := py_min_list values;
          es_std := np_sqrt (pvariance values) |}).
Proof.
  intros Hne He.
  rewrite (calculate_emotion_statistics_nonempty np_sqrt timeline Hne).
  destruct He as [<- | [<- | [<- | [<- | []]]]]; reflexivity.
Qed.

Lemma analyze_facial_expressions_fields (np_sqrt : Q -> Q) (Image : Type)
    (face_detection : Image -> result (list FaceAnnotation))
    (download : result (VideoCapture Image)) (fa : FacialAnalysis) :
  analyze_facial_expressions np_sqrt face_detection download = Ok fa ->
  fa_emotion_statistics fa
  = calculate_emotion_statistics np_sqrt (fa_emotion_timeline fa) /\
  fa_average_detection_confidence fa
  = match fa_emotion_timeline fa with
    | [] => 0
    | _ :: _ =>
        py_sum (map ef_detection_confidence (fa_emotion_timeline fa))
        / py_len (fa_emotion_timeline fa)
    end.
Proof.
  unfold analyze_facial_expressions.
  destruct download as [cap | e]; [| discriminate]. cbn [bind].
  destruct (extract_video_frames cap 1) as [frames | e]; [| discriminate].
  cbn [bind].
  destruct (emotion_loop face_detection frames []) as [timeline | e];
    [| discriminate].
  cbn [bind]. intro E. injection E as <-. split; reflexivity.
Qed.

(** C8 (as stated, refuted).  For a timeline of two frames the statistics
    cover joy, sorrow, anger and surprise only: under_exposed, blurred and
    headwear, which every frame of the timeline carries, have no entry. *)
Lemma statistics_cover_four_emotions :
  two_frame_timeline <> [] /\
  In headwear all_emotions /\
  dict_keys (calculate_emotion_statistics isqrt_Q two_frame_timeline)
  = ["joy"; "sorrow"; "anger"; "surprise"]%string /\
  dict_get (emotion_name headwear)
    (calculate_emotion_statistics isqrt_Q two_frame_timeline) = None /\
  dict_get (emotion_name blurred)
    (calculate_emotion_statistics isqrt_Q two_frame_timeline) = None /\
  dict_get (emotion_name under_exposed)
    (calculate_emotion_statistics isqrt_Q two_frame_timeline) = None.
Proof.
  split; [discriminate|]. split; [cbn; tauto|].
  repeat split; reflexivity.
Qed.

(** C8 (amended).  For every emotion timeline, the facial analysis computes
    per-emotion statistics {average, max, min, population standard
    deviation} for each emotion of the fixed list joy, sorrow, anger,
    surprise, and for no other key; when the timeline is empty, the
    statistics mapping is empty and average_detection_confidence is 0. *)
Theorem emotion_statistics_spec (np_sqrt : Q -> Q)
    (timeline : list EmotionFrame) :
  let stats := calculate_emotion_statistics np_sqrt timeline in
  (timeline = [] -> stats = []) /\
  (timeline <> [] ->
   dict_keys stats = map emotion_name [joy; sorrow; anger; surprise] /\
   forall e,
     In e [joy; sorrow; anger; surprise] ->
     let values := map (fun frame => emotion_value (ef_emotions frame) e) timeline in
     exists st,
       dict_get (emotion_name e) stats = Some st /\
       es_average st == arithmetic_mean values /\
       In (es_max st) values /\ Forall (fun v => v <= es_max st) values /\
       In (es_min st) values /\ Forall (fun v => es_min st <= v) values /\
       es_std st = np_sqrt (pvariance values) /\
       pvariance values
       == arithmetic_mean
            (map (fun v => (v - arithmetic_mean values)
                           * (v - arithmetic_mean values)) values)) /\
  (forall (Image : Type) (face_detection : Image -> result (list FaceAnnotation))
          (download : result (VideoCapture Image)) (fa : FacialAnalysis),
     analyze_facial_expressions np_sqrt face_detection download = Ok fa ->
     fa_emotion_statistics fa
     = calculate_emotion_statistics np_sqrt (fa_emotion_timeline fa) /\
     (fa_emotion_timeline fa = [] ->
      fa_emotion_statistics fa = [] /\ fa_average_detection_confidence fa = 0)).
Proof.
  intro stats. split; [| split].
  - intros ->. reflexivity.
  - intro Hne. split.
    { unfold stats.
      now rewrite (calculate_emotion_statistics_nonempty np_sqrt timeline Hne). }
    intros e He values.
    assert (Hv : values <> []).
    { unfold values. destruct timeline; [congruence | discriminate]. }
    eexists. split; [apply (emotion_statistics_get np_sqrt timeline e Hne He)|].
    cbn [es_average es_max es_min es_std]. fold values.
    pose proof (py_max_list_spec values Hv) as [Hmi Hmu].
    pose proof (py_min_list_spec values Hv) as [Hni Hnl].
    split; [apply mean_of_list; exact Hv|].
    repeat (split; [assumption|]).
    split; [reflexivity | apply pvariance_spec; exact Hv].
  - intros Image face_detection download fa E.
    apply analyze_facial_expressions_fields in E as [Hs Hc].
    split; [exact Hs|]. intro Hnil. rewrite Hs, Hc, Hnil. split; reflexivity.
Qed.

(** The amended C8 at work on the two-frame timeline: joy averages 0.5
    between 0.3 and 0.7; and a clip without faces gives empty statistics. *)
Lemma emotion_statistics_witness :
  calculate_emotion_statistics isqrt_Q [] = [] /\
  (exists st,
     dict_get "joy" (calculate_emotion_statistics isqrt_Q two_frame_timeline)
     = Some st /\
     es_average st == 0.5 /\ es_max st == 0.7 /\ es_min st == 0.3) /\
  (exists fa,
     analyze_facial_expressions isqrt_Q (fun _ : nat => Ok []) (Ok slow_clip)
     = Ok fa /\
     fa_emotion_statistics fa = [] /\
     fa_average_detection_confidence fa = 0).
Proof.
  destruct (emotion_statistics_spec isqrt_Q two_frame_timeline)
    as (_ & Hstats & Hfa).
  split; [apply (emotion_statistics_spec isqrt_Q []); reflexivity|].
  split.
  - destruct Hstats as [_ Hjoy]; [discriminate|].
    destruct (Hjoy joy (or_introl eq_refl)) as (st & Hget & Havg & _).
    exists st. split; [exact Hget|].
    split; [rewrite Havg; reflexivity|].
    cbn in Hget. injection Hget as <-. split; reflexivity.
  - eexists. split; [reflexivity|].
    refine (proj2 (Hfa nat (fun _ : nat => Ok []) (Ok slow_clip) _ eq_refl) eq_refl).
Defined.

(** * Further properties of the analysis code *)

(** ** Storage references *)

Lemma split_once_join (sep : ascii) (before after : string) :
  ~ In sep (list_ascii_of_string before) ->
  split_once sep (before ++ String sep after) = (before, Some after).
Proof.
  induction before as [| c before IH]; intro Hnot; cbn.
  - now rewrite Ascii.eqb_refl.
  - cbn in Hnot. destruct (Ascii.eqb c sep) eqn:E.
    + apply Ascii.eqb_eq in E. subst. exfalso. apply Hnot. now left.
    + rewrite IH; [reflexivity | tauto].
Qed.

Lemma split_once_whole (sep : ascii) (s : string) :
  ~ In sep (list_ascii_of_string s) -> split_once sep s = (s, None).
Proof.
  induction s as [| c s IH]; intro Hnot; cbn; [reflexivity|].
  cbn in Hnot. destruct (Ascii.eqb c sep) eqn:E.
  - apply Ascii.eqb_eq in E. subst. exfalso. apply Hnot. now left.
  - rewrite IH; [reflexivity | tauto].
Qed.

Lemma split_once_inv (sep : ascii) (s before : string) (after : option string) :
  split_once sep s = (before, after) ->
  ~ In sep (list_ascii_of_string before) /\
  s = match after with
      | Some rest => (before ++ String sep rest)%string
      | None => before
      end.
Proof.
  revert before after. induction s as [| c s IH]; intros before after; cbn.
  - intro E. injection E as <- <-. split; [intros [] | reflexivity].
  - destruct (Ascii.eqb c sep) eqn:Ec.
    + intro E. injection E as <- <-. apply Ascii.eqb_eq in Ec. subst.
      split; [intros [] | reflexivity].
    + destruct (split_once sep s) as [b a] eqn:Es. intro E. injection E as <- <-.
      destruct (IH b a eq_refl) as [Hnot Hs]. split.
      * cbn. intros [Hc | Hin]; [| tauto].
        subst. now rewrite Ascii.eqb_refl in Ec.
      * rewrite Hs at 1. destruct a; reflexivity.
Qed.

Lemma prefix_drop (p s : string) :
  String.prefix p s = true -> s = (p ++ drop_chars (String.length p) s)%string.
Proof.
  revert s. induction p as [| c p IH]; intros s.
  - destruct s; reflexivity.
  - destruct s as [| c' s]; cbn; [discriminate|].
    destruct (ascii_dec c c') as [-> | Hne]; [| discriminate].
    intro H. f_equal. now apply IH.
Qed.

(** X1.  A storage reference is accepted exactly when it starts with
    "gs://".  An accepted reference splits at the first "/" after the
    scheme: the bucket never contains "/", the reference is rebuilt from the
    two parts, and a reference without an object path gives the empty object
    name.  Building "gs://bucket/object" from a bucket without "/" and
    parsing it returns the two parts. *)
Theorem parse_gs_uri_round_trip (gs_uri bucket object_name : string) :
  (is_ok (_parse_gs_uri gs_uri) = String.prefix "gs://" gs_uri) /\
  (String.prefix "gs://" gs_uri = false -> _parse_gs_uri gs_uri = Err ValueError) /\
  (_parse_gs_uri gs_uri = Ok (bucket, object_name) ->
   ~ In "/"%char (list_ascii_of_string bucket) /\
   (gs_uri = ("gs://" ++ bucket ++ "/" ++ object_name)%string \/
    gs_uri = ("gs://" ++ bucket)%string /\ object_name = EmptyString)) /\
  (~ In "/"%char (list_ascii_of_string bucket) ->
   _parse_gs_uri ("gs://" ++ bucket ++ "/" ++ object_name) = Ok (bucket, object_name) /\
   _parse_gs_uri ("gs://" ++ bucket) = Ok (bucket, EmptyString)).
Proof.
  assert (Hempty : forall u, String.prefix "gs://" u = true ->
                             String.eqb u EmptyString = false).
  { intros [| c u]; [discriminate | reflexivity]. }
  split; [| split; [| split]].
  - unfold _parse_gs_uri.
    destruct (String.prefix "gs://" gs_uri) eqn:P.
    + rewrite (Hempty _ P). cbn [orb negb].
      now destruct (split_once "/" _) as [b [o |]].
    + now rewrite orb_true_r.
  - intro P. unfold _parse_gs_uri. rewrite P. now rewrite orb_true_r.
  - unfold _parse_gs_uri.
    destruct (String.prefix "gs://" gs_uri) eqn:P;
      [| rewrite orb_true_r; discriminate].
    rewrite (Hempty _ P). cbn [orb negb].
    pose proof (prefix_drop _ _ P) as Hu.
    destruct (split_once "/" _) as [b o] eqn:Es.
    apply split_once_inv in Es as [Hnot Hs].
    destruct o as [rest |]; intro E; injection E as <- <-.
    + split; [exact Hnot|]. left. rewrite Hu at 1. now rewrite Hs.
    + split; [exact Hnot|]. right. split; [| reflexivity].
      rewrite Hu at 1. now rewrite Hs.
  - intro Hnot.
    assert (P0 : forall s, String.prefix EmptyString s = true)
      by (intros []; reflexivity).
    split.
    + unfold _parse_gs_uri. cbn -[split_once]. rewrite P0. cbn [negb].
      now rewrite split_once_join.
    + unfold _parse_gs_uri. cbn -[split_once]. rewrite P0. cbn [negb].
      now rewrite split_once_whole.
Qed.

(** X1 at work on the reference of an uploaded recording. *)
Lemma parse_gs_uri_witness :
  _parse_gs_uri "gs://wingman-interview-videos/sessions/42/answer.webm"
  = Ok ("wingman-interview-videos", "sessions/42/answer.webm")%string /\
  _parse_gs_uri "https://example.com/answer.webm" = Err ValueError.
Proof.
  split.
  - apply (parse_gs_uri_round_trip EmptyString "wingman-interview-videos"
             "sessions/42/answer.webm").
    cbn. intuition discriminate.
  - apply (parse_gs_uri_round_trip "https://example.com/answer.webm"
             EmptyString EmptyString).
    reflexivity.
Defined.

(** ** The likelihood ladder *)

Lemma likelihood_range_of (l : Z) : 0 <= likelihood_to_score l <= 0.9.
Proof.
  destruct l as [| p | p]; [split; discriminate | | split; discriminate].
  do 3 (try destruct p as [p | p |]); split; discriminate.
Qed.

(** X2.  The likelihood ladder maps the levels 0 to 5 to 0, 0.1, 0.3, 0.5,
    0.7, 0.9, strictly increasing with the level, and every other level to
    0; a score is never above 0.9. *)
Theorem likelihood_ladder (l l' : Z) :
  In (likelihood_to_score l) [0; 0.1; 0.3; 0.5; 0.7; 0.9] /\
  0 <= likelihood_to_score l <= 0.9 /\
  ((l < 0 \/ 5 < l)%Z -> likelihood_to_score l = 0) /\
  ((0 <= l < l' /\ l' <= 5)%Z -> likelihood_to_score l < likelihood_to_score l').
Proof.
  assert (Hout : forall k, (k < 0 \/ 5 < k)%Z -> likelihood_to_score k = 0).
  { intros [| p | p] Hk; [lia | | reflexivity].
    do 3 (try destruct p as [p | p |]); try reflexivity; lia. }
  assert (Hin : forall k, (0 <= k <= 5)%Z ->
                          k = 0%Z \/ k = 1%Z \/ k = 2%Z \/ k = 3%Z \/ k = 4%Z \/ k = 5%Z)
    by (intros; lia).
  split; [| split; [| split]].
  - destruct (Z_le_dec 0 l) as [H0 | H0]; [destruct (Z_le_dec l 5) as [H5 | H5]|].
    + destruct (Hin l (conj H0 H5)) as [-> | [-> | [-> | [-> | [-> | ->]]]]];
        cbn; tauto.
    + rewrite Hout by lia. now left.
    + rewrite Hout by lia. now left.
  - destruct (Z_le_dec 0 l) as [H0 | H0]; [destruct (Z_le_dec l 5) as [H5 | H5]|].
    + destruct (Hin l (conj H0 H5)) as [-> | [-> | [-> | [-> | [-> | ->]]]]];
        split; discriminate.
    + rewrite Hout by lia. split; discriminate.
    + rewrite Hout by lia. split; discriminate.
  - apply Hout.
  - intros [[H0 Hlt] H5].
    destruct (Hin l ltac:(lia)) as [-> | [-> | [-> | [-> | [-> | ->]]]]];
      destruct (Hin l' ltac:(lia)) as [-> | [-> | [-> | [-> | [-> | ->]]]]];
      try lia; reflexivity.
Qed.

(** X2 at work: "likely" scores above "possible", and an unknown level 9
    scores 0. *)
Lemma likelihood_ladder_witness :
  likelihood_to_score 3 < likelihood_to_score 4 /\ likelihood_to_score 9 = 0.
Proof.
  split.
  - apply (likelihood_ladder 3 4). lia.
  - apply (likelihood_ladder 9 0). lia.
Defined.

(** ** Means of bounded values *)

Lemma py_len_cons {A : Type} (x : A) (l : list A) :
  py_len (x :: l) == 1 + py_len l.
Proof.
  unfold py_len. cbn [List.length]. rewrite Nat2Z.inj_succ.
  unfold Z.succ. rewrite inject_Z_plus. ring.
Qed.

Lemma py_sum_bounds (values : list Q) (a b : Q) :
  Forall (fun v => a <= v <= b) values ->
  a * py_len values <= py_sum values <= b * py_len values.
Proof.
  induction 1 as [| v values Hv Hall IH].
  - unfold py_sum, py_len. cbn [List.length fold_left Z.of_nat].
    change (inject_Z 0) with 0. lra.
  - rewrite py_sum_cons, py_len_cons. lra.
Qed.

Lemma mean_bounds (values : list Q) (a b : Q) :
  values <> [] ->
  Forall (fun v => a <= v <= b) values ->
  a <= py_sum values / py_len values <= b.
Proof.
  intros Hne Hall.
  pose proof (py_len_pos values Hne) as Hpos.
  pose proof (py_sum_bounds values a b Hall) as [Hlo Hhi].
  split.
  - apply Qle_shift_div_l; [exact Hpos | lra].
  - apply Qle_shift_div_r; [exact Hpos | lra].
Qed.

(** ** The per-frame loops of the vision branches *)

Section VisionLoops.

Variable Image : Type.
Variable face_detection : Image -> result (list FaceAnnotation).

Lemma emotion_loop_outcome (frames_data : list (FrameData Image))
    (emotion_timeline : list EmotionFrame) :
  emotion_loop face_detection frames_data emotion_timeline
  = match first_detection_error face_detection frames_data with
    | Some e => Err e
    | None =>
        Ok (emotion_timeline
            ++ map (fun p => emotion_frame_of (fst p) (snd p))
                   (frames_with_face face_detection frames_data))
    end.
Proof.
  revert emotion_timeline.
  induction frames_data as [| frame_data rest IH]; intro emotion_timeline.
  - cbn. now rewrite app_nil_r.
  - cbn [emotion_loop first_detection_error]. unfold frames_with_face.
    cbn [flat_map]. fold (frames_with_face face_detection rest).
    destruct (face_detection (fd_image frame_data)) as [[| face others] | e];
      cbn [bind]; [| | reflexivity]; rewrite IH;
      destruct (first_detection_error face_detection rest); try reflexivity.
    cbn [app map fst snd]. now rewrite <- app_assoc.
Qed.

Lemma head_pose_loop_outcome (frames_data : list (FrameData Image))
    (head_pose_timeline : list HeadPoseFrame) (eye_contact_estimates : list Q) :
  head_pose_loop face_detection frames_data head_pose_timeline
    eye_contact_estimates
  = match first_detection_error face_detection frames_data with
    | Some e => Err e
    | None =>
        let poses :=
          map (fun p => head_pose_frame_of (fst p) (snd p))
              (frames_with_face face_detection frames_data) in
        Ok (head_pose_timeline ++ poses,
            eye_contact_estimates ++ map hp_eye_contact_score poses)
    end.
Proof.
  revert head_pose_timeline eye_contact_estimates.
  induction frames_data as [| frame_data rest IH];
    intros head_pose_timeline eye_contact_estimates.
  - cbn. now rewrite !app_nil_r.
  - cbn [head_pose_loop first_detection_error]. unfold frames_with_face.
    cbn [flat_map]. fold (frames_with_face face_detection rest).
    destruct (face_detection (fd_image frame_data)) as [[| face others] | e];
      cbn [bind]; [| | reflexivity]; rewrite IH;
      destruct (first_detection_error face_detection rest); try reflexivity.
    cbn [app map fst snd hp_eye_contact_score head_pose_frame_of].
    now rewrite <- !app_assoc.
Qed.

Lemma frames_with_face_length (frames_data : list (FrameData Image)) :
  (List.length (frames_with_face face_detection frames_data)
   <= List.length frames_data)%nat.
Proof.
  induction frames_data as [| frame_data rest IH]; [cbn; lia|].
  unfold frames_with_face. cbn [flat_map].
  fold (frames_with_face face_detection rest). rewrite length_app.
  destruct (face_detection (fd_image frame_data)) as [[| face others] | e];
    cbn [List.length]; lia.
Qed.

Lemma frames_with_face_in (frames_data : list (FrameData Image))
    (frame_data : FrameData Image) (face : FaceAnnotation) :
  In (frame_data, face) (frames_with_face face_detection frames_data) <->
  In frame_data frames_data /\
  exists others, face_detection (fd_image frame_data) = Ok (face :: others).
Proof.
  unfold frames_with_face. rewrite in_flat_map. split.
  - intros (f & Hf & Hin).
    destruct (face_detection (fd_image f)) as [[| face' others] | e] eqn:E;
      try contradiction.
    destruct Hin as [Heq | []]. injection Heq as <- <-.
    split; [exact Hf | now exists others].
  - intros (Hf & others & E). exists frame_data. split; [exact Hf|].
    rewrite E. now left.
Qed.

Lemma first_detection_error_none (frames_data : list (FrameData Image)) :
  first_detection_error face_detection frames_data = None <->
  Forall (fun f => is_ok (face_detection (fd_image f)) = true) frames_data.
Proof.
  induction frames_data as [| frame_data rest IH];
    cbn [first_detection_error].
  - split; [constructor | reflexivity].
  - rewrite Forall_cons_iff.
    destruct (face_detection (fd_image frame_data)) as [faces | e]; cbn [is_ok].
    + rewrite IH. tauto.
    + split; [discriminate | intros [H _]; discriminate].
Qed.

End VisionLoops.

(** ** The facial branch *)

Lemma analyze_facial_expressions_outcome (np_sqrt : Q -> Q) (Image : Type)
    (face_detection : Image -> result (list FaceAnnotation))
    (cap : VideoCapture Image) :
  analyze_facial_expressions np_sqrt face_detection (Ok cap)
  = (frames_data <- extract_video_frames cap 1 ;;
     match first_detection_error face_detection frames_data with
     | Some e => Err e
     | None =>
         let emotion_timeline :=
           map (fun p => emotion_frame_of (fst p) (snd p))
               (frames_with_face face_detection frames_data) in
         Ok {| fa_emotion_timeline := emotion_timeline;
               fa_emotion_statistics :=
                 calculate_emotion_statistics np_sqrt emotion_timeline;
               fa_total_frames_analyzed :=
                 Z.of_nat (List.length emotion_timeline);
               fa_average_detection_confidence :=
                 match emotion_timeline with
                 | [] => 0
                 | _ :: _ =>
                     py_sum (map ef_detection_confidence emotion_timeline)
                     / py_len emotion_timeline
                 end |}
     end).
Proof.
  unfold analyze_facial_expressions. cbn [bind].
  destruct (extract_video_frames cap 1) as [frames_data | e]; [| reflexivity].
  cbn [bind]. rewrite emotion_loop_outcome.
  destruct (first_detection_error face_detection frames_data); reflexivity.
Qed.

(** X3.  The facial branch ends in the error of fetching the video, of the
    frame sampling, or of the first face detection that fails, and then
    reports nothing else.  Otherwise its timeline holds, in frame order, one
    entry for each sampled frame in which a face was detected, built from
    the first face; total_frames_analyzed is their number, never more than
    the number of sampled frames. *)
Theorem facial_branch_outcome (np_sqrt : Q -> Q) (Image : Type)
    (face_detection : Image -> result (list FaceAnnotation))
    (cap : VideoCapture Image) :
  (forall e, analyze_facial_expressions np_sqrt face_detection (Err e) = Err e) /\
  match extract_video_frames cap 1 with
  | Err e => analyze_facial_expressions np_sqrt face_detection (Ok cap) = Err e
  | Ok frames_data =>
      match first_detection_error face_detection frames_data with
      | Some e =>
          analyze_facial_expressions np_sqrt face_detection (Ok cap) = Err e
      | None =>
          exists fa,
            analyze_facial_expressions np_sqrt face_detection (Ok cap) = Ok fa /\
            fa_emotion_timeline fa
            = map (fun p => emotion_frame_of (fst p) (snd p))
                  (frames_with_face face_detection frames_data) /\
            fa_total_frames_analyzed fa
            = Z.of_nat (List.length (fa_emotion_timeline fa)) /\
            (fa_total_frames_analyzed fa <= Z.of_nat (List.length frames_data))%Z /\
            (forall frame_data face,
               In (frame_data, face) (frames_with_face face_detection frames_data)
               <-> In frame_data frames_data /\
                   exists others,
                     face_detection (fd_image frame_data) = Ok (face :: others))
      end
  end.
Proof.
  split; [reflexivity|].
  rewrite analyze_facial_expressions_outcome.
  destruct (extract_video_frames cap 1) as [frames_data | e]; [| reflexivity].
  cbn [bind].
  destruct (first_detection_error face_detection frames_data); [reflexivity|].
  eexists. split; [reflexivity|].
  cbn [fa_emotion_timeline fa_total_frames_analyzed].
  split; [reflexivity|]. split; [reflexivity|]. split.
  - rewrite length_map.
    pose proof (frames_with_face_length Image face_detection frames_data). lia.
  - intros frame_data face. apply frames_with_face_in.
Qed.

Lemma emotions_of_range (face : FaceAnnotation) (e : emotion) :
  0 <= emotion_value (emotions_of face) e <= 0.9.
Proof.
  destruct e; cbn [emotion_value emotions_of e_joy e_sorrow e_anger e_surprise
                   e_under_exposed e_blurred e_headwear];
    apply (likelihood_range_of _).
Qed.

Lemma min_mean_max (values : list Q) (a b : Q) :
  values <> [] ->
  Forall (fun v => a <= v <= b) values ->
  a <= py_min_list values /\
  py_min_list values <= py_sum values / py_len values /\
  py_sum values / py_len values <= py_max_list values /\
  py_max_list values <= b.
Proof.
  intros Hne Hall.
  destruct (py_min_list_spec values Hne) as [Hmin_in Hmin].
  destruct (py_max_list_spec values Hne) as [Hmax_in Hmax].
  rewrite Forall_forall in Hall.
  assert (Hboth : Forall (fun v => py_min_list values <= v <= py_max_list values)
                         values).
  { rewrite Forall_forall in *. intros v Hv. split; [now apply Hmin | now apply Hmax]. }
  pose proof (mean_bounds values _ _ Hne Hboth) as [Hlo Hhi].
  repeat split; try assumption.
  - now apply Hall.
  - now apply Hall.
Qed.

Lemma emotion_statistics_bounds (np_sqrt : Q -> Q)
    (timeline : list EmotionFrame) (a b : Q) (key : string) (st : EmotionStats) :
  Forall (fun frame => forall e, a <= emotion_value (ef_emotions frame) e <= b)
         timeline ->
  dict_get key (calculate_emotion_statistics np_sqrt timeline) = Some st ->
  a <= es_min st /\ es_min st <= es_average st /\
  es_average st <= es_max st /\ es_max st <= b.
Proof.
  intros Hall Hget.
  destruct timeline as [| frame timeline]; [discriminate|].
  set (tl := frame :: timeline) in *.
  assert (Hne : tl <> []) by discriminate.
  rewrite (calculate_emotion_statistics_nonempty np_sqrt tl Hne) in Hget.
  assert (Hv : forall e,
             let values := map (fun f => emotion_value (ef_emotions f) e) tl in
             values <> [] /\ Forall (fun v => a <= v <= b) values).
  { intro e. split; [discriminate|].
    apply Forall_map. revert Hall. apply Forall_impl. intros f Hf. apply Hf. }
  cbn [dict_get] in Hget.
  repeat match type of Hget with
         | (if ?c then _ else _) = _ => destruct c
         end;
    try discriminate; injection Hget as <-;
    first [ exact (min_mean_max _ a b (proj1 (Hv joy)) (proj2 (Hv joy)))
          | exact (min_mean_max _ a b (proj1 (Hv sorrow)) (proj2 (Hv sorrow)))
          | exact (min_mean_max _ a b (proj1 (Hv anger)) (proj2 (Hv anger)))
          | exact (min_mean_max _ a b (proj1 (Hv surprise)) (proj2 (Hv surprise))) ].
Qed.

(** X4.  In a report of the facial branch every emotion score of every
    timeline entry lies between 0 and 0.9; every statistics entry has
    0 <= min <= max <= 0.9, and an average between 0 and 1. *)
Theorem facial_scores_in_range (np_sqrt : Q -> Q) (Image : Type)
    (face_detection : Image -> result (list FaceAnnotation))
    (download : result (VideoCapture Image)) (fa : FacialAnalysis) :
  analyze_facial_expressions np_sqrt face_detection download = Ok fa ->
  Forall (fun frame => forall e, 0 <= emotion_value (ef_emotions frame) e <= 0.9)
         (fa_emotion_timeline fa) /\
  (forall key st,
     dict_get key (fa_emotion_statistics fa) = Some st ->
     0 <= es_min st /\ es_min st <= es_max st /\ es_max st <= 0.9 /\
     0 <= es_average st <= 1).
Proof.
  intro E.
  assert (Hrange : Forall (fun frame =>
                             forall e, 0 <= emotion_value (ef_emotions frame) e <= 0.9)
                          (fa_emotion_timeline fa)).
  { destruct download as [cap | e]; [| discriminate].
    rewrite analyze_facial_expressions_outcome in E.
    destruct (extract_video_frames cap 1) as [frames_data | e]; [| discriminate].
    cbn [bind] in E.
    destruct (first_detection_error face_detection frames_data); [discriminate|].
    injection E as <-. cbn [fa_emotion_timeline].
    apply Forall_map, Forall_forall. intros [frame_data face] _ e.
    apply emotions_of_range. }
  split; [exact Hrange|]. intros key st Hget.
  apply analyze_facial_expressions_fields in E as [Hs _].
  rewrite Hs in Hget.
  destruct (emotion_statistics_bounds np_sqrt _ 0 0.9 key st Hrange Hget)
    as (H0 & H1 & H2 & H3).
  repeat split; lra.
Qed.

(** X4 at work on a two-frame clip with a face in the first frame. *)
Lemma facial_scores_in_range_witness :
  exists fa st,
    analyze_facial_expressions isqrt_Q detect_even (Ok slow_clip) = Ok fa /\
    dict_get "joy" (fa_emotion_statistics fa) = Some st /\
    0 <= es_min st /\ es_max st <= 0.9 /\ es_average st <= 1.
Proof.
  eexists. eexists. split; [reflexivity|]. split; [reflexivity|].
  destruct (facial_scores_in_range isqrt_Q nat detect_even (Ok slow_clip) _ eq_refl)
    as [_ H].
  destruct (H "joy"%string _ eq_refl) as (H0 & _ & H9 & _ & H1).
  split; [| split]; assumption.
Defined.

Lemma isqrt_Q_nonneg (x : Q) : 0 <= isqrt_Q x.
Proof.
  unfold isqrt_Q, Qle. cbn. pose proof (Z.sqrt_nonneg (Qnum x * Z.pos (Qden x))). lia.
Qed.

Lemma isqrt_Q_zero (x : Q) : x == 0 -> isqrt_Q x == 0.
Proof.
  unfold isqrt_Q, Qeq. cbn. intro H.
  assert (Hn : Qnum x = 0%Z) by lia. rewrite Hn. reflexivity.
Qed.

Lemma estimate_eye_contact_range (pan tilt roll : Q) :
  0 <= estimate_eye_contact pan tilt roll <= 1.
Proof.
  unfold estimate_eye_contact.
  pose proof (Qabs_nonneg (pan - 0)). pose proof (Qabs_nonneg (tilt - 0)).
  pose proof (Qabs_nonneg (roll - 0)).
  split_clamps; div_consts; lra.
Qed.




Lemma pvariance_constant (values : list Q) (c : Q) :
  values <> [] -> Forall (fun v => v == c) values -> pvariance values == 0.
Proof.
  intros Hne Hall.
  assert (Hm : mean values == c).
  { unfold mean.
    assert (B : Forall (fun v => c <= v <= c) values).
    { revert Hall. apply Forall_impl. intros v Hv. lra. }
    pose proof (mean_bounds values c c Hne B). lra. }
  unfold pvariance.
  set (sq := map _ values).
  assert (Hsq : Forall (fun v => 0 <= v <= 0) sq).
  { unfold sq. apply Forall_map. revert Hall. apply Forall_impl.
    intros v Hv. rewrite Hm, Hv. split; ring_simplify; lra. }
  assert (Hne' : sq <> []) by (unfold sq; destruct values; [congruence | discriminate]).
  unfold mean. pose proof (mean_bounds sq 0 0 Hne' Hsq). lra.
Qed.

Lemma pvariance_nonempty_map {A : Type} (f : A -> Q) (l : list A) :
  l <> [] -> map f l <> [].
Proof. destruct l; [congruence | discriminate]. Qed.

Lemma calculate_consistency_nonneg (np_sqrt : Q -> Q) (values : list Q) :
  0 <= calculate_consistency np_sqrt values.
Proof.
  unfold calculate_consistency.
  destruct (List.length values <? 2)%nat; [discriminate|].
  destruct (Qeq_bool _ 0); [discriminate|].
  split_clamps; lra.
Qed.

Lemma consistency_range (np_sqrt : Q -> Q) (values : list Q) :
  (forall x, 0 <= np_sqrt x) -> Forall (fun v => 0 <= v) values ->
  0 <= calculate_consistency np_sqrt values <= 1.
Proof.
  intros Hsqrt Hnn. unfold calculate_consistency.
  destruct (List.length values <? 2)%nat; [split; discriminate|].
  destruct (Qeq_bool _ 0) eqn:Ez; [split; discriminate|].
  assert (Hmean : 0 < py_sum values / py_len values).
  { pose proof (mean_nonneg values Hnn) as H0.
    destruct (Qlt_le_dec 0 (py_sum values / py_len values)) as [H | H];
      [exact H|].
    assert (Hz : py_sum values / py_len values == 0) by lra.
    apply Qeq_bool_iff in Hz. congruence. }
  assert (Hcv : 0 <= np_std np_sqrt values / (py_sum values / py_len values)).
  { apply Qle_shift_div_l; [exact Hmean|]. unfold np_std.
    pose proof (Hsqrt (pvariance values)). lra. }
  split_clamps; lra.
Qed.

Lemma stability_range (np_sqrt : Q -> Q) (head_pose_timeline : list HeadPoseFrame) :
  (forall x, 0 <= np_sqrt x) ->
  0 <= calculate_head_stability np_sqrt head_pose_timeline <= 1.
Proof.
  intro Hsqrt. unfold calculate_head_stability.
  destruct head_pose_timeline as [| frame rest]; [split; discriminate|].
  unfold np_std.
  pose proof (Hsqrt (pvariance (map hp_pan_angle (frame :: rest)))).
  pose proof (Hsqrt (pvariance (map hp_tilt_angle (frame :: rest)))).
  pose proof (Hsqrt (pvariance (map hp_roll_angle (frame :: rest)))).
  split_clamps; div_consts; lra.
Qed.

(** X6.  The consistency score is 0 for fewer than 2 samples and when all
    samples are 0, and it is never negative.  When the square root of
    [np.std] is not negative, samples that are not negative give a score of
    at most 1; when it maps 0 to 0, two equal samples in (0, 1] give
    exactly 1. *)
Theorem consistency_edges_and_range (np_sqrt : Q -> Q) (values : list Q) (c : Q) :
  ((List.length values < 2)%nat -> calculate_consistency np_sqrt values = 0) /\
  (Forall (fun v => v == 0) values -> calculate_consistency np_sqrt values = 0) /\
  0 <= calculate_consistency np_sqrt values /\
  ((forall x, 0 <= np_sqrt x) -> Forall (fun v => 0 <= v) values ->
   calculate_consistency np_sqrt values <= 1) /\
  ((forall x, x == 0 -> np_sqrt x == 0) -> 0 < c -> c <= 1 ->
   calculate_consistency np_sqrt [c; c] == 1).
Proof.
  split; [| split; [| split; [| split]]].
  - unfold calculate_consistency.
    intro Hlen. apply Nat.ltb_lt in Hlen. now rewrite Hlen.
  - unfold calculate_consistency.
    intro Hall. destruct (List.length values <? 2)%nat eqn:Hlen; [reflexivity|].
    assert (Hne : values <> []) by (destruct values; [discriminate | discriminate]).
    assert (Hz : py_sum values / py_len values == 0).
    { assert (B : Forall (fun v => 0 <= v <= 0) values).
      { revert Hall. apply Forall_impl. intros v Hv. lra. }
      pose proof (mean_bounds values 0 0 Hne B). lra. }
    apply Qeq_bool_iff in Hz. now rewrite Hz.
  - pose proof (calculate_consistency_nonneg np_sqrt values). assumption.
  - intros Hsqrt Hnn. now apply consistency_range.
  - intros Hzero Hc Hc1. unfold calculate_consistency.
    change (List.length [c; c] <? 2)%nat with false. cbv iota.
    assert (Hmean : py_sum [c; c] / py_len [c; c] == c).
    { assert (B : Forall (fun v => c <= v <= c) [c; c])
        by (repeat constructor; lra).
      pose proof (mean_bounds [c; c] c c ltac:(discriminate) B). lra. }
    destruct (Qeq_bool _ 0) eqn:Ez.
    { apply Qeq_bool_iff in Ez. lra. }
    assert (Hstd : np_std np_sqrt [c; c] == 0).
    { unfold np_std. apply Hzero. apply (pvariance_constant [c; c] c);
        [discriminate | repeat constructor; reflexivity]. }
    assert (Hcv : np_std np_sqrt [c; c] / (py_sum [c; c] / py_len [c; c]) == 0).
    { rewrite Hstd. unfold Qdiv. ring. }
    split_clamps; lra.
Qed.

(** X6 at work: a single sample scores 0, samples that are all 0 score 0,
    two equal samples score 1. *)
Lemma consistency_witness :
  calculate_consistency isqrt_Q [0.8] = 0 /\
  calculate_consistency isqrt_Q [0; 0; 0] = 0 /\
  calculate_consistency isqrt_Q [0.8; 0.8] == 1 /\
  calculate_consistency isqrt_Q [0.2; 0.9] <= 1.
Proof.
  pose proof (consistency_edges_and_range isqrt_Q [0.8] 0.8)
    as (H1 & _ & _ & _ & H2).
  pose proof (consistency_edges_and_range isqrt_Q [0; 0; 0] 0.8)
    as (_ & H0 & _).
  pose proof (consistency_edges_and_range isqrt_Q [0.2; 0.9] 0.8)
    as (_ & _ & _ & H3 & _).
  split; [apply H1; cbn; lia|]. split; [| split].
  - apply H0. repeat constructor; reflexivity.
  - apply H2; [exact isqrt_Q_zero | reflexivity | discriminate].
  - apply H3; [exact isqrt_Q_nonneg|]. repeat constructor; discriminate.
Defined.

(** X7.  The head-stability score is 0 for an empty timeline.  When the
    square root of [np.std] is not negative the score lies in [0,1]; when it
    maps 0 to 0, a timeline of a single frame scores exactly 1. *)
Theorem head_stability_edges_and_range (np_sqrt : Q -> Q)
    (head_pose_timeline : list HeadPoseFrame) (frame : HeadPoseFrame) :
  calculate_head_stability np_sqrt [] = 0 /\
  ((forall x, 0 <= np_sqrt x) ->
   0 <= calculate_head_stability np_sqrt head_pose_timeline <= 1) /\
  ((forall x, x == 0 -> np_sqrt x == 0) ->
   calculate_head_stability np_sqrt [frame] == 1).
Proof.
  split; [reflexivity|]. split.
  - intro Hsqrt. now apply stability_range.
  - intro Hzero. unfold calculate_head_stability, np_std.
    assert (Hp : np_sqrt (pvariance (map hp_pan_angle [frame])) == 0).
    { apply Hzero, (pvariance_constant _ (hp_pan_angle frame)); [discriminate|].
      repeat constructor; reflexivity. }
    assert (Ht : np_sqrt (pvariance (map hp_tilt_angle [frame])) == 0).
    { apply Hzero, (pvariance_constant _ (hp_tilt_angle frame)); [discriminate|].
      repeat constructor; reflexivity. }
    assert (Hr : np_sqrt (pvariance (map hp_roll_angle [frame])) == 0).
    { apply Hzero, (pvariance_constant _ (hp_roll_angle frame)); [discriminate|].
      repeat constructor; reflexivity. }
    split_clamps; div_consts; lra.
Qed.

(** X7 at work: two frames with different poses score within [0,1], a
    single frame scores 1. *)
Lemma head_stability_witness :
  0 <= calculate_head_stability isqrt_Q
         [head_pose_frame_of joyful_face_frame joyful_face;
          head_pose_frame_of neutral_face_frame neutral_face] <= 1 /\
  calculate_head_stability isqrt_Q
    [head_pose_frame_of joyful_face_frame joyful_face] == 1.
Proof.
  split.
  - apply (head_stability_edges_and_range isqrt_Q _
             (head_pose_frame_of joyful_face_frame joyful_face)).
    exact isqrt_Q_nonneg.
  - apply (head_stability_edges_and_range isqrt_Q []).
    exact isqrt_Q_zero.
Defined.

Lemma analyze_confidence_metrics_outcome (np_sqrt : Q -> Q) (Image : Type)
    (face_detection : Image -> result (list FaceAnnotation))
    (cap : VideoCapture Image) :
  analyze_confidence_metrics np_sqrt face_detection (Ok cap)
  = (frames_data <- extract_video_frames cap 0.5 ;;
     match first_detection_error face_detection frames_data with
     | Some e => Err e
     | None =>
         let poses :=
           map (fun p => head_pose_frame_of (fst p) (snd p))
               (frames_with_face face_detection frames_data) in
         let estimates := map hp_eye_contact_score poses in
         let avg_eye_contact :=
           match estimates with
           | [] => 0
           | _ :: _ => py_sum estimates / py_len estimates
           end in
         Ok {| ca_head_pose_timeline := poses;
               ca_average_eye_contact_score := avg_eye_contact;
               ca_eye_contact_consistency :=
                 calculate_consistency np_sqrt estimates;
               ca_head_stability_score := calculate_head_stability np_sqrt poses;
               ca_confidence_score :=
                 calculate_confidence_score avg_eye_contact
                   (calculate_consistency np_sqrt estimates)
                   (calculate_head_stability np_sqrt poses) |}
     end).
Proof.
  unfold analyze_confidence_metrics. cbn [bind].
  destruct (extract_video_frames cap 0.5) as [frames_data | e]; [| reflexivity].
  cbn [bind]. rewrite head_pose_loop_outcome.
  destruct (first_detection_error face_detection frames_data); reflexivity.
Qed.

Lemma analyze_confidence_metrics_fields (np_sqrt : Q -> Q) (Image : Type)
    (face_detection : Image -> result (list FaceAnnotation))
    (download : result (VideoCapture Image)) (ca : ConfidenceAnalysis) :
  analyze_confidence_metrics np_sqrt face_detection download = Ok ca ->
  let poses := ca_head_pose_timeline ca in
  let estimates := map hp_eye_contact_score poses in
  Forall (fun frame =>
            hp_eye_contact_score frame
            = estimate_eye_contact (hp_pan_angle frame) (hp_tilt_angle frame)
                                   (hp_roll_angle frame)) poses /\
  ca_average_eye_contact_score ca
  = match estimates with
    | [] => 0
    | _ :: _ => py_sum estimates / py_len estimates
    end /\
  ca_eye_contact_consistency ca = calculate_consistency np_sqrt estimates /\
  ca_head_stability_score ca = calculate_head_stability np_sqrt poses /\
  ca_confidence_score ca
  = calculate_confidence_score (ca_average_eye_contact_score ca)
      (ca_eye_contact_consistency ca) (ca_head_stability_score ca).
Proof.
  intro E. destruct download as [cap | e]; [| discriminate].
  rewrite analyze_confidence_metrics_outcome in E.
  destruct (extract_video_frames cap 0.5) as [frames_data | e]; [| discriminate].
  cbn [bind] in E.
  destruct (first_detection_error face_detection frames_data); [discriminate|].
  injection E as <-.
  cbn [ca_head_pose_timeline ca_average_eye_contact_score
       ca_eye_contact_consistency ca_head_stability_score ca_confidence_score].
  split; [| repeat split; reflexivity].
  apply Forall_map, Forall_forall. intros [frame_data face] _. reflexivity.
Qed.

(** X8.  When the square root of [np.std] is not negative, a report of the
    confidence branch has every eye-contact score, their average, the
    eye-contact consistency, the head stability and the confidence score in
    [0,1]; the confidence score is
    0.5 average + 0.3 consistency + 0.2 stability.  When no sampled frame
    shows a face, the branch still succeeds and all four scores are 0. *)
Theorem confidence_report_in_range (np_sqrt : Q -> Q) (Image : Type)
    (face_detection : Image -> result (list FaceAnnotation))
    (download : result (VideoCapture Image)) (ca : ConfidenceAnalysis) :
  (forall x, 0 <= np_sqrt x) ->
  analyze_confidence_metrics np_sqrt face_detection download = Ok ca ->
  Forall (fun frame => 0 <= hp_eye_contact_score frame <= 1)
         (ca_head_pose_timeline ca) /\
  0 <= ca_average_eye_contact_score ca <= 1 /\
  0 <= ca_eye_contact_consistency ca <= 1 /\
  0 <= ca_head_stability_score ca <= 1 /\
  0 <= ca_confidence_score ca <= 1 /\
  ca_confidence_score ca
  == 0.5 * ca_average_eye_contact_score ca
     + 0.3 * ca_eye_contact_consistency ca
     + 0.2 * ca_head_stability_score ca /\
  (ca_head_pose_timeline ca = [] ->
   ca_average_eye_contact_score ca = 0 /\ ca_eye_contact_consistency ca = 0 /\
   ca_head_stability_score ca = 0 /\ ca_confidence_score ca == 0).
Proof.
  intros Hsqrt E.
  destruct (analyze_confidence_metrics_fields _ _ _ _ _ E)
    as (Hest & Havg & Hcons & Hstab & Hconf).
  set (poses := ca_head_pose_timeline ca) in *.
  set (estimates := map hp_eye_contact_score poses) in *.
  assert (Hrange : Forall (fun frame => 0 <= hp_eye_contact_score frame <= 1) poses).
  { revert Hest. apply Forall_impl. intros frame ->.
    apply estimate_eye_contact_range. }
  assert (Hvals : Forall (fun v => 0 <= v <= 1) estimates)
    by (apply Forall_map; exact Hrange).
  assert (Ha : 0 <= ca_average_eye_contact_score ca <= 1).
  { rewrite Havg. destruct estimates as [| v rest] eqn:Ee; [split; discriminate|].
    apply mean_bounds; [discriminate | exact Hvals]. }
  assert (Hc : 0 <= ca_eye_contact_consistency ca <= 1).
  { rewrite Hcons.
    pose proof (consistency_range np_sqrt estimates Hsqrt) as Hr.
    apply Hr. revert Hvals. apply Forall_impl. intros v Hv. lra. }
  assert (Hs : 0 <= ca_head_stability_score ca <= 1).
  { rewrite Hstab. apply (stability_range np_sqrt poses Hsqrt). }
  assert (Hformula : ca_confidence_score ca
                     == 0.5 * ca_average_eye_contact_score ca
                        + 0.3 * ca_eye_contact_consistency ca
                        + 0.2 * ca_head_stability_score ca).
  { rewrite Hconf. unfold calculate_confidence_score. ring. }
  split; [exact Hrange|]. split; [exact Ha|]. split; [exact Hc|].
  split; [exact Hs|]. split; [lra|]. split; [exact Hformula|].
  intro Hnil. unfold estimates in *. rewrite Hnil in *. cbn [map] in *.
  rewrite Hformula, Havg, Hcons, Hstab.
  repeat split; reflexivity.
Qed.

(** X8 at work on the four-frame clip with a face in every other frame. *)
Lemma confidence_report_witness :
  exists ca,
    analyze_confidence_metrics isqrt_Q detect_even (Ok short_clip) = Ok ca /\
    0 <= ca_confidence_score ca <= 1.
Proof.
  eexists. split; [reflexivity|].
  apply (confidence_report_in_range isqrt_Q nat detect_even (Ok short_clip) _
           isqrt_Q_nonneg eq_refl).
Defined.

(** ** Frame sampling: failures, positions and spacing *)

Lemma py_int_zero_iff (x : Q) : py_int x = 0%Z <-> -1 < x /\ x < 1.
Proof.
  unfold py_int, Qlt. destruct x as [n d]. cbn [Qnum Qden].
  rewrite Z.quot_small_iff by lia. lia.
Qed.

Lemma frame_numbers_snoc (first : Z) (n : nat) :
  frame_numbers first (S n) = frame_numbers first n ++ [(first + Z.of_nat n)%Z].
Proof.
  unfold frame_numbers. rewrite seq_S, map_app. reflexivity.
Qed.

Lemma frame_count_step (s n : Z) :
  (0 < s)%Z -> (0 <= n)%Z ->
  ((n + 1 + s - 1) / s
   = (n + s - 1) / s + (if n mod s =? 0 then 1 else 0))%Z /\
  (n mod s = 0 -> (n + s - 1) / s * s = n)%Z /\
  (0 <= (n + s - 1) / s)%Z.
Proof.
  intros Hs Hn.
  pose proof (Z.div_mod n s ltac:(lia)) as Hdm.
  pose proof (Z.mod_pos_bound n s Hs) as Hr.
  assert (Hq : (0 <= n / s)%Z) by (apply Z.div_pos; lia).
  destruct (n mod s =? 0)%Z eqn:E.
  - apply Z.eqb_eq in E.
    assert (H1 : ((n + s - 1) / s = n / s)%Z).
    { symmetry. apply (Z.div_unique _ _ _ (s - 1)); lia. }
    assert (H2 : ((n + 1 + s - 1) / s = n / s + 1)%Z).
    { symmetry. apply (Z.div_unique _ _ _ 0); lia. }
    rewrite H1, H2. repeat split; lia.
  - apply Z.eqb_neq in E.
    assert (H1 : ((n + s - 1) / s = n / s + 1)%Z).
    { symmetry. apply (Z.div_unique _ _ _ (n mod s - 1)); lia. }
    assert (H2 : ((n + 1 + s - 1) / s = n / s + 1)%Z).
    { symmetry. apply (Z.div_unique _ _ _ (n mod s)); lia. }
    rewrite H1, H2. repeat split; lia.
Qed.

Lemma filter_multiples (s : Z) (n : nat) :
  (0 < s)%Z ->
  filter (fun i => (i mod s =? 0)%Z) (frame_numbers 0 n)
  = map (fun k => (k * s)%Z)
        (frame_numbers 0 (Z.to_nat ((Z.of_nat n + s - 1) / s))).
Proof.
  intro Hs. induction n as [| n IH].
  - cbn [frame_numbers seq map filter Z.of_nat].
    replace ((0 + s - 1) / s)%Z with 0%Z; [reflexivity|].
    symmetry. apply Z.div_small. lia.
  - rewrite frame_numbers_snoc, filter_app, IH. cbn [filter]. rewrite Z.add_0_l.
    destruct (frame_count_step s (Z.of_nat n) Hs ltac:(lia)) as (Hstep & Hexact & Hnn).
    replace (Z.of_nat (S n) + s - 1)%Z with (Z.of_nat n + 1 + s - 1)%Z by lia.
    rewrite Hstep.
    destruct (Z.of_nat n mod s =? 0)%Z eqn:E.
    + apply Z.eqb_eq in E.
      replace (Z.to_nat ((Z.of_nat n + s - 1) / s + 1))
        with (S (Z.to_nat ((Z.of_nat n + s - 1) / s))) by lia.
      rewrite frame_numbers_snoc, map_app. cbn [map]. f_equal. f_equal.
      rewrite Z2Nat.id by lia. rewrite Z.add_0_l. symmetry. now apply Hexact.
    + rewrite Z.add_0_r, app_nil_r. reflexivity.
Qed.

Lemma nth_error_frame_numbers (first : Z) (n k : nat) :
  (k < n)%nat -> nth_error (frame_numbers first n) k = Some (first + Z.of_nat k)%Z.
Proof.
  intro Hk. unfold frame_numbers.
  rewrite nth_error_map, nth_error_seq.
  apply Nat.ltb_lt in Hk. rewrite Hk. reflexivity.
Qed.

Lemma extract_video_frames_ok {Image : Type} (cap : VideoCapture Image)
    (interval_seconds : Q) :
  py_int (cap_fps cap * interval_seconds) <> 0%Z ->
  extract_video_frames cap interval_seconds
  = Ok (sampled_frames (cap_fps cap) (py_int (cap_fps cap * interval_seconds))
          (cap_frames cap) 0).
Proof.
  intro Hstride. unfold extract_video_frames.
  rewrite read_frames_sampled; [reflexivity | exact Hstride |].
  intro Hz. apply Hstride. apply py_int_zero. rewrite Hz. ring.
Qed.

Lemma extract_video_frames_zero_stride {Image : Type} (cap : VideoCapture Image)
    (interval_seconds : Q) :
  py_int (cap_fps cap * interval_seconds) = 0%Z ->
  extract_video_frames cap interval_seconds
  = match cap_frames cap with
    | [] => Ok []
    | _ :: _ => Err ZeroDivisionError
    end.
Proof.
  intro Hstride. unfold extract_video_frames. rewrite Hstride.
  destruct (cap_frames cap); reflexivity.
Qed.

(** X9.  The frame sampler fails exactly when the stride
    int(frame_rate * interval) is 0, that is when the product lies strictly
    between -1 and 1, and the source has at least one frame; the failure is
    a division by zero.  A source without frames gives an empty list
    whatever the stride. *)
Theorem frame_sampler_failure (Image : Type) (cap : VideoCapture Image)
    (interval_seconds : Q) (e : exn) :
  (extract_video_frames cap interval_seconds = Err e
   <-> e = ZeroDivisionError /\
       (-1 < cap_fps cap * interval_seconds /\ cap_fps cap * interval_seconds < 1) /\
       cap_frames cap <> []) /\
  (cap_frames cap = [] -> extract_video_frames cap interval_seconds = Ok []).
Proof.
  split.
  - rewrite <- py_int_zero_iff.
    destruct (Z.eq_dec (py_int (cap_fps cap * interval_seconds)) 0) as [Hz | Hnz].
    + rewrite (extract_video_frames_zero_stride cap interval_seconds Hz).
      destruct (cap_frames cap) as [| frame rest].
      * split; [discriminate | intros (_ & _ & H); congruence].
      * split.
        -- intro E. injection E as <-. repeat split; [exact Hz | discriminate].
        -- intros (-> & _ & _). reflexivity.
    + rewrite (extract_video_frames_ok cap interval_seconds Hnz).
      split; [discriminate | intros (_ & Hz & _); contradiction].
  - intro Hnil. unfold extract_video_frames. rewrite Hnil. reflexivity.
Qed.

(** X9 at work: one frame per second sampled every half second fails, and
    a clip without frames does not. *)
Lemma frame_sampler_failure_witness :
  extract_video_frames slow_clip 0.5 = Err ZeroDivisionError /\
  extract_video_frames {| cap_fps := 1; cap_frames := @nil nat |} 0.5 = Ok [].
Proof.
  split.
  - apply (frame_sampler_failure nat slow_clip 0.5 ZeroDivisionError).
    repeat split; discriminate.
  - apply (frame_sampler_failure nat {| cap_fps := 1; cap_frames := [] |} 0.5
             ZeroDivisionError).
    reflexivity.
Defined.

Lemma sampled_frames_entries {Image : Type} (fps : Q) (stride : Z)
    (source : list Image) :
  Forall (fun fd =>
            fd_timestamp fd = inject_Z (fd_frame_number fd) / fps /\
            nth_error source (Z.to_nat (fd_frame_number fd)) = Some (fd_image fd))
         (sampled_frames fps stride source 0).
Proof.
  unfold sampled_frames. apply Forall_map, Forall_forall.
  intros [frame i] Hin. apply filter_In in Hin as [Hin _].
  cbn [fd_timestamp fd_frame_number fd_image fst snd].
  split; [reflexivity|].
  apply combine_frame_numbers in Hin as [_ Hn].
  now rewrite Z.sub_0_r in Hn.
Qed.

(** X10.  With a positive stride the sampler returns the frames numbered
    0, stride, 2 stride, ...: ceil(n / stride) of the n frames of the
    source, the k-th of them being frame k * stride of the source with
    timestamp k * stride / frame_rate. *)
Theorem sampled_frame_positions (Image : Type) (cap : VideoCapture Image)
    (interval_seconds : Q) :
  let fps := cap_fps cap in
  let stride := py_int (fps * interval_seconds) in
  let n := Z.of_nat (List.length (cap_frames cap)) in
  (0 < stride)%Z ->
  exists frames,
    extract_video_frames cap interval_seconds = Ok frames /\
    List.length frames = Z.to_nat ((n + stride - 1) / stride) /\
    forall k fd,
      nth_error frames k = Some fd ->
      fd_frame_number fd = (Z.of_nat k * stride)%Z /\
      fd_timestamp fd = inject_Z (Z.of_nat k * stride) / fps /\
      nth_error (cap_frames cap) (Z.to_nat (Z.of_nat k * stride))
      = Some (fd_image fd).
Proof.
  intros fps stride n Hstride.
  exists (sampled_frames fps stride (cap_frames cap) 0).
  split; [apply extract_video_frames_ok; fold fps; fold stride; lia|].
  pose proof (sampled_frame_numbers fps stride (cap_frames cap) 0) as Hnum.
  rewrite (filter_multiples stride _ Hstride) in Hnum. fold n in Hnum.
  split.
  - rewrite <- (length_map fd_frame_number), Hnum, length_map.
    unfold frame_numbers. now rewrite length_map, length_seq.
  - intros k fd Hk.
    assert (Hno : fd_frame_number fd = (Z.of_nat k * stride)%Z).
    { pose proof (map_nth_error fd_frame_number k _ Hk) as Hm.
      rewrite Hnum, nth_error_map in Hm.
      destruct (nth_error (frame_numbers 0 _) k) as [i |] eqn:Ei;
        [| discriminate].
      assert (Hlt : (k < List.length
                            (frame_numbers 0 (Z.to_nat ((n + stride - 1) / stride))))%nat)
        by (apply nth_error_Some; rewrite Ei; discriminate).
      unfold frame_numbers in Hlt. rewrite length_map, length_seq in Hlt.
      rewrite (nth_error_frame_numbers 0 _ k Hlt) in Ei.
      injection Ei as <-. cbn [option_map] in Hm. injection Hm as Hm. lia. }
    pose proof (sampled_frames_entries fps stride (cap_frames cap)) as Hall.
    rewrite Forall_forall in Hall.
    destruct (Hall fd (nth_error_In _ _ Hk)) as [Hts Himg].
    rewrite Hno in Hts, Himg. repeat split; assumption.
Qed.

(** X10 at work on the 40-frame clip at 29.97 frames per second: three
    samples, the third being frame 28. *)
Lemma sampled_frame_positions_witness :
  exists frames,
    extract_video_frames ntsc_clip 0.5 = Ok frames /\
    List.length frames = 3%nat /\
    option_map fd_frame_number (nth_error frames 2) = Some 28%Z.
Proof.
  destruct (sampled_frame_positions nat ntsc_clip 0.5) as (frames & E & Hlen & Hk);
    [reflexivity|].
  exists frames. split; [exact E|]. split; [exact Hlen|].
  destruct (nth_error frames 2) as [fd |] eqn:E2.
  - destruct (Hk 2%nat fd E2) as [Hno _]. cbn [option_map]. now rewrite Hno.
  - apply nth_error_None in E2. rewrite Hlen in E2. cbn in E2. lia.
Defined.

(** X11.  On a video with at least one frame, the confidence branch, which
    samples every 0.5 s, fails with a division by zero whenever the frame
    rate is below 2 frames per second, and the facial branch, which samples
    every second, whenever it is below 1, whatever the face detection
    returns.  From 1 up to 2 frames per second the facial branch still
    samples every frame. *)
Theorem low_frame_rate_branches (np_sqrt : Q -> Q) (Image : Type)
    (face_detection : Image -> result (list FaceAnnotation))
    (cap : VideoCapture Image) :
  cap_frames cap <> [] ->
  (-2 < cap_fps cap /\ cap_fps cap < 2 ->
   analyze_confidence_metrics np_sqrt face_detection (Ok cap)
   = Err ZeroDivisionError) /\
  (-1 < cap_fps cap /\ cap_fps cap < 1 ->
   analyze_facial_expressions np_sqrt face_detection (Ok cap)
   = Err ZeroDivisionError) /\
  (1 <= cap_fps cap /\ cap_fps cap < 2 ->
   exists frames_data,
     extract_video_frames cap 1 = Ok frames_data /\
     map fd_frame_number frames_data
     = frame_numbers 0 (List.length (cap_frames cap))).
Proof.
  intro Hne. split; [| split].
  - intros [Hlo Hhi].
    rewrite analyze_confidence_metrics_outcome,
      extract_video_frames_zero_stride.
    + destruct (cap_frames cap); [congruence | reflexivity].
    + apply py_int_zero_iff. split; lra.
  - intros [Hlo Hhi].
    rewrite analyze_facial_expressions_outcome,
      extract_video_frames_zero_stride.
    + destruct (cap_frames cap); [congruence | reflexivity].
    + apply py_int_zero_iff. split; lra.
  - intros [Hlo Hhi].
    assert (Hstride : py_int (cap_fps cap * 1) = 1%Z).
    { rewrite py_int_nonneg by lra.
      assert (H1 : (1 <= Qfloor (cap_fps cap * 1))%Z).
      { change 1%Z with (Qfloor 1) at 1. apply Qfloor_resp_le. lra. }
      assert (H2 : (Qfloor (cap_fps cap * 1) < 2)%Z).
      { rewrite Zlt_Qlt. pose proof (Qfloor_le (cap_fps cap * 1)).
        change (inject_Z 2) with 2. lra. }
      lia. }
    eexists. split; [apply extract_video_frames_ok; rewrite Hstride; lia|].
    rewrite sampled_frame_numbers, Hstride.
    rewrite <- (filter_ext (fun _ => true)).
    + clear. induction (frame_numbers 0 _) as [| x l IH]; [reflexivity|].
      cbn [filter]. now rewrite IH.
    + intro i. rewrite Z.mod_1_r. reflexivity.
Qed.

(** X11 at work on the two-frame clip at one frame per second. *)
Lemma low_frame_rate_witness :
  analyze_confidence_metrics isqrt_Q detect_even (Ok slow_clip)
  = Err ZeroDivisionError /\
  analyze_facial_expressions isqrt_Q detect_even
    (Ok {| cap_fps := 0.5; cap_frames := [0; 1]%nat |})
  = Err ZeroDivisionError /\
  exists frames_data,
    extract_video_frames slow_clip 1 = Ok frames_data /\
    map fd_frame_number frames_data = [0; 1]%Z.
Proof.
  split; [| split].
  - apply (low_frame_rate_branches isqrt_Q nat detect_even slow_clip);
      [discriminate | split; reflexivity].
  - apply (low_frame_rate_branches isqrt_Q nat detect_even
             {| cap_fps := 0.5; cap_frames := [0; 1]%nat |});
      [discriminate | split; reflexivity].
  - apply (low_frame_rate_branches isqrt_Q nat detect_even slow_clip);
      [discriminate | split; [discriminate | reflexivity]].
Defined.

(** ** The speech branch *)

Lemma analyze_speech_inv (np_sqrt : Q -> Q) (filler_words : list string)
    (recognize : result (list SpeechResult)) (sa : SpeechAnalysis) :
  analyze_speech np_sqrt filler_words recognize = Ok sa ->
  exists response,
    recognize = Ok response /\
    forallb has_alternative response = true /\
    let words := recognized_words response in
    let wts := map timestamp_of words in
    let n := Z.of_nat (List.length words) in
    let fillers := count_fillers filler_words words in
    sa_transcript sa = join " " (first_transcripts response) /\
    sa_total_words sa = n /\
    sa_total_duration_seconds sa = total_duration_of wts /\
    sa_words_per_minute sa = words_per_minute_of n (total_duration_of wts) /\
    sa_filler_count sa = fillers /\
    sa_filler_percentage sa = filler_percentage_of fillers n /\
    sa_filler_details sa = get_filler_word_details filler_words wts /\
    analyze_pacing_variations np_sqrt wts = Ok (sa_pacing_analysis sa) /\
    sa_clarity_score sa
    = calculate_clarity_score (sa_filler_percentage sa) (sa_words_per_minute sa) /\
    sa_word_timestamps sa = wts.
Proof.
  intro E. destruct recognize as [response | e]; [| discriminate].
  exists response. split; [reflexivity|].
  destruct (forallb has_alternative response) eqn:Hall.
  - split; [reflexivity|].
    destruct (analyze_speech_ok np_sqrt filler_words response Hall)
      as (p & Hp & E').
    rewrite E' in E. injection E as <-. cbn. repeat split; try reflexivity.
    exact Hp.
  - rewrite (proj2 (analyze_speech_err np_sqrt filler_words) response Hall) in E.
    discriminate.
Qed.

(** X12.  The speech branch fails with the error of the recognition when
    the recognition fails, and with an index error exactly when some result
    of the response has no alternative, whatever the other results hold;
    otherwise it succeeds, and its transcript is the first alternatives'
    transcripts joined by single spaces. *)
Theorem speech_branch_outcome (np_sqrt : Q -> Q) (filler_words : list string)
    (response : list SpeechResult) :
  (forall e, analyze_speech np_sqrt filler_words (Err e) = Err e) /\
  (analyze_speech np_sqrt filler_words (Ok response) = Err IndexError
   <-> exists r, In r response /\ alternatives r = []) /\
  ((forall r, In r response -> alternatives r <> []) ->
   exists sa,
     analyze_speech np_sqrt filler_words (Ok response) = Ok sa /\
     sa_transcript sa = join " " (first_transcripts response) /\
     List.length (sa_word_timestamps sa)
     = List.length (recognized_words response)).
Proof.
  assert (Hchar : forallb has_alternative response = true
                  <-> forall r, In r response -> alternatives r <> []).
  { rewrite forallb_forall. unfold has_alternative.
    split; intros H r Hr; specialize (H r Hr);
      destruct (alternatives r); congruence. }
  split; [reflexivity|]. split.
  - destruct (forallb has_alternative response) eqn:Hall.
    + destruct (analyze_speech_ok np_sqrt filler_words response Hall)
        as (p & _ & E). rewrite E. split; [discriminate|].
      intros (r & Hr & Hnil). exfalso. exact (proj1 Hchar eq_refl r Hr Hnil).
    + split; [| intros _;
                apply (proj2 (analyze_speech_err np_sqrt filler_words)); exact Hall].
      intros _.
      assert (Hex : exists r, In r response /\ has_alternative r = false).
      { clear -Hall. induction response as [| r rest IH]; [discriminate|].
        cbn in Hall. apply andb_false_iff in Hall as [Hr | Hrest].
        - exists r. split; [now left | exact Hr].
        - destruct (IH Hrest) as (r' & Hin & Hr'). exists r'.
          split; [now right | exact Hr']. }
      destruct Hex as (r & Hin & Hr). exists r. split; [exact Hin|].
      unfold has_alternative in Hr. destruct (alternatives r); [reflexivity | discriminate].
  - intro Hall. apply Hchar in Hall.
    destruct (analyze_speech_ok np_sqrt filler_words response Hall)
      as (p & _ & E).
    eexists. split; [exact E|]. cbn [sa_transcript sa_word_timestamps].
    split; [reflexivity | apply length_map].
Qed.

(** X12 at work: the scenario response is analyzed, and a response whose
    second result has no alternative is not. *)
Lemma speech_branch_outcome_witness :
  (exists sa,
     analyze_speech isqrt_Q FILLER_WORDS (Ok scenario_response) = Ok sa /\
     sa_transcript sa = "um so I think uh I did well"%string) /\
  analyze_speech isqrt_Q FILLER_WORDS
    (Ok (scenario_response ++ [{| alternatives := [] |}]))
  = Err IndexError.
Proof.
  split.
  - destruct (speech_branch_outcome isqrt_Q FILLER_WORDS scenario_response)
      as (_ & _ & H).
    destruct H as (sa & E & Ht & _).
    + intros r [<- | []]. discriminate.
    + exists sa. split; [exact E | rewrite Ht; reflexivity].
  - apply (speech_branch_outcome isqrt_Q FILLER_WORDS
             (scenario_response ++ [{| alternatives := [] |}])).
    exists {| alternatives := [] |}. split; [| reflexivity].
    apply in_or_app. right. now left.
Defined.

Lemma calculate_clarity_score_range (filler_percentage words_per_minute : Q) :
  0 <= calculate_clarity_score filler_percentage words_per_minute <= 1.
Proof.
  rewrite clarity_score_clamped.
  pose proof (wpm_score_range words_per_minute).
  pose proof (filler_score_nonneg filler_percentage).
  split_clamps; lra.
Qed.

Lemma count_fillers_bounds (filler_words : list string) (words : list WordInfo) :
  (0 <= count_fillers filler_words words <= Z.of_nat (List.length words))%Z.
Proof.
  unfold count_fillers.
  pose proof (filter_length_le (is_filler filler_words) words). lia.
Qed.

Lemma filler_details_of_words (filler_words : list string) (words : list WordInfo) :
  get_filler_word_details filler_words (map timestamp_of words)
  = map (fun w => {| fd_word := normalize_word (wi_word w);
                     fd_time := wi_start_time w;
                     fd_duration := wi_end_time w - wi_start_time w |})
        (filter (is_filler filler_words) words).
Proof.
  unfold get_filler_word_details. rewrite filter_map_swap, map_map.
  reflexivity.
Qed.

(** X13.  In a report of the speech branch the filler details list exactly
    the counted fillers: it has filler_count entries, in the order of the
    recognized words, each carrying a word of the filler list together with
    the start time and the duration (end - start) of a recognized word. *)
Theorem filler_details_match_count (np_sqrt : Q -> Q) (filler_words : list string)
    (recognize : result (list SpeechResult)) (sa : SpeechAnalysis) :
  analyze_speech np_sqrt filler_words recognize = Ok sa ->
  Z.of_nat (List.length (sa_filler_details sa)) = sa_filler_count sa /\
  (sa_filler_count sa <= sa_total_words sa)%Z /\
  map fd_word (sa_filler_details sa)
  = filter (fun w => str_in w filler_words) (map word (sa_word_timestamps sa)) /\
  Forall (fun d =>
            In (fd_word d) filler_words /\
            exists wt,
              In wt (sa_word_timestamps sa) /\
              fd_word d = word wt /\ fd_time d = start_time wt /\
              fd_duration d = end_time wt - start_time wt)
         (sa_filler_details sa).
Proof.
  intro E. apply analyze_speech_inv in E as (response & _ & _ & H).
  cbn zeta in H.
  destruct H as (_ & Hn & _ & _ & Hc & _ & Hd & _ & _ & Hw).
  rewrite Hd, Hc, Hn, Hw, filler_details_of_words.
  split; [rewrite length_map; reflexivity|].
  split; [apply count_fillers_bounds|]. split.
  - rewrite !map_map, filter_map_swap. reflexivity.
  - apply Forall_map, Forall_forall. intros w Hin.
    apply filter_In in Hin as [Hin Hf].
    cbn [fd_word fd_time fd_duration]. split.
    + apply str_in_In. exact Hf.
    + exists (timestamp_of w). split; [now apply in_map|].
      repeat split; reflexivity.
Qed.

(** X13 at work on the scenario response: four details for four counted
    fillers. *)
Lemma filler_details_witness :
  exists sa,
    analyze_speech isqrt_Q FILLER_WORDS (Ok scenario_response) = Ok sa /\
    Z.of_nat (List.length (sa_filler_details sa)) = sa_filler_count sa /\
    sa_filler_count sa = 4%Z.
Proof.
  destruct (analyze_speech isqrt_Q FILLER_WORDS (Ok scenario_response))
    as [sa | e] eqn:E; [| vm_compute in E; discriminate].
  exists sa. split; [reflexivity|].
  pose proof (filler_details_match_count isqrt_Q FILLER_WORDS
                (Ok scenario_response) sa E) as (Hlen & _).
  split; [exact Hlen|].
  vm_compute in E. injection E as <-. reflexivity.
Defined.

(** X14.  In a report of the speech branch total_words is the number of
    word timings, every word timing has duration = end_time - start_time,
    the filler percentage lies in [0,100], words_per_minute is never
    negative and is 0 when the total duration is not positive, and the
    clarity score lies in [0,1]. *)
Theorem speech_report_ranges (np_sqrt : Q -> Q) (filler_words : list string)
    (recognize : result (list SpeechResult)) (sa : SpeechAnalysis) :
  analyze_speech np_sqrt filler_words recognize = Ok sa ->
  sa_total_words sa = Z.of_nat (List.length (sa_word_timestamps sa)) /\
  Forall (fun wt => duration wt = end_time wt - start_time wt)
         (sa_word_timestamps sa) /\
  0 <= sa_filler_percentage sa <= 100 /\
  0 <= sa_words_per_minute sa /\
  (sa_total_duration_seconds sa <= 0 -> sa_words_per_minute sa = 0) /\
  0 <= sa_clarity_score sa <= 1.
Proof.
  intro E. apply analyze_speech_inv in E as (response & _ & _ & H).
  cbn zeta in H.
  destruct H as (_ & Hn & Hdur & Hwpm & Hc & Hp & _ & _ & Hcl & Hw).
  set (words := recognized_words response) in *.
  pose proof (count_fillers_bounds filler_words words) as [Hc0 Hcn].
  split; [rewrite Hn, Hw, length_map; reflexivity|]. split.
  { rewrite Hw. apply Forall_map, Forall_forall. intros w _. reflexivity. }
  split.
  { rewrite Hp. unfold filler_percentage_of.
    destruct (0 <? Z.of_nat (List.length words))%Z eqn:Hpos; [| split; discriminate].
    apply Z.ltb_lt in Hpos.
    assert (Hq : 0 < inject_Z (Z.of_nat (List.length words))).
    { change 0 with (inject_Z 0). rewrite <- Zlt_Qlt. exact Hpos. }
    assert (Hq0 : 0 <= inject_Z (count_fillers filler_words words)).
    { change 0 with (inject_Z 0). rewrite <- Zle_Qle. exact Hc0. }
    assert (Hqn : inject_Z (count_fillers filler_words words)
                  <= inject_Z (Z.of_nat (List.length words))).
    { rewrite <- Zle_Qle. exact Hcn. }
    assert (Hr0 : 0 <= inject_Z (count_fillers filler_words words)
                       / inject_Z (Z.of_nat (List.length words))).
    { apply Qle_shift_div_l; [exact Hq | lra]. }
    assert (Hr1 : inject_Z (count_fillers filler_words words)
                  / inject_Z (Z.of_nat (List.length words)) <= 1).
    { apply Qle_shift_div_r; [exact Hq | lra]. }
    split; lra. }
  split.
  { rewrite Hwpm. unfold words_per_minute_of.
    destruct (Qltb 0 _) eqn:Hd; [| discriminate].
    apply Qltb_true in Hd.
    assert (Hq0 : 0 <= inject_Z (Z.of_nat (List.length words))).
    { change 0 with (inject_Z 0). rewrite <- Zle_Qle. lia. }
    assert (Hr0 : 0 <= inject_Z (Z.of_nat (List.length words))
                       / total_duration_of (map timestamp_of words)).
    { apply Qle_shift_div_l; [exact Hd | lra]. }
    lra. }
  split.
  { intro Hle. rewrite Hwpm. unfold words_per_minute_of. rewrite <- Hdur.
    assert (Hf : Qltb 0 (sa_total_duration_seconds sa) = false)
      by (apply Qltb_false; exact Hle).
    now rewrite Hf. }
  rewrite Hcl. apply calculate_clarity_score_range.
Qed.

(** X14 at work on the scenario response. *)
Lemma speech_report_ranges_witness :
  exists sa,
    analyze_speech isqrt_Q FILLER_WORDS (Ok scenario_response) = Ok sa /\
    0 <= sa_filler_percentage sa <= 100 /\
    0 <= sa_clarity_score sa <= 1.
Proof.
  destruct (analyze_speech isqrt_Q FILLER_WORDS (Ok scenario_response))
    as [sa | e] eqn:E; [| vm_compute in E; discriminate].
  exists sa. split; [reflexivity|].
  destruct (speech_report_ranges isqrt_Q FILLER_WORDS (Ok scenario_response) sa E)
    as (_ & _ & Hp & _ & _ & Hc).
  split; assumption.
Defined.

(** ** Pacing report *)

Lemma analyze_pacing_variations_stats (np_sqrt : Q -> Q)
    (wts : list WordTimestamp) :
  (10 <= List.length wts)%nat ->
  let timeline := map (window_wpm_at wts) (seq 0 (List.length wts - 9)) in
  let avg := py_sum timeline / py_len timeline in
  analyze_pacing_variations np_sqrt wts
  = Ok (PacingStats avg (np_std np_sqrt timeline)
          (if Qltb 0 avg then py_max 0 (1 - np_std np_sqrt timeline / avg) else 0)
          timeline).
Proof.
  intros Hlen timeline avg. unfold analyze_pacing_variations.
  assert (Hge : (List.length wts <? 10)%nat = false) by (apply Nat.ltb_ge; lia).
  rewrite Hge.
  replace (List.length wts - 10 + 1)%nat with (List.length wts - 9)%nat by lia.
  rewrite window_loop_ok.
  2:{ apply Forall_forall. intros i Hi. apply in_seq in Hi. lia. }
  cbn [app bind]. fold timeline.
  assert (Hne : timeline <> []).
  { unfold timeline. destruct (List.length wts - 9)%nat eqn:E; [lia | discriminate]. }
  pose proof (py_len_pos timeline Hne) as Hpos.
  unfold py_div. destruct (Qeq_bool (py_len timeline) 0) eqn:Ez.
  { apply Qeq_bool_iff in Ez. lra. }
  reflexivity.
Qed.

(** X15.  When the square root of [np.std] is not negative, a numeric
    pacing report has one window value per starting position, that is
    (number of words - 9) values, none of them negative, a non-negative
    average and deviation, and a pacing consistency in [0,1]. *)
Theorem pacing_report_ranges (np_sqrt : Q -> Q) (wts : list WordTimestamp)
    (average_wpm wpm_std pacing_consistency : Q) (wpm_timeline : list Q) :
  (forall x, 0 <= np_sqrt x) ->
  analyze_pacing_variations np_sqrt wts
  = Ok (PacingStats average_wpm wpm_std pacing_consistency wpm_timeline) ->
  (10 <= List.length wts)%nat /\
  List.length wpm_timeline = (List.length wts - 9)%nat /\
  Forall (fun v => 0 <= v) wpm_timeline /\
  0 <= average_wpm /\
  0 <= wpm_std /\
  0 <= pacing_consistency <= 1.
Proof.
  intros Hsqrt E.
  destruct (Nat.lt_ge_cases (List.length wts) 10) as [Hlt | Hge].
  { unfold analyze_pacing_variations in E. apply Nat.ltb_lt in Hlt.
    rewrite Hlt in E. discriminate. }
  rewrite (analyze_pacing_variations_stats np_sqrt wts Hge) in E.
  cbn zeta in E. injection E as <- <- <- <-.
  set (timeline := map (window_wpm_at wts) (seq 0 (List.length wts - 9))).
  assert (Hnn : Forall (fun v => 0 <= v) timeline).
  { unfold timeline. apply Forall_map, Forall_forall. intros i _.
    apply window_wpm_at_nonneg. }
  pose proof (mean_nonneg timeline Hnn) as Havg.
  pose proof (Hsqrt (pvariance timeline)) as Hstd.
  split; [exact Hge|]. split.
  { unfold timeline. now rewrite length_map, length_seq. }
  split; [exact Hnn|]. split; [exact Havg|]. split; [exact Hstd|].
  destruct (Qltb 0 (py_sum timeline / py_len timeline)) eqn:Hpos;
    [| split; discriminate].
  apply Qltb_true in Hpos.
  assert (Hcv : 0 <= np_std np_sqrt timeline / (py_sum timeline / py_len timeline)).
  { apply Qle_shift_div_l; [exact Hpos|]. unfold np_std. lra. }
  split_clamps; lra.
Qed.

(** X15 at work on twelve evenly spoken words. *)
Lemma pacing_report_ranges_witness :
  exists average_wpm wpm_std pacing_consistency wpm_timeline,
    analyze_pacing_variations isqrt_Q (steady_words 12)
    = Ok (PacingStats average_wpm wpm_std pacing_consistency wpm_timeline) /\
    List.length wpm_timeline = 3%nat /\
    0 <= pacing_consistency <= 1.
Proof.
  eexists _, _, _, _. split; [reflexivity|].
  destruct (pacing_report_ranges isqrt_Q (steady_words 12) _ _ _ _
              isqrt_Q_nonneg eq_refl) as (_ & Hl & _ & _ & _ & Hc).
  split; [exact Hl | exact Hc].
Defined.

(** ** Grades *)

Lemma score_to_grade_cases (score : Q) :
  (0.9 <= score /\ score_to_grade score = "A+"%string) \/
  (0.85 <= score < 0.9 /\ score_to_grade score = "A"%string) \/
  (0.8 <= score < 0.85 /\ score_to_grade score = "A-"%string) \/
  (0.75 <= score < 0.8 /\ score_to_grade score = "B+"%string) \/
  (0.7 <= score < 0.75 /\ score_to_grade score = "B"%string) \/
  (0.65 <= score < 0.7 /\ score_to_grade score = "B-"%string) \/
  (0.6 <= score < 0.65 /\ score_to_grade score = "C+"%string) \/
  (0.55 <= score < 0.6 /\ score_to_grade score = "C"%string) \/
  (0.5 <= score < 0.55 /\ score_to_grade score = "C-"%string) \/
  (0.45 <= score < 0.5 /\ score_to_grade score = "D+"%string) \/
  (0.4 <= score < 0.45 /\ score_to_grade score = "D"%string) \/
  (score < 0.4 /\ score_to_grade score = "F"%string).
Proof.
  unfold score_to_grade.
  repeat match goal with
         | |- context [if Qle_bool ?t score then ?a else _] =>
             lazymatch a with
             | context [Qle_bool] => fail
             | _ =>
                 let H := fresh "H" in
                 destruct (Qle_bool t score) eqn:H;
                 [apply Qle_bool_iff in H; tauto
                 | assert (score < t)
                     by (apply Qnot_le_lt; intro Hc; apply Qle_bool_iff in Hc;
                         congruence);
                   clear H]
             end
         end.
  tauto.
Qed.

(** X16.  Grades follow the score: a higher score never gets a lower grade,
    equal scores get the same grade, the grade is F exactly below 0.4 and
    A+ exactly from 0.9 on, and a score on a threshold gets the higher
    grade. *)
Theorem grade_monotone (score score' : Q) :
  (score <= score' ->
   (grade_rank (score_to_grade score) <= grade_rank (score_to_grade score'))%nat) /\
  (score == score' -> score_to_grade score = score_to_grade score') /\
  (score_to_grade score = "F"%string <-> score < 0.4) /\
  (score_to_grade score = "A+"%string <-> 0.9 <= score) /\
  map score_to_grade [0.4; 0.45; 0.5; 0.55; 0.6; 0.65; 0.7; 0.75; 0.8; 0.85; 0.9]
  = ["D"; "D+"; "C-"; "C"; "C+"; "B-"; "B"; "B+"; "A-"; "A"; "A+"]%string.
Proof.
  assert (Hmono : forall s s', s <= s' ->
            (grade_rank (score_to_grade s) <= grade_rank (score_to_grade s'))%nat).
  { intros s s' Hle.
    destruct (score_to_grade_cases s)
      as [[? ->]|[[? ->]|[[? ->]|[[? ->]|[[? ->]|[[? ->]|[[? ->]|[[? ->]|[[? ->]|
          [[? ->]|[[? ->]|[? ->]]]]]]]]]]]];
      destruct (score_to_grade_cases s')
        as [[? ->]|[[? ->]|[[? ->]|[[? ->]|[[? ->]|[[? ->]|[[? ->]|[[? ->]|[[? ->]|
            [[? ->]|[[? ->]|[? ->]]]]]]]]]]]];
      cbn; try lia; exfalso; lra. }
  split; [apply Hmono|]. split; [| split; [| split]].
  - intro Heq.
    destruct (score_to_grade_cases score)
      as [[? ->]|[[? ->]|[[? ->]|[[? ->]|[[? ->]|[[? ->]|[[? ->]|[[? ->]|[[? ->]|
          [[? ->]|[[? ->]|[? ->]]]]]]]]]]]];
      destruct (score_to_grade_cases score')
        as [[? ->]|[[? ->]|[[? ->]|[[? ->]|[[? ->]|[[? ->]|[[? ->]|[[? ->]|[[? ->]|
            [[? ->]|[[? ->]|[? ->]]]]]]]]]]]];
      try reflexivity; exfalso; lra.
  - destruct (score_to_grade_cases score)
      as [[? ->]|[[? ->]|[[? ->]|[[? ->]|[[? ->]|[[? ->]|[[? ->]|[[? ->]|[[? ->]|
          [[? ->]|[[? ->]|[? ->]]]]]]]]]]]];
      split; intro; try discriminate; try reflexivity; try assumption; lra.
  - destruct (score_to_grade_cases score)
      as [[? ->]|[[? ->]|[[? ->]|[[? ->]|[[? ->]|[[? ->]|[[? ->]|[[? ->]|[[? ->]|
          [[? ->]|[[? ->]|[? ->]]]]]]]]]]]];
      split; intro; try discriminate; try reflexivity; try assumption; lra.
  - reflexivity.
Qed.

(** X16 at work: 0.62 is a C+, not above the B+ of 0.78. *)
Lemma grade_monotone_witness :
  (grade_rank (score_to_grade 0.62) <= grade_rank (score_to_grade 0.78))%nat /\
  score_to_grade (62 # 100) = score_to_grade (31 # 50) /\
  score_to_grade 0.39 = "F"%string.
Proof.
  pose proof (grade_monotone 0.62 0.78) as (Hm & _).
  pose proof (grade_monotone (62 # 100) (31 # 50)) as (_ & He & _).
  pose proof (grade_monotone 0.39 0) as (_ & _ & Hf & _).
  split; [apply Hm; discriminate|].
  split; [apply He; reflexivity|].
  apply Hf. reflexivity.
Defined.

(** ** Overall score *)

Lemma component_keys (s : result SpeechAnalysis) (f : result FacialAnalysis)
    (c : result ConfidenceAnalysis) :
  dict_keys (component_scores (calculate_overall_score s f c))
  = key_if "speech_clarity" (speech_component s)
    ++ key_if "positivity" (facial_component f)
    ++ key_if "confidence" (confidence_component c).
Proof.
  unfold calculate_overall_score, facial_component, key_if.
  destruct s as [sa | es], f as [fa | ef], c as [ca | ec]; cbn;
    try destruct (dict_get "joy" (fa_emotion_statistics fa)) as [st |]; cbn;
    reflexivity.
Qed.

(** X17.  When at least one component is present and all present
    components lie in [0,1], so does the overall score; the grade is the
    grade of the overall score, and a single present component is the
    overall score.  The component scores are keyed by speech_clarity,
    positivity and confidence, in this order, one key per present
    component. *)
Theorem overall_score_components
    (s : result SpeechAnalysis) (f : result FacialAnalysis)
    (c : result ConfidenceAnalysis) :
  let present :=
    present_scores
      [speech_component s; facial_component f; confidence_component c] in
  let r := calculate_overall_score s f c in
  (present <> [] -> Forall (fun v => 0 <= v <= 1) present ->
   0 <= overall_score r <= 1) /\
  (present <> [] -> grade r = score_to_grade (overall_score r)) /\
  (forall v, present = [v] -> overall_score r == v) /\
  dict_values (component_scores r) = present /\
  dict_keys (component_scores r)
  = key_if "speech_clarity" (speech_component s)
    ++ key_if "positivity" (facial_component f)
    ++ key_if "confidence" (confidence_component c).
Proof.
  intros present r. subst present r.
  pose proof (component_scores_present s f c) as H.
  destruct (present_scores _) as [| v rest] eqn:E.
  - split; [congruence|]. split; [congruence|]. split; [discriminate|].
    split; [rewrite H; reflexivity | apply component_keys].
  - destruct H as (Hv & Ho & Hg).
    split; [| split; [| split; [| split]]].
    + intros _ Hall. rewrite Ho. apply mean_bounds; [discriminate | exact Hall].
    + intros _. exact Hg.
    + intros w Hw. injection Hw as -> ->. rewrite Ho.
      unfold py_sum, py_len. cbn. field.
    + exact Hv.
    + apply component_keys.
Qed.

(** X17 at work: with only a confidence score of 0.8 the overall score is
    0.8 and the grade A-. *)
Lemma overall_score_components_witness :
  let ca := {| ca_head_pose_timeline := [];
               ca_average_eye_contact_score := 0.8;
               ca_eye_contact_consistency := 0.8;
               ca_head_stability_score := 0.8;
               ca_confidence_score := 0.8 |} in
  let r := calculate_overall_score (Err (ServiceError "timeout")) (Err ValueError)
             (Ok ca) in
  overall_score r == 0.8 /\ grade r = "A-"%string /\ 0 <= overall_score r <= 1.
Proof.
  intros ca r.
  pose proof (overall_score_components (Err (ServiceError "timeout"))
                (Err ValueError) (Ok ca)) as (Hb & Hg & H1 & _).
  split; [apply H1; reflexivity|].
  split; [unfold r; rewrite Hg; [reflexivity | discriminate]|].
  apply Hb; [discriminate|]. repeat constructor; discriminate.
Defined.

(** ** The pipeline *)

Lemma speech_component_range (np_sqrt : Q -> Q) (filler_words : list string)
    (recognize : result (list SpeechResult)) (v : Q) :
  speech_component (analyze_speech np_sqrt filler_words recognize) = Some v ->
  0 <= v <= 1.
Proof.
  destruct (analyze_speech np_sqrt filler_words recognize) as [sa | e] eqn:E;
    [| discriminate].
  cbn. intro Hv. injection Hv as <-.
  apply analyze_speech_inv in E as (response & _ & _ & H). cbn zeta in H.
  destruct H as (_ & _ & _ & _ & _ & _ & _ & _ & Hcl & _).
  rewrite Hcl. apply calculate_clarity_score_range.
Qed.

Lemma facial_component_range (np_sqrt : Q -> Q) (Image : Type)
    (face_detection : Image -> result (list FaceAnnotation))
    (download : result (VideoCapture Image)) (v : Q) :
  facial_component (analyze_facial_expressions np_sqrt face_detection download)
  = Some v ->
  0 <= v <= 0.9.
Proof.
  destruct (analyze_facial_expressions np_sqrt face_detection download)
    as [fa | e] eqn:E; [| discriminate].
  cbn. destruct (dict_get "joy" (fa_emotion_statistics fa)) as [st |] eqn:Hget;
    [| discriminate].
  cbn. intro Hv. injection Hv as <-.
  assert (Hrange : Forall (fun frame =>
                             forall e, 0 <= emotion_value (ef_emotions frame) e <= 0.9)
                          (fa_emotion_timeline fa)).
  { destruct download as [cap | e]; [| discriminate].
    rewrite analyze_facial_expressions_outcome in E.
    destruct (extract_video_frames cap 1) as [frames_data | e]; [| discriminate].
    cbn [bind] in E.
    destruct (first_detection_error face_detection frames_data); [discriminate|].
    injection E as <-. cbn [fa_emotion_timeline].
    apply Forall_map, Forall_forall. intros [frame_data face] _ e.
    apply emotions_of_range. }
  apply analyze_facial_expressions_fields in E as [Hs _].
  rewrite Hs in Hget.
  pose proof (emotion_statistics_bounds np_sqrt _ 0 0.9 _ st Hrange Hget).
  lra.
Qed.

Lemma confidence_component_range (np_sqrt : Q -> Q) (Image : Type)
    (face_detection : Image -> result (list FaceAnnotation))
    (download : result (VideoCapture Image)) (v : Q) :
  (forall x, 0 <= np_sqrt x) ->
  confidence_component (analyze_confidence_metrics np_sqrt face_detection download)
  = Some v ->
  0 <= v <= 1.
Proof.
  intro Hsqrt.
  destruct (analyze_confidence_metrics np_sqrt face_detection download)
    as [ca | e] eqn:E; [| discriminate].
  cbn. intro Hv. injection Hv as <-.
  destruct (analyze_confidence_metrics_fields _ _ _ _ _ E)
    as (Hest & Havg & Hcons & Hstab & Hconf).
  set (poses := ca_head_pose_timeline ca) in *.
  set (estimates := map hp_eye_contact_score poses) in *.
  assert (Hvals : Forall (fun v => 0 <= v <= 1) estimates).
  { apply Forall_map. revert Hest. apply Forall_impl. intros frame ->.
    apply estimate_eye_contact_range. }
  assert (Ha : 0 <= ca_average_eye_contact_score ca <= 1).
  { rewrite Havg. destruct estimates as [| w rest] eqn:Ee; [split; discriminate|].
    apply mean_bounds; [discriminate | exact Hvals]. }
  assert (Hc : 0 <= ca_eye_contact_consistency ca <= 1).
  { rewrite Hcons. apply (consistency_range np_sqrt estimates Hsqrt).
    revert Hvals. apply Forall_impl. intros w Hw. lra. }
  assert (Hs : 0 <= ca_head_stability_score ca <= 1).
  { rewrite Hstab. apply (stability_range np_sqrt poses Hsqrt). }
  rewrite Hconf. unfold calculate_confidence_score. lra.
Qed.

(** X18.  When the square root of [np.std] is not negative, every report of
    the pipeline has its component scores and its overall score in [0,1],
    whatever the recognition, the download and the face detection return or
    raise; its grade is F without components and the grade of the overall
    score otherwise. *)
Theorem pipeline_scores_in_range (np_sqrt : Q -> Q) (Image : Type)
    (recognize : result (list SpeechResult))
    (download : result (VideoCapture Image))
    (face_detection : Image -> result (list FaceAnnotation)) :
  (forall x, 0 <= np_sqrt x) ->
  let report :=
    analyze_video_comprehensive np_sqrt recognize download face_detection in
  Forall (fun v => 0 <= v <= 1) (dict_values (component_scores (overall report))) /\
  0 <= overall_score (overall report) <= 1 /\
  grade (overall report)
  = match component_scores (overall report) with
    | [] => "F"%string
    | _ :: _ => score_to_grade (overall_score (overall report))
    end.
Proof.
  intros Hsqrt report. unfold report, analyze_video_comprehensive.
  cbn [overall].
  set (s := analyze_speech np_sqrt FILLER_WORDS recognize).
  set (f := analyze_facial_expressions np_sqrt face_detection download).
  set (c := analyze_confidence_metrics np_sqrt face_detection download).
  pose proof (speech_component_range np_sqrt FILLER_WORDS recognize) as Hs.
  pose proof (facial_component_range np_sqrt Image face_detection download) as Hf.
  pose proof (fun v => confidence_component_range np_sqrt Image face_detection
                          download v) as Hc.
  fold s in Hs. fold f in Hf. fold c in Hc.
  assert (Hall : Forall (fun v => 0 <= v <= 1)
                   (present_scores [speech_component s; facial_component f;
                                    confidence_component c])).
  { assert (Hf' : forall v, facial_component f = Some v -> 0 <= v <= 1).
    { intros v Hv. pose proof (Hf v Hv). lra. }
    assert (Hc' : forall v, confidence_component c = Some v -> 0 <= v <= 1)
      by (intros v Hv; exact (Hc v Hsqrt Hv)).
    unfold present_scores. cbn [flat_map].
    destruct (speech_component s) as [vs |]; destruct (facial_component f) as [vf |];
      destruct (confidence_component c) as [vc |]; cbn [app];
      repeat (apply Forall_cons || apply Forall_nil);
      first [apply Hs; reflexivity | apply Hf'; reflexivity | apply Hc'; reflexivity]. }
  pose proof (component_scores_present s f c) as H.
  destruct (present_scores _) as [| v rest] eqn:E.
  - rewrite H. cbn. split; [constructor|]. split; [split; discriminate | reflexivity].
  - destruct H as (Hv & Ho & Hg). rewrite Hv, Ho. split; [exact Hall|].
    split; [apply mean_bounds; [discriminate | exact Hall]|].
    rewrite Hg, Ho.
    destruct (component_scores (calculate_overall_score s f c)) eqn:Ec;
      [| reflexivity].
    cbn in Hv. discriminate.
Qed.

(** X18 at work on the scenario response with a clip whose even frames show
    the joyful face. *)
Lemma pipeline_scores_witness :
  0 <= overall_score
         (overall (analyze_video_comprehensive isqrt_Q (Ok scenario_response)
                     (Ok short_clip) detect_even)) <= 1.
Proof.
  apply (pipeline_scores_in_range isqrt_Q nat (Ok scenario_response)
           (Ok short_clip) detect_even isqrt_Q_nonneg).
Defined.

Lemma no_face_frames {Image : Type}
    (face_detection : Image -> result (list FaceAnnotation))
    (frames_data : list (FrameData Image)) :
  (forall image, face_detection image = Ok []) ->
  first_detection_error face_detection frames_data = None /\
  frames_with_face face_detection frames_data = [].
Proof.
  intro Hnone. induction frames_data as [| frame_data rest [IH1 IH2]].
  - split; reflexivity.
  - unfold frames_with_face in *. cbn [first_detection_error flat_map].
    rewrite Hnone. cbn [app]. split; assumption.
Qed.

(** X19.  On a video of at least 2 frames per second in which no frame
    shows a face, both vision branches succeed with empty timelines: the
    facial branch has no statistics, so positivity is absent from the
    overall score, while the confidence branch reports a confidence score of
    0, which is present.  With a successful speech branch the overall score
    is therefore half the clarity score. *)
Theorem faceless_video_scores (np_sqrt : Q -> Q) (Image : Type)
    (recognize : result (list SpeechResult)) (cap : VideoCapture Image)
    (face_detection : Image -> result (list FaceAnnotation)) :
  2 <= cap_fps cap ->
  (forall image, face_detection image = Ok []) ->
  let report :=
    analyze_video_comprehensive np_sqrt recognize (Ok cap) face_detection in
  (exists fa,
     facial_analysis report = Ok fa /\
     fa_emotion_timeline fa = [] /\ fa_emotion_statistics fa = [] /\
     fa_total_frames_analyzed fa = 0%Z) /\
  (exists ca,
     confidence_analysis report = Ok ca /\
     ca_head_pose_timeline ca = [] /\ ca_confidence_score ca == 0) /\
  dict_get "positivity" (component_scores (overall report)) = None /\
  (exists v, dict_get "confidence" (component_scores (overall report)) = Some v
             /\ v == 0) /\
  (forall sa, speech_analysis report = Ok sa ->
              overall_score (overall report) == sa_clarity_score sa / 2) /\
  (forall e, speech_analysis report = Err e ->
             overall_score (overall report) == 0 /\
             grade (overall report) = "F"%string).
Proof.
  intros Hfps Hnone report.
  assert (H1 : py_int (cap_fps cap * 1) <> 0%Z).
  { intro Hz. apply py_int_zero_iff in Hz. lra. }
  assert (H05 : py_int (cap_fps cap * 0.5) <> 0%Z).
  { intro Hz. apply py_int_zero_iff in Hz. lra. }
  assert (Ef : analyze_facial_expressions np_sqrt face_detection (Ok cap)
               = Ok {| fa_emotion_timeline := [];
                       fa_emotion_statistics := [];
                       fa_total_frames_analyzed := 0;
                       fa_average_detection_confidence := 0 |}).
  { rewrite analyze_facial_expressions_outcome, (extract_video_frames_ok cap 1 H1).
    cbn [bind].
    destruct (no_face_frames face_detection
                (sampled_frames (cap_fps cap) (py_int (cap_fps cap * 1))
                   (cap_frames cap) 0) Hnone) as [-> ->].
    reflexivity. }
  assert (Ec : analyze_confidence_metrics np_sqrt face_detection (Ok cap)
               = Ok {| ca_head_pose_timeline := [];
                       ca_average_eye_contact_score := 0;
                       ca_eye_contact_consistency := 0;
                       ca_head_stability_score := 0;
                       ca_confidence_score := calculate_confidence_score 0 0 0 |}).
  { rewrite analyze_confidence_metrics_outcome,
      (extract_video_frames_ok cap 0.5 H05).
    cbn [bind].
    destruct (no_face_frames face_detection
                (sampled_frames (cap_fps cap) (py_int (cap_fps cap * 0.5))
                   (cap_frames cap) 0) Hnone) as [-> ->].
    reflexivity. }
  unfold report, analyze_video_comprehensive.
  cbn [facial_analysis confidence_analysis speech_analysis overall].
  rewrite Ef, Ec.
  split; [eexists; repeat split; reflexivity|].
  split; [eexists; repeat split; reflexivity|].
  destruct (analyze_speech np_sqrt FILLER_WORDS recognize) as [sa | e].
  - split; [reflexivity|]. split; [eexists; split; reflexivity|].
    split; [| discriminate].
    intros sa' Hsa. injection Hsa as <-.
    unfold calculate_overall_score. cbn. unfold py_sum, py_len. cbn [fold_left].
    unfold calculate_confidence_score.
    change (inject_Z (Z.of_nat (List.length
              [("speech_clarity"%string, sa_clarity_score sa);
               ("confidence"%string, 0 * 0.5 + 0 * 0.3 + 0 * 0.2)]))) with 2.
    field.
  - split; [reflexivity|]. split; [eexists; split; reflexivity|].
    split; [discriminate|]. intros e' _. split; reflexivity.
Qed.

(** X19 at work on the four-frame clip with a detector that sees no face:
    the clarity of the scenario response is halved. *)
Lemma faceless_video_witness :
  let report :=
    analyze_video_comprehensive isqrt_Q (Ok scenario_response) (Ok short_clip)
      (fun _ : nat => Ok []) in
  dict_get "positivity" (component_scores (overall report)) = None /\
  exists v, dict_get "confidence" (component_scores (overall report)) = Some v
            /\ v == 0.
Proof.
  intro report.
  destruct (faceless_video_scores isqrt_Q nat (Ok scenario_response) short_clip
              (fun _ : nat => Ok []))
    as (_ & _ & Hp & Hc & _); [discriminate | reflexivity |].
  split; [exact Hp | exact Hc].
Defined.

(** ** The HTTP entry point *)

Section HandlerProperties.

Variable Report : Type.
Variable run_analysis : json -> result Report.

(** X20.  The handler answers OPTIONS with 204 and any other method than
    POST with 405, without looking at the body.  A POST is answered with
    200 and the report exactly when the body is a non-empty JSON object
    whose videoUri member is present and truthy and the analysis of that
    member succeeds; the analysis is not consulted otherwise.  A missing,
    malformed or falsy body and a missing or falsy videoUri give 400; a
    truthy body that is not an object, and a failing analysis, give 500. *)
Theorem analyze_video_status (request : Request) :
  let answer := analyze_video run_analysis request in
  In (snd answer) [204; 405; 400; 500; 200]%Z /\
  (req_method request = "OPTIONS"%string -> answer = (EmptyBody, 204%Z)) /\
  (req_method request <> "OPTIONS"%string -> req_method request <> "POST"%string ->
   snd answer = 405%Z) /\
  (snd answer = 200%Z
   <-> req_method request = "POST"%string /\
       exists members video_uri report,
         req_json request = Some (JObj members) /\
         dict_get "videoUri" members = Some video_uri /\
         truthy video_uri = true /\
         run_analysis video_uri = Ok report /\
         answer = (ReportBody report, 200%Z)) /\
  (req_method request = "POST"%string ->
   (snd answer = 400%Z
    <-> match req_json request with
        | None => True
        | Some body =>
            truthy body = false \/
            exists members,
              body = JObj members /\
              match dict_get "videoUri" members with
              | Some video_uri => truthy video_uri = false
              | None => True
              end
        end)).
Proof.
  intro answer. subst answer. unfold analyze_video, get_video_uri.
  destruct (String.eqb_spec (req_method request) "OPTIONS") as [Hopt | Hopt].
  { cbn [snd]. split; [cbn; tauto|]. split; [reflexivity|].
    split; [congruence|]. split.
    - split; [discriminate|]. intros [Hpost _]. rewrite Hopt in Hpost. discriminate.
    - intro Hpost. rewrite Hopt in Hpost. discriminate. }
  destruct (String.eqb_spec (req_method request) "POST") as [Hpost | Hpost];
    cbn [negb].
  2:{ cbn [snd]. split; [cbn; tauto|]. split; [congruence|].
      split; [reflexivity|]. split.
      - split; [discriminate | intros [H _]; contradiction].
      - intro H. contradiction. }
  destruct (req_json request) as [body |].
  2:{ cbn. split; [tauto|]. split; [congruence|]. split; [congruence|].
      split.
      - split; [discriminate|]. intros (_ & m & u & r & H & _). discriminate.
      - intros _. tauto. }
  destruct (truthy body) eqn:Hbody; cbn [negb].
  2:{ cbn [snd]. split; [cbn; tauto|]. split; [congruence|].
      split; [congruence|]. split.
      - split; [discriminate|].
        intros (_ & m & u & r & H & Hget & _ & _ & _).
        injection H as ->. cbn in Hbody. destruct m; [discriminate | discriminate].
      - intros _. split; [intros _; now left | reflexivity]. }
  destruct body as [| b | x | str | items | members].
  1-5: (cbn [snd]; split; [cbn; tauto|]; split; [congruence|];
        split; [congruence|]; split;
        [ split; [discriminate|];
          intros (_ & m & u & r & H & _); discriminate
        | intros _; split; [discriminate|];
          intros [H | (m & H & _)]; [congruence | discriminate] ]).
  destruct (dict_get "videoUri" members) as [video_uri |] eqn:Hget.
  2:{ cbn. split; [tauto|]. split; [congruence|]. split; [congruence|].
      split.
      - split; [discriminate|].
        intros (_ & m & u & r & H & Hg & _). injection H as <-. congruence.
      - intros _. split; [intros _ | reflexivity].
        right. exists members. split; [reflexivity|]. now rewrite Hget. }
  destruct (truthy video_uri) eqn:Huri; cbn [negb].
  2:{ cbn [snd]. split; [cbn; tauto|]. split; [congruence|].
      split; [congruence|]. split.
      - split; [discriminate|].
        intros (_ & m & u & r & H & Hg & Ht & _). injection H as <-.
        rewrite Hget in Hg. injection Hg as <-. congruence.
      - intros _. split; [intros _ | reflexivity].
        right. exists members. split; [reflexivity|]. now rewrite Hget. }
  destruct (run_analysis video_uri) as [report | e] eqn:Hrun; cbn [snd].
  - split; [cbn; tauto|]. split; [congruence|]. split; [congruence|]. split.
    + split; [| reflexivity]. intros _. split; [exact Hpost|].
      exists members, video_uri, report. repeat split; assumption.
    + intros _. split; [discriminate|].
      intros [H | (m & H & Hm)]; [congruence|].
      injection H as <-. rewrite Hget in Hm. congruence.
  - split; [cbn; tauto|]. split; [congruence|]. split; [congruence|]. split.
    + split; [discriminate|].
      intros (_ & m & u & r & H & Hg & _ & Hr & _). injection H as <-.
      rewrite Hget in Hg. injection Hg as <-. congruence.
    + intros _. split; [discriminate|].
      intros [H | (m & H & Hm)]; [congruence|].
      injection H as <-. rewrite Hget in Hm. congruence.
Qed.

End HandlerProperties.

(** X20 at work: a POST with a video reference is answered with 200, a POST
    with an empty reference with 400, a GET with 405. *)
Lemma analyze_video_status_witness :
  analyze_video echo_analysis
    (post_request (JObj [("videoUri"%string, JStr "gs://bucket/answer.webm")]))
  = (ReportBody "gs://bucket/answer.webm"%string, 200%Z) /\
  snd (analyze_video echo_analysis
         (post_request (JObj [("videoUri"%string, JStr EmptyString)]))) = 400%Z /\
  snd (analyze_video echo_analysis {| req_method := "GET"; req_json := None |})
  = 405%Z /\
  analyze_video echo_analysis {| req_method := "OPTIONS"; req_json := None |}
  = (EmptyBody, 204%Z).
Proof.
  split; [reflexivity|]. split; [| split].
  - apply (analyze_video_status string echo_analysis
             (post_request (JObj [("videoUri"%string, JStr EmptyString)])));
      [reflexivity|].
    right. eexists. split; reflexivity.
  - apply (analyze_video_status string echo_analysis
             {| req_method := "GET"; req_json := None |}); discriminate.
  - apply (analyze_video_status string echo_analysis
             {| req_method := "OPTIONS"; req_json := None |}). reflexivity.
Defined.

(** ** The transcript-based filler counter *)

Section TranscriptCounter.

(** The characters of a filler: a non-empty run of word characters. *)
Variable pat : list ascii.
Hypothesis pat_nonempty : pat <> [].
Hypothesis pat_word : Forall (fun c => is_word_char c = true) pat.

Lemma match_literal_spec (p s r : list ascii) :
  match_literal p s = Some r <-> s = p ++ r.
Proof.
  revert s. induction p as [| a p IH]; intro s; cbn.
  - split; [intro H; now injection H | intros ->; reflexivity].
  - destruct s as [| c s]; [split; discriminate|].
    destruct (Ascii.eqb_spec a c) as [-> | Hne].
    + rewrite IH. split; [intros ->; reflexivity | intro H; now injection H].
    + split; [discriminate | intro H; injection H; congruence].
Qed.

Lemma last_read_word (prev : option ascii) (u : list ascii) :
  is_word_opt prev = true -> Forall (fun c => is_word_char c = true) u ->
  is_word_opt (last_read prev u) = true.
Proof.
  intros Hprev Hu. revert prev Hprev.
  induction Hu as [| c u Hc Hu IH]; intros prev Hprev; cbn; [exact Hprev|].
  apply IH. exact Hc.
Qed.

Lemma findall_skip (u tail : list ascii) (prev : option ascii) :
  findall_count pat prev (u ++ tail) (List.length u)
  = findall_count pat (last_read prev u) tail 0.
Proof.
  revert prev. induction u as [| c u IH]; intro prev; cbn [app List.length last_read].
  - reflexivity.
  - cbn [findall_count]. apply IH.
Qed.

Lemma findall_inside_word (u tail : list ascii) (prev : option ascii) :
  is_word_opt prev = true -> Forall (fun c => is_word_char c = true) u ->
  findall_count pat prev (u ++ tail) 0
  = findall_count pat (last_read prev u) tail 0.
Proof.
  intros Hprev Hu. revert prev Hprev.
  induction Hu as [| c u Hc Hu IH]; intros prev Hprev; cbn [app last_read].
  - reflexivity.
  - cbn [findall_count].
    assert (Hm : matches_at pat prev (c :: u ++ tail) = false).
    { unfold matches_at. destruct (match_literal pat (c :: u ++ tail)); [| reflexivity].
      unfold word_boundary at 1. cbn [hd_error is_word_opt].
      rewrite Hprev, Hc. reflexivity. }
    rewrite Hm. apply IH. exact Hc.
Qed.

Lemma hd_error_word (l : list ascii) :
  l <> [] -> Forall (fun c => is_word_char c = true) l ->
  is_word_opt (hd_error l) = true.
Proof.
  intros Hne Hl. destruct l as [| c l]; [congruence|].
  cbn. now inversion Hl.
Qed.

Lemma hd_error_app (l l' : list ascii) :
  l <> [] -> hd_error (l ++ l') = hd_error l.
Proof. destruct l; [congruence | reflexivity]. Qed.

Lemma findall_at_word_start (w tail : list ascii) (prev : option ascii) :
  is_word_opt prev = false ->
  w <> [] -> Forall (fun c => is_word_char c = true) w ->
  is_word_opt (hd_error tail) = false ->
  findall_count pat prev (w ++ tail) 0
  = ((if list_eq_dec ascii_dec w pat then 1 else 0)
     + findall_count pat (last_read prev w) tail 0)%nat.
Proof.
  intros Hprev Hne Hw Htail.
  destruct w as [| c w']; [congruence|].
  assert (Hc : is_word_char c = true) by now inversion Hw.
  assert (Hw' : Forall (fun a => is_word_char a = true) w') by now inversion Hw.
  cbn [app findall_count last_read].
  destruct (list_eq_dec ascii_dec (c :: w') pat) as [Heq | Hneq].
  - assert (Hm : matches_at pat prev (c :: w' ++ tail) = true).
    { unfold matches_at.
      assert (Hl : match_literal pat (c :: w' ++ tail) = Some tail).
      { apply match_literal_spec. now rewrite <- Heq. }
      rewrite Hl. unfold word_boundary. cbn [hd_error is_word_opt].
      rewrite Hprev, Hc, Htail.
      assert (Hr : is_word_opt (hd_error (rev pat)) = true).
      { apply hd_error_word.
        - intro Hr. apply pat_nonempty. apply (f_equal (@rev ascii)) in Hr.
          now rewrite rev_involutive in Hr.
        - apply Forall_rev. exact pat_word. }
      rewrite Hr. reflexivity. }
    rewrite Hm.
    replace (List.length pat - 1)%nat with (List.length w')
      by (rewrite <- Heq; cbn [List.length]; lia).
    rewrite findall_skip. reflexivity.
  - assert (Hm : matches_at pat prev (c :: w' ++ tail) = false).
    { unfold matches_at.
      destruct (match_literal pat (c :: w' ++ tail)) as [r |] eqn:Hl;
        [| reflexivity].
      apply match_literal_spec in Hl.
      assert (Hr : is_word_opt (hd_error r) = true).
      { change (c :: w' ++ tail) with ((c :: w') ++ tail) in Hl.
        apply app_eq_app in Hl as (l & [[Hl1 Hl2] | [Hl1 Hl2]]).
        - (* the word continues after the filler *)
          destruct l as [| a l].
          + rewrite app_nil_r in Hl1. congruence.
          + rewrite Hl2. cbn. rewrite Hl1 in Hw.
            apply Forall_app in Hw as [_ Hal]. now inversion Hal.
        - (* the filler continues into the text after the word *)
          exfalso. destruct l as [| a l].
          + rewrite app_nil_r in Hl1. congruence.
          + rewrite Hl2 in Htail. cbn in Htail.
            pose proof pat_word as Hpw. rewrite Hl1 in Hpw.
            apply Forall_app in Hpw as [_ Hal].
            inversion Hal; subst. congruence. }
      unfold word_boundary at 2.
      assert (Hp : is_word_opt (hd_error (rev pat)) = true).
      { apply hd_error_word.
        - intro Hx. apply pat_nonempty. apply (f_equal (@rev ascii)) in Hx.
          now rewrite rev_involutive in Hx.
        - apply Forall_rev. exact pat_word. }
      rewrite Hp, Hr. cbn. apply andb_false_r. }
    rewrite Hm. cbn [Nat.add].
    apply (findall_inside_word w' tail (Some c)); [exact Hc | exact Hw'].
Qed.

Lemma findall_spaced (words : list (list ascii)) (prev : option ascii) :
  is_word_opt prev = false ->
  Forall (fun w => w <> [] /\ Forall (fun c => is_word_char c = true) w) words ->
  findall_count pat prev (spaced words) 0
  = List.length (filter (fun w => if list_eq_dec ascii_dec w pat then true else false)
                        words).
Proof.
  intros Hprev Hall. revert prev Hprev.
  induction Hall as [| w rest [Hne Hw] Hall IH]; intros prev Hprev.
  - reflexivity.
  - cbn [filter].
    destruct rest as [| w2 rest'].
    + cbn [spaced]. rewrite <- (app_nil_r w) at 1.
      rewrite findall_at_word_start by (try assumption; reflexivity).
      cbn [findall_count filter List.length].
      destruct (list_eq_dec ascii_dec w pat); cbn; lia.
    + change (spaced (w :: w2 :: rest')) with (w ++ " "%char :: spaced (w2 :: rest')).
      rewrite findall_at_word_start by (try assumption; reflexivity).
      cbn [findall_count].
      assert (Hm : matches_at pat (last_read prev w)
                     (" "%char :: spaced (w2 :: rest')) = false).
      { unfold matches_at. destruct pat as [| p pat'] eqn:Ep; [congruence|].
        cbn [match_literal].
        assert (Hp : is_word_char p = true) by now inversion pat_word.
        destruct (Ascii.eqb_spec p " "%char) as [-> | _]; [discriminate | reflexivity]. }
      rewrite Hm, (IH (Some " "%char) eq_refl).
      destruct (list_eq_dec ascii_dec w pat); cbn [List.length]; lia.
Qed.

End TranscriptCounter.

Lemma list_ascii_of_string_app (s1 s2 : string) :
  list_ascii_of_string (s1 ++ s2)
  = list_ascii_of_string s1 ++ list_ascii_of_string s2.
Proof. induction s1 as [| c s1 IH]; cbn; [reflexivity | now rewrite IH]. Qed.

Lemma list_ascii_of_join (words : list string) :
  list_ascii_of_string (join " " words) = spaced (map list_ascii_of_string words).
Proof.
  unfold join. induction words as [| w rest IH]; [reflexivity|].
  destruct rest as [| w2 rest']; [reflexivity|].
  change (String.concat " " (w :: w2 :: rest'))
    with (w ++ " " ++ String.concat " " (w2 :: rest'))%string.
  rewrite !list_ascii_of_string_app, IH. reflexivity.
Qed.

Lemma plain_word_chars (w : string) :
  plain_word w = true ->
  list_ascii_of_string w <> [] /\
  Forall (fun c => is_word_char c = true) (list_ascii_of_string w).
Proof.
  unfold plain_word. intro H. apply andb_prop in H as [Hne Hall]. split.
  - destruct w; [discriminate | discriminate].
  - apply Forall_forall. now apply forallb_forall.
Qed.

Lemma list_ascii_eq_dec_eqb (w f : string) :
  (if list_eq_dec ascii_dec (list_ascii_of_string w) (list_ascii_of_string f)
   then true else false) = String.eqb w f.
Proof.
  destruct (list_eq_dec ascii_dec _ _) as [Heq | Hne];
    destruct (String.eqb_spec w f) as [-> | Hwf]; try reflexivity.
  - exfalso. apply Hwf.
    rewrite <- (string_of_list_ascii_of_string w),
      <- (string_of_list_ascii_of_string f). now rewrite Heq.
  - congruence.
Qed.

Lemma count_single_filler (filler : string) (words : list string) :
  plain_word filler = true ->
  Forall (fun w => plain_word w = true) words ->
  findall_count (list_ascii_of_string filler) None
    (list_ascii_of_string (join " " words)) 0
  = List.length (filter (fun w => String.eqb w filler) words).
Proof.
  intros Hf Hw. apply plain_word_chars in Hf as [Hne Hchars].
  rewrite list_ascii_of_join.
  rewrite (findall_spaced _ Hne Hchars) by
    (try reflexivity; apply Forall_map; revert Hw; apply Forall_impl;
     intros w Hpw; now apply plain_word_chars).
  rewrite <- (length_map list_ascii_of_string (filter _ words)).
  f_equal. rewrite filter_map_swap. f_equal.
  apply filter_ext. intro w. apply list_ascii_eq_dec_eqb.
Qed.

Lemma count_filler_words_from (transcript : string) (filler_words : list string)
    (start : nat) :
  fold_left
    (fun count filler =>
       (count + findall_count (list_ascii_of_string filler) None
                  (list_ascii_of_string transcript) 0)%nat)
    filler_words start
  = (start + count_filler_words transcript filler_words)%nat.
Proof.
  unfold count_filler_words. revert start.
  induction filler_words as [| f rest IH]; intro start; cbn [fold_left]; [lia|].
  rewrite IH, (IH (0 + _)%nat). lia.
Qed.

Lemma count_members_cons (f : string) (rest words : list string) :
  ~ In f rest ->
  List.length (filter (fun w => str_in w (f :: rest)) words)
  = (List.length (filter (fun w => String.eqb w f) words)
     + List.length (filter (fun w => str_in w rest) words))%nat.
Proof.
  intro Hnot. induction words as [| w words IH]; [reflexivity|].
  cbn [filter]. unfold str_in at 1. cbn [existsb]. fold (str_in w rest).
  destruct (String.eqb_spec w f) as [-> | Hne]; cbn [orb].
  - assert (Hr : str_in f rest = false).
    { destruct (str_in f rest) eqn:E; [| reflexivity].
      apply str_in_In in E. contradiction. }
    rewrite Hr. cbn [List.length]. rewrite IH. lia.
  - destruct (str_in w rest); cbn [List.length]; rewrite IH; lia.
Qed.

Lemma count_filler_words_spaced
    (filler_words words : list string) :
  NoDup filler_words ->
  Forall (fun f => plain_word f = true) filler_words ->
  Forall (fun w => plain_word w = true) words ->
  count_filler_words (join " " words) filler_words
  = List.length (filter (fun w => str_in w filler_words) words).
Proof.
  intros Hnd Hf Hw. induction Hnd as [| f rest Hnot Hnd IH].
  - unfold count_filler_words, str_in. cbn.
    induction words as [| w words IHw]; [reflexivity|].
    cbn. apply IHw. now inversion Hw.
  - inversion Hf as [| f' rest' Hpf Hrest]; subst.
    unfold count_filler_words. cbn [fold_left].
    rewrite count_filler_words_from, (count_single_filler f words Hpf Hw).
    rewrite (IH Hrest), count_members_cons by exact Hnot. lia.
Qed.

(** X21.  On a transcript of words separated by single spaces, each word a
    non-empty run of letters, digits and underscores, the transcript-based
    counter with a list of distinct fillers of the same kind returns the
    number of words of the transcript that are in the list: a filler is
    counted only as a whole word, never inside or at the start of a longer
    word. *)
Theorem transcript_counter_counts_whole_words
    (filler_words words : list string) :
  NoDup filler_words ->
  Forall (fun f => plain_word f = true) filler_words ->
  Forall (fun w => plain_word w = true) words ->
  count_filler_words (join " " words) filler_words
  = List.length (filter (fun w => str_in w filler_words) words).
Proof.
  intros Hnd Hf Hw. induction Hnd as [| f rest Hnot Hnd IH].
  - unfold count_filler_words, str_in. cbn.
    induction words as [| w words IHw]; [reflexivity|].
    cbn. apply IHw. now inversion Hw.
  - inversion Hf as [| f' rest' Hpf Hrest]; subst.
    unfold count_filler_words. cbn [fold_left].
    rewrite count_filler_words_from, (count_single_filler f words Hpf Hw).
    rewrite (IH Hrest), count_members_cons by exact Hnot. lia.
Qed.

(** X21 at work: in "i liked it so so much like" the fillers "like" and
    "so" count three words, and "liked" is not one of them. *)
Lemma transcript_counter_witness :
  count_filler_words "i liked it so so much like" ["like"; "so"]%string = 3%nat.
Proof.
  apply (transcript_counter_counts_whole_words ["like"; "so"]%string
           ["i"; "liked"; "it"; "so"; "so"; "much"; "like"]%string).
  - repeat constructor; cbn; intuition discriminate.
  - repeat constructor.
  - repeat constructor.
Defined.

(** ** The two filler counters on clean input *)

Lemma word_char_not_stripped (c : ascii) :
  is_word_char c = true -> in_chars c ".,!?" = false.
Proof.
  intro Hc. unfold in_chars. cbn [list_ascii_of_string existsb].
  repeat match goal with
         | |- context [Ascii.eqb c ?d] =>
             destruct (Ascii.eqb_spec c d) as [-> | _]; [discriminate Hc|]
         end.
  reflexivity.
Qed.

Lemma lstrip_list_word_start (l : list ascii) :
  is_word_opt (hd_error l) = true -> lstrip_list ".,!?" l = l.
Proof.
  destruct l as [| c l]; [discriminate|]. cbn [hd_error is_word_opt]. intro Hc.
  cbn [lstrip_list]. now rewrite (word_char_not_stripped c Hc).
Qed.

Lemma normalize_plain_word (w : string) :
  plain_word w = true -> lower w = w -> normalize_word w = w.
Proof.
  intros Hp Hl. unfold normalize_word, strip. rewrite Hl.
  apply plain_word_chars in Hp as [Hne Hchars].
  rewrite (lstrip_list_word_start (list_ascii_of_string w))
    by (apply hd_error_word; assumption).
  rewrite lstrip_list_word_start.
  - rewrite rev_involutive. apply string_of_list_ascii_of_string.
  - apply hd_error_word.
    + intro Hr. apply Hne. apply (f_equal (@rev ascii)) in Hr.
      now rewrite rev_involutive in Hr.
    + apply Forall_rev. exact Hchars.
Qed.

Lemma word_run_unique (a b ta tb : list ascii) :
  Forall (fun c => is_word_char c = true) a ->
  Forall (fun c => is_word_char c = true) b ->
  is_word_opt (hd_error ta) = false ->
  is_word_opt (hd_error tb) = false ->
  a ++ ta = b ++ tb -> a = b /\ ta = tb.
Proof.
  intros Ha. revert b. induction Ha as [| c a Hc Ha IH]; intros b Hb Hta Htb E.
  - destruct b as [| d b]; [split; [reflexivity | exact E]|].
    cbn in E. subst ta. cbn in Hta. inversion Hb; subst. congruence.
  - destruct b as [| d b].
    + cbn in E. subst tb. cbn in Htb. congruence.
    + cbn in E. injection E as -> E. inversion Hb; subst.
      destruct (IH b H2 Hta Htb E) as [-> ->]. split; reflexivity.
Qed.

Section TwoWordFiller.

Variables p1 p2 : list ascii.
Hypothesis p1_nonempty : p1 <> [].
Hypothesis p1_word : Forall (fun c => is_word_char c = true) p1.
Hypothesis p2_nonempty : p2 <> [].
Hypothesis p2_word : Forall (fun c => is_word_char c = true) p2.

Let pat : list ascii := p1 ++ " "%char :: p2.

Lemma two_word_not_at_space (prev : option ascii) (tail : list ascii) :
  matches_at pat prev (" "%char :: tail) = false.
Proof.
  unfold matches_at, pat. destruct p1 as [| p p1']; [congruence|].
  cbn [app match_literal].
  assert (Hp : is_word_char p = true) by now inversion p1_word.
  destruct (Ascii.eqb_spec p " "%char) as [-> | _]; [discriminate | reflexivity].
Qed.

Lemma two_word_last : is_word_opt (hd_error (rev pat)) = true.
Proof.
  unfold pat. rewrite rev_app_distr. cbn [rev]. rewrite <- app_assoc.
  rewrite hd_error_app.
  - apply hd_error_word.
    + intro Hr. apply p2_nonempty. apply (f_equal (@rev ascii)) in Hr.
      now rewrite rev_involutive in Hr.
    + apply Forall_rev. exact p2_word.
  - intro Hr. apply p2_nonempty. apply (f_equal (@rev ascii)) in Hr.
    now rewrite rev_involutive in Hr.
Qed.

(** At the start of a word, the two-word filler matches exactly when the
    word is its first word and the next word is its second word. *)
Lemma two_word_at_word_start (w1 w2 tail : list ascii) (prev : option ascii) :
  is_word_opt prev = false ->
  w1 <> [] -> Forall (fun c => is_word_char c = true) w1 ->
  Forall (fun c => is_word_char c = true) w2 ->
  is_word_opt (hd_error tail) = false ->
  matches_at pat prev (w1 ++ " "%char :: w2 ++ tail)
  = (list_ascii_eqb w1 p1 && list_ascii_eqb w2 p2)%bool.
Proof.
  intros Hprev Hne Hw1 Hw2 Htail. unfold matches_at.
  destruct (match_literal pat (w1 ++ " "%char :: w2 ++ tail)) as [r |] eqn:Hl.
  - apply match_literal_spec in Hl. unfold pat in Hl. rewrite <- app_assoc in Hl.
    cbn [app] in Hl.
    apply word_run_unique in Hl as [E1 E2]; try assumption; try reflexivity.
    injection E2 as E2. subst w1.
    unfold word_boundary at 1.
    rewrite Hprev, hd_error_app, (hd_error_word p1) by assumption.
    cbn [xorb andb]. unfold word_boundary. rewrite two_word_last.
    unfold list_ascii_eqb at 1.
    destruct (list_eq_dec ascii_dec p1 p1); [| congruence]. cbn [andb].
    destruct (is_word_opt (hd_error r)) eqn:Hr; cbn [xorb].
    + unfold list_ascii_eqb.
      destruct (list_eq_dec ascii_dec w2 p2) as [-> | Hneq]; [| reflexivity].
      apply app_inv_head in E2. subst r. congruence.
    + apply word_run_unique in E2 as [-> _]; try assumption.
      unfold list_ascii_eqb.
      destruct (list_eq_dec ascii_dec p2 p2); [reflexivity | congruence].
  - unfold list_ascii_eqb.
    destruct (list_eq_dec ascii_dec w1 p1) as [-> |]; [| reflexivity].
    destruct (list_eq_dec ascii_dec w2 p2) as [-> |]; [| reflexivity].
    exfalso.
    assert (Hs : match_literal pat (p1 ++ " "%char :: p2 ++ tail) = Some tail).
    { apply match_literal_spec. unfold pat. rewrite <- app_assoc. reflexivity. }
    congruence.
Qed.

(** The last word of the text cannot start a match. *)
Lemma two_word_at_last_word (w : list ascii) (prev : option ascii) :
  Forall (fun c => is_word_char c = true) w ->
  matches_at pat prev w = false.
Proof.
  intro Hw. unfold matches_at.
  destruct (match_literal pat w) as [r |] eqn:Hl; [| reflexivity].
  apply match_literal_spec in Hl. unfold pat in Hl. rewrite <- app_assoc in Hl.
  rewrite Hl in Hw. apply Forall_app in Hw as [_ Hw]. inversion Hw; subst.
  discriminate.
Qed.

Lemma findall_two_word_bounded (n : nat) :
  forall (words : list (list ascii)) (prev : option ascii),
  (List.length words <= n)%nat ->
  is_word_opt prev = false ->
  Forall (fun w => w <> [] /\ Forall (fun c => is_word_char c = true) w) words ->
  findall_count pat prev (spaced words) 0
  = count_adjacent list_ascii_eqb p1 p2 words.
Proof.
  induction n as [| n IH]; intros words prev Hlen Hprev Hall.
  - destruct words; [reflexivity | cbn in Hlen; lia].
  - destruct words as [| w1 rest]; [reflexivity|].
    inversion Hall as [| ? ? [Hne1 Hw1] Hrest]; subst.
    destruct rest as [| w2 rest'].
    + (* a single word *)
      cbn [spaced count_adjacent].
      destruct w1 as [| c w1']; [congruence|].
      cbn [findall_count]. rewrite (two_word_at_last_word _ prev Hw1).
      inversion Hw1; subst.
      rewrite <- (app_nil_r w1'), findall_inside_word by assumption.
      reflexivity.
    + inversion Hrest as [| ? ? [Hne2 Hw2] Hrest']; subst.
      cbn [count_adjacent].
      set (tail := match rest' with [] => [] | _ :: _ => " "%char :: spaced rest' end).
      assert (Hsp : spaced (w1 :: w2 :: rest') = w1 ++ " "%char :: w2 ++ tail).
      { cbn [spaced]. destruct rest'; [now rewrite app_nil_r | reflexivity]. }
      assert (Htail : is_word_opt (hd_error tail) = false)
        by (unfold tail; destruct rest'; reflexivity).
      pose proof (two_word_at_word_start w1 w2 tail prev Hprev Hne1 Hw1 Hw2 Htail)
        as Hm.
      rewrite Hsp. destruct w1 as [| c w1']; [congruence|].
      cbn [app findall_count]. cbn [app] in Hm. rewrite Hm.
      destruct (list_ascii_eqb (c :: w1') p1 && list_ascii_eqb w2 p2)%bool eqn:Eb.
      * (* a match: both words are consumed *)
        f_equal.
        replace (List.length pat - 1)%nat
          with (List.length (w1' ++ " "%char :: w2)).
        2:{ apply andb_prop in Eb as [E1 E2]. unfold list_ascii_eqb in E1, E2.
            destruct (list_eq_dec ascii_dec (c :: w1') p1) as [<- |]; [| discriminate].
            destruct (list_eq_dec ascii_dec w2 p2) as [<- |]; [| discriminate].
            unfold pat. cbn [app List.length]. lia. }
        replace (w1' ++ " "%char :: w2 ++ tail)
          with ((w1' ++ " "%char :: w2) ++ tail)
          by (rewrite <- app_assoc; reflexivity).
        rewrite findall_skip.
        unfold tail. destruct rest' as [| w3 rest''].
        -- reflexivity.
        -- cbn [findall_count]. rewrite two_word_not_at_space.
           apply IH; [cbn [List.length] in *; lia | reflexivity | exact Hrest'].
      * (* no match: the scan moves on to the next word *)
        inversion Hw1; subst.
        rewrite findall_inside_word by assumption.
        cbn [findall_count]. rewrite two_word_not_at_space.
        replace (w2 ++ tail) with (spaced (w2 :: rest'))
          by (unfold tail; cbn [spaced]; destruct rest'; [now rewrite app_nil_r | reflexivity]).
        apply IH; [cbn [List.length] in *; lia | reflexivity | exact Hrest].
Qed.

End TwoWordFiller.

Lemma count_adjacent_step {A : Type} (eqb : A -> A -> bool) (first second a b : A)
    (rest : list A) :
  count_adjacent eqb first second (a :: b :: rest)
  = if (eqb a first && eqb b second)%bool
    then S (count_adjacent eqb first second rest)
    else count_adjacent eqb first second (b :: rest).
Proof. reflexivity. Qed.

Lemma count_adjacent_strings (first second : string) (words : list string) :
  count_adjacent list_ascii_eqb (list_ascii_of_string first)
    (list_ascii_of_string second) (map list_ascii_of_string words)
  = count_adjacent String.eqb first second words.
Proof.
  assert (Hlen : forall n (l : list string), (List.length l <= n)%nat ->
            count_adjacent list_ascii_eqb (list_ascii_of_string first)
              (list_ascii_of_string second) (map list_ascii_of_string l)
            = count_adjacent String.eqb first second l).
  { induction n as [| n IH]; intros l Hl.
    - destruct l; [reflexivity | cbn in Hl; lia].
    - destruct l as [| a [| b rest]]; [reflexivity | reflexivity |].
      cbn [map]. rewrite !count_adjacent_step. unfold list_ascii_eqb at 1 2.
      rewrite !list_ascii_eq_dec_eqb.
      destruct (String.eqb a first && String.eqb b second)%bool.
      + f_equal. apply IH. cbn [List.length] in Hl. lia.
      + apply (IH (b :: rest)). cbn [List.length] in *. lia. }
  exact (Hlen _ words (Nat.le_refl _)).
Qed.

Lemma count_two_word_filler (first second : string) (words : list string) :
  plain_word first = true -> plain_word second = true ->
  Forall (fun w => plain_word w = true) words ->
  findall_count (list_ascii_of_string (first ++ " " ++ second)) None
    (list_ascii_of_string (join " " words)) 0
  = count_adjacent String.eqb first second words.
Proof.
  intros H1 H2 Hw.
  apply plain_word_chars in H1 as [Hne1 Hc1].
  apply plain_word_chars in H2 as [Hne2 Hc2].
  rewrite list_ascii_of_join, !list_ascii_of_string_app.
  cbn [list_ascii_of_string app].
  rewrite (findall_two_word_bounded _ _ Hne1 Hc1 Hne2 Hc2 _ _ None (Nat.le_refl _))
    by (try reflexivity; apply Forall_map; revert Hw; apply Forall_impl;
        intros w Hpw; now apply plain_word_chars).
  apply count_adjacent_strings.
Qed.

Lemma count_filler_words_app (transcript : string) (l1 l2 : list string) :
  count_filler_words transcript (l1 ++ l2)
  = (count_filler_words transcript l1 + count_filler_words transcript l2)%nat.
Proof.
  unfold count_filler_words at 1. rewrite fold_left_app.
  fold (count_filler_words transcript l1).
  apply count_filler_words_from.
Qed.

Lemma one_word_fillers_eq :
  one_word_fillers
  = ["um"; "uh"; "ah"; "like"; "so"; "well"; "actually"; "basically";
     "literally"]%string.
Proof. reflexivity. Qed.

Lemma str_in_one_word_fillers (w : string) :
  plain_word w = true -> str_in w FILLER_WORDS = str_in w one_word_fillers.
Proof.
  intro Hp. unfold str_in, FILLER_WORDS, one_word_fillers. cbn [existsb].
  destruct (String.eqb_spec w "you know") as [-> | _]; [discriminate | reflexivity].
Qed.

Lemma count_filler_words_program (transcript : string) :
  count_filler_words transcript FILLER_WORDS
  = (count_filler_words transcript one_word_fillers
     + findall_count (list_ascii_of_string "you know") None
         (list_ascii_of_string transcript) 0)%nat.
Proof.
  change FILLER_WORDS
    with (["um"; "uh"; "ah"; "like"]%string
          ++ ["you know"%string]
          ++ ["so"; "well"; "actually"; "basically"; "literally"]%string).
  change one_word_fillers
    with (["um"; "uh"; "ah"; "like"]%string
          ++ ["so"; "well"; "actually"; "basically"; "literally"]%string).
  rewrite !count_filler_words_app.
  unfold count_filler_words at 2. cbn [fold_left Nat.add]. lia.
Qed.

(** X22.  The two filler counters on clean input, with the filler list of
    the program: when every recognized word is a lower-case run of word
    characters and the transcript is these words separated by single
    spaces, the transcript-based counter on the transcript of the report
    returns the filler count of the word-by-word analysis plus the number
    of times the word "you" is directly followed by the word "know".  The
    list entry "you know" is what the two counters differ by. *)
Theorem filler_counters_differ_by_you_know (np_sqrt : Q -> Q)
    (response : list SpeechResult) :
  forallb has_alternative response = true ->
  Forall (fun w => plain_word (wi_word w) = true /\ lower (wi_word w) = wi_word w)
         (recognized_words response) ->
  join " " (first_transcripts response)
  = join " " (map wi_word (recognized_words response)) ->
  exists sa,
    analyze_speech np_sqrt FILLER_WORDS (Ok response) = Ok sa /\
    Z.of_nat (count_filler_words (sa_transcript sa) FILLER_WORDS)
    = (sa_filler_count sa
       + Z.of_nat (count_adjacent String.eqb "you"%string "know"%string
                     (map wi_word (recognized_words response))))%Z.
Proof.
  intros Hall Hw Ht.
  destruct (analyze_speech_ok np_sqrt FILLER_WORDS response Hall) as (p & _ & E).
  eexists. split; [exact E|]. cbn [sa_filler_count sa_transcript].
  rewrite Ht.
  set (words := map wi_word (recognized_words response)).
  assert (Hplain : Forall (fun w => plain_word w = true) words).
  { unfold words. apply Forall_map. revert Hw. apply Forall_impl. tauto. }
  rewrite count_filler_words_program.
  change "you know"%string with ("you" ++ " " ++ "know")%string.
  rewrite (count_two_word_filler "you" "know" words eq_refl eq_refl Hplain).
  rewrite count_filler_words_spaced;
    [| rewrite one_word_fillers_eq; repeat constructor; cbn; intuition discriminate
     | rewrite one_word_fillers_eq; repeat constructor
     | exact Hplain].
  rewrite Nat2Z.inj_add. f_equal.
  unfold count_fillers, words. f_equal.
  rewrite filter_map_swap, length_map. f_equal.
  apply filter_ext_in. intros w Hin. unfold is_filler.
  rewrite Forall_forall in Hw. destruct (Hw w Hin) as [Hp Hl].
  rewrite (normalize_plain_word _ Hp Hl). symmetry.
  now apply str_in_one_word_fillers.
Qed.

(** X22 at work on "so you know i um know you": the transcript-based
    counter finds one filler more than the word-by-word analysis. *)
Lemma filler_counters_witness :
  exists sa,
    analyze_speech isqrt_Q FILLER_WORDS (Ok clean_response) = Ok sa /\
    Z.of_nat (count_filler_words (sa_transcript sa) FILLER_WORDS)
    = (sa_filler_count sa + 1)%Z.
Proof.
  destruct (filler_counters_differ_by_you_know isqrt_Q clean_response)
    as (sa & E & H).
  - reflexivity.
  - repeat constructor.
  - reflexivity.
  - exists sa. split; [exact E | exact H].
Defined.

(** ** The upload entry point *)

Section UploadProperties.

Variable BUCKET_NAME : string.
Variable connect_storage : json -> result unit.
Variable default_credentials : result unit.

(** X23.  The upload handler grants an upload (status 200) only to a POST
    whose body is a JSON object with a truthy filename and a contentType
    that is a string starting with "video/", and only after the storage
    connection and the credentials succeeded; the grant then repeats the
    file name and the content type and names the configured bucket.
    Conversely every such request is granted.  A content type that is a
    string not starting with "video/" is refused with 400 whatever the
    storage does. *)
Theorem upload_granted_only_for_videos (request : Request) :
  let answer :=
    generate_upload_url BUCKET_NAME connect_storage default_credentials request in
  (snd answer = 200%Z ->
   req_method request = "POST"%string /\
   exists members filename ct,
     req_json request = Some (JObj members) /\
     dict_get "filename" members = Some filename /\ truthy filename = true /\
     dict_get "contentType" members = Some (JStr ct) /\
     String.prefix "video/" ct = true /\
     is_ok (connect_storage filename) = true /\
     is_ok default_credentials = true /\
     exists grant,
       fst answer = ReportBody grant /\
       ug_filename grant = filename /\ ug_contentType grant = ct /\
       ug_bucket grant = BUCKET_NAME) /\
  (forall members filename ct,
     req_method request = "POST"%string ->
     req_json request = Some (JObj members) ->
     dict_get "filename" members = Some filename -> truthy filename = true ->
     dict_get "contentType" members = Some (JStr ct) ->
     (String.prefix "video/" ct = true ->
      is_ok (connect_storage filename) = true ->
      is_ok default_credentials = true ->
      snd answer = 200%Z) /\
     (ct <> EmptyString -> String.prefix "video/" ct = false ->
      answer = (ErrorBody "Only video files are allowed", 400%Z))).
Proof.
  intro answer. subst answer. unfold generate_upload_url, json_get. split.
  - destruct (String.eqb_spec (req_method request) "OPTIONS") as [Hopt | Hopt];
      [discriminate|].
    destruct (String.eqb_spec (req_method request) "POST") as [Hpost | Hpost];
      cbn [negb]; [| discriminate].
    destruct (req_json request) as [body |]; [| discriminate].
    destruct (truthy body) eqn:Hbody; cbn [negb]; [| discriminate].
    destruct body as [| b | x | str | items | members]; try discriminate.
    destruct (dict_get "filename" members) as [filename |] eqn:Hf.
    2:{ destruct (dict_get "contentType" members); discriminate. }
    destruct (dict_get "contentType" members) as [content_type |] eqn:Hc.
    2:{ cbn [truthy negb]. destruct (truthy filename); discriminate. }
    destruct (truthy filename) eqn:Htf; cbn [negb]; [| discriminate].
    destruct (truthy content_type) eqn:Htc; cbn [negb]; [| discriminate].
    destruct content_type as [| b | x | ct | items | ms]; try discriminate.
    destruct (String.prefix "video/" ct) eqn:Hp; cbn [negb]; [| discriminate].
    destruct (connect_storage filename) as [u |] eqn:Hs; [| discriminate].
    destruct default_credentials as [u' |] eqn:Hd; [| discriminate].
    intros _. split; [exact Hpost|].
    exists members, filename, ct.
    split; [reflexivity|]. split; [exact Hf|]. split; [exact Htf|].
    split; [exact Hc|]. split; [exact Hp|].
    split; [now rewrite Hs|]. split; [reflexivity|].
    eexists. repeat split; reflexivity.
  - intros members filename ct Hpost Hbody Hf Htf Hc.
    rewrite Hpost, Hbody. cbn [String.eqb Ascii.eqb Bool.eqb negb].
    assert (Hm : truthy (JObj members) = true).
    { destruct members; [discriminate | reflexivity]. }
    rewrite Hm, Hf, Hc, Htf. cbn [negb]. split.
    + intros Hp Hs Hd.
      assert (Htc : truthy (JStr ct) = true).
      { cbn. destruct ct; [discriminate | reflexivity]. }
      rewrite Htc, Hp. cbn [negb].
      destruct (connect_storage filename); [| discriminate].
      destruct default_credentials; [reflexivity | discriminate].
    + intros Hne Hp.
      assert (Htc : truthy (JStr ct) = true).
      { cbn. destruct ct; [congruence | reflexivity]. }
      rewrite Htc, Hp. reflexivity.
Qed.

End UploadProperties.

(** X23 at work: a WebM recording is granted, a PDF is refused. *)
Lemma upload_granted_witness :
  snd (generate_upload_url "wingman-interview-videos" (fun _ => Ok tt) (Ok tt)
         (post_request (JObj [("filename"%string, JStr "answer.webm");
                              ("contentType"%string, JStr "video/webm")])))
  = 200%Z /\
  generate_upload_url "wingman-interview-videos" (fun _ => Ok tt) (Ok tt)
    (post_request (JObj [("filename"%string, JStr "cv.pdf");
                         ("contentType"%string, JStr "application/pdf")]))
  = (ErrorBody "Only video files are allowed", 400%Z).
Proof.
  split.
  - pose proof (upload_granted_only_for_videos "wingman-interview-videos"
                  (fun _ => Ok tt) (Ok tt)
                  (post_request (JObj [("filename"%string, JStr "answer.webm");
                                       ("contentType"%string, JStr "video/webm")])))
      as [_ H].
    destruct (H [("filename"%string, JStr "answer.webm");
                 ("contentType"%string, JStr "video/webm")]
                (JStr "answer.webm") "video/webm"%string
                eq_refl eq_refl eq_refl eq_refl eq_refl) as [H200 _].
    apply H200; reflexivity.
  - pose proof (upload_granted_only_for_videos "wingman-interview-videos"
                  (fun _ => Ok tt) (Ok tt)
                  (post_request (JObj [("filename"%string, JStr "cv.pdf");
                                       ("contentType"%string, JStr "application/pdf")])))
      as [_ H].
    destruct (H [("filename"%string, JStr "cv.pdf");
                 ("contentType"%string, JStr "application/pdf")]
                (JStr "cv.pdf") "application/pdf"%string
                eq_refl eq_refl eq_refl eq_refl eq_refl) as [_ H400].
    apply H400; [discriminate | reflexivity].
Defined.
